(** * BeDIS server: SqlWrapper.c and Geo-Fencing.c

    A shallow embedding of the database wrapper (connection pool,
    registration upsert, tracking bulk path, summarizer, violation
    collection and drain; maintenance, device status, violation
    identification and dumps) and of the packet receiver loop, with the
    properties of the design document proved or refuted on it, and further
    properties read off the code.

    Conventions.
    - C [int] values are [Z]; where the code cuts a wider value to an
      [int] the wrap-around is written out ([to_int]), and where it reads a
      number from a token the statements take the number to fit in an
      [int] ([fits_int]).  A C string is a [string] (its bytes up to the
      terminating NUL); a [NULL] pointer is [None].
    - A call that dereferences [NULL] ([strlen], [strcpy], [atoi] on a
      missing token) has no defined result: the computation is [None].
    - The fixed buffers ([WIFI_MESSAGE_LENGTH], [SQL_TEMP_BUFFER_LENGTH],
      [LENGTH_OF_UUID], [MAX_PATH]) are declared in headers that are not
      part of the two source files; inputs are taken to fit in them.
    - The PostgreSQL server is a record of tables.  A statement built by
      [sprintf] from a template is a constructor of [Statement] carrying
      the template's arguments; [PQescapeLiteral] followed by the server's
      literal parser is the identity on the string.
    - Timestamps are microseconds since the epoch, as PostgreSQL stores
      them; [NOW()] is the [clock] of the world and stands still during
      one call.  The table definitions are not among the sources: the
      columns [mac_address] and [uuid] hold strings, the four violation
      timestamps of [object_summary_table] may be NULL ([None]),
      [lbeacon_table] is unique on [uuid] (the ON CONFLICT target) and
      [notification_table.id] is a serial number.
    - What the server does for reasons outside the model (lost connection,
      constraint violation, malformed value) is an oracle: [faults] lists,
      for the next [PQexec] calls, whether the statement is rejected.
    - For the functions that only look at the status and the tuples of a
      result (maintenance, device status, identification, dumps) the whole
      server is an oracle: a [Session] carries the result of each
      statement to come, and the pool and the files of a [World]. *)

From stdpp Require Import gmap strings list fin_maps sorting pretty.
From Stdlib Require Import ZArith Lia Ascii.

Local Open Scope Z_scope.

Set Default Proof Using "Type".

(** ** Error codes (the members of [ErrorCode] the two files return) *)

Inductive ErrorCode :=
| WORK_SUCCESSFULLY
| E_MALLOC
| E_OPEN_FILE
| E_WIFI_INIT_FAIL
| E_START_THREAD
| E_SQL_OPEN_DATABASE
| E_SQL_PARSE
| E_SQL_EXECUTE
| E_API_PROTOCOL_FORMAT
| E_INPUT_PARAMETER.

Global Instance ErrorCode_eq_dec : EqDecision ErrorCode.
Proof. solve_decision. Defined.

(** ** The connection pool *)

Definition PGconn := nat.

Record DBConnectionNode := {
  serial_id : Z;
  is_used : Z;
  db : PGconn
}.

Global Instance DBConnectionNode_eq_dec : EqDecision DBConnectionNode.
Proof. solve_decision. Defined.

Definition set_is_used (v : Z) (n : DBConnectionNode) : DBConnectionNode :=
  {| serial_id := serial_id n; is_used := v; db := db n |}.

(** One pass of [list_for_each] in [SQL_get_database_connection]: the first
    node with [is_used == 0] is taken. *)
Fixpoint scan_free (head : list DBConnectionNode)
    : option (PGconn * Z * list DBConnectionNode) :=
  match head with
  | [] => None
  | n :: rest =>
      if is_used n =? 0 then Some (db n, serial_id n, set_is_used 1 n :: rest)
      else
        match scan_free rest with
        | Some (h, sid, rest') => Some (h, sid, n :: rest')
        | None => None
        end
  end.

(** [while(retry_times --)] around the scan.  Nothing else runs between two
    rounds of one call here, the mutex being taken for each round. *)
Fixpoint get_connection_loop (retry_times : nat) (head : list DBConnectionNode)
    : ErrorCode * option (PGconn * Z) * list DBConnectionNode :=
  match retry_times with
  | O => (E_SQL_OPEN_DATABASE, None, head)
  | S k =>
      match scan_free head with
      | Some (h, sid, head') => (WORK_SUCCESSFULLY, Some (h, sid), head')
      | None => get_connection_loop k head
      end
  end.

(** [SQL_release_database_connection]: the first node with that serial id. *)
Fixpoint SQL_release_database_connection (head : list DBConnectionNode)
    (sid : Z) : ErrorCode * list DBConnectionNode :=
  match head with
  | [] => (E_SQL_OPEN_DATABASE, [])
  | n :: rest =>
      if serial_id n =? sid then (WORK_SUCCESSFULLY, set_is_used 0 n :: rest)
      else
        let '(e, rest') := SQL_release_database_connection rest sid in
        (e, n :: rest')
  end.

Definition in_use_count (head : list DBConnectionNode) : nat :=
  length (filter (λ n, is_used n = 1) head).

Definition free_count (head : list DBConnectionNode) : nat :=
  length (filter (λ n, is_used n = 0) head).

Definition pool_wf (head : list DBConnectionNode) : Prop :=
  NoDup (serial_id <$> head) ∧ Forall (λ n, is_used n = 0 ∨ is_used n = 1) head.

(** ** C library pieces used by SqlWrapper.c *)

Definition isspace (c : ascii) : bool :=
  let n := Z.of_nat (nat_of_ascii c) in
  (n =? 32) || ((9 <=? n) && (n <=? 13)).

Definition digit_of (c : ascii) : option Z :=
  let n := Z.of_nat (nat_of_ascii c) in
  if (48 <=? n) && (n <=? 57) then Some (n - 48) else None.

Fixpoint skip_space (s : string) : string :=
  match s with
  | String c s' => if isspace c then skip_space s' else s
  | EmptyString => s
  end.

Fixpoint digits_value (s : string) (acc : Z) : Z :=
  match s with
  | String c s' =>
      match digit_of c with
      | Some d => digits_value s' (10 * acc + d)
      | None => acc
      end
  | EmptyString => acc
  end.

(** The range of an [int], and the [int] a wider value is read as: its low
    32 bits, signed. *)
Definition INT_MIN : Z := - 2 ^ 31.
Definition INT_MAX : Z := 2 ^ 31 - 1.

Definition fits_int (z : Z) : Prop := INT_MIN ≤ z ≤ INT_MAX.

Definition to_int (z : Z) : Z := (z + 2 ^ 31) mod 2 ^ 32 - 2 ^ 31.

(** [atoi]: leading white space, an optional sign, then the longest run of
    decimal digits.  The value is kept exact here: it is the [int] the C
    library returns when it fits in one ([fits_int]), and the C result is not
    defined otherwise (glibc then returns the low 32 bits of the value cut
    to a [long]).  The statements below that depend on the number a token
    denotes take it to fit. *)
Definition atoi (s : string) : Z :=
  match skip_space s with
  | String c s' =>
      if decide (c = "-"%char) then - digits_value s' 0
      else if decide (c = "+"%char) then digits_value s' 0
      else digits_value (String c s') 0
  | EmptyString => 0
  end.

(** [strncpy(dst, &src[pos], len)] into a zero-filled buffer, [src] itself
    being followed by zero bytes: the characters of [src] from [pos], at
    most [len] of them. *)
Definition strncpy_from (src : string) (pos len : nat) : string :=
  String.substring pos len src.

(** [gmtime] followed by [strftime(.., "%Y-%m-%d %H:%M:%S", ..)]. *)
Definition civil_from_days (days : Z) : Z * Z * Z :=
  let z := days + 719468 in
  let era := z / 146097 in
  let doe := z - era * 146097 in
  let yoe := (doe - doe / 1460 + doe / 36524 - doe / 146096) / 365 in
  let doy := doe - (365 * yoe + yoe / 4 - yoe / 100) in
  let mp := (5 * doy + 2) / 153 in
  let d := doy - (153 * mp + 2) / 5 + 1 in
  let m := if mp <? 10 then mp + 3 else mp - 9 in
  let y := yoe + era * 400 in
  (if m <=? 2 then y + 1 else y, m, d).

Definition two_digits (n : Z) : string :=
  if n <? 10 then "0" +:+ pretty n else pretty n.

Definition strftime_gmtime (rawtime : Z) : string :=
  let '(y, m, d) := civil_from_days (rawtime / 86400) in
  let sod := rawtime mod 86400 in
  pretty y +:+ "-" +:+ two_digits m +:+ "-" +:+ two_digits d +:+ " " +:+
  two_digits (sod / 3600) +:+ ":" +:+ two_digits (sod mod 3600 / 60) +:+ ":" +:+
  two_digits (sod mod 60).

(** Modelled from the spec: [strtok_save] lives in a file that is not among
    the sources.  The messages are semicolon-delimited ASCII; the
    tokenizer is taken to behave as [strtok_r] with [DELIMITER_SEMICOLON]:
    runs of delimiters separate tokens, an exhausted buffer gives [NULL].
    [tokenize] computes all tokens at once; the save pointer of the C code
    is the list of tokens still to come. *)
Fixpoint tokenize_from (s : string) (cur : string) : list string :=
  match s with
  | EmptyString => if decide (cur = EmptyString) then [] else [cur]
  | String c s' =>
      if decide (c = ";"%char)
      then (if decide (cur = EmptyString) then tokenize_from s' EmptyString
            else cur :: tokenize_from s' EmptyString)
      else tokenize_from s' (cur +:+ String c EmptyString)
  end.

Definition tokenize (buf : string) : list string := tokenize_from buf EmptyString.

Definition strtok_save (saveptr : list string) : option string * list string :=
  match saveptr with
  | [] => (None, [])
  | t :: rest => (Some t, rest)
  end.

(** ** The database *)

Record LBeaconRow := {
  lb_uuid : string;
  lb_ip_address : string;
  lb_health_status : Z;
  lb_gateway_ip_address : string;
  lb_registered_timestamp : string;   (* seconds after the epoch, as sent *)
  lb_last_report_timestamp : Z;
  lb_coordinate_x : Z;
  lb_coordinate_y : Z;
  lb_room : option string;
  lb_danger_area : option Z
}.

Record ObjectRow := {
  o_mac_address : string;
  o_monitor_type : Z
}.

Inductive ViolationColumn :=
| geofence_violation_timestamp
| panic_violation_timestamp
| movement_violation_timestamp
| location_violation_timestamp.

Record SummaryRow := {
  s_id : Z;
  s_mac_address : string;
  s_uuid : string;
  s_is_location_updated : Z;
  s_geofence_violation_timestamp : option Z;
  s_panic_violation_timestamp : option Z;
  s_movement_violation_timestamp : option Z;
  s_location_violation_timestamp : option Z
}.

Record NotificationRow := {
  n_id : Z;
  n_monitor_type : Z;
  n_mac_address : string;
  n_uuid : string;
  n_violation_timestamp : Z;
  n_processed : Z
}.

Global Instance NotificationRow_eq_dec : EqDecision NotificationRow.
Proof. solve_decision. Defined.

Record Database := {
  lbeacon_table : gmap string LBeaconRow;      (* unique on uuid *)
  object_table : list ObjectRow;
  object_summary_table : list SummaryRow;
  notification_table : list NotificationRow;
  notification_id_seq : Z;                     (* next value of the serial id *)
  tracking_table : list string                 (* rows loaded by COPY *)
}.

Definition with_lbeacon_table (t : gmap string LBeaconRow) (d : Database) :=
  {| lbeacon_table := t; object_table := object_table d;
     object_summary_table := object_summary_table d;
     notification_table := notification_table d;
     notification_id_seq := notification_id_seq d;
     tracking_table := tracking_table d |}.

Definition with_object_summary_table (t : list SummaryRow) (d : Database) :=
  {| lbeacon_table := lbeacon_table d; object_table := object_table d;
     object_summary_table := t;
     notification_table := notification_table d;
     notification_id_seq := notification_id_seq d;
     tracking_table := tracking_table d |}.

Definition with_notification_table (t : list NotificationRow) (seq : Z)
    (d : Database) :=
  {| lbeacon_table := lbeacon_table d; object_table := object_table d;
     object_summary_table := object_summary_table d;
     notification_table := t;
     notification_id_seq := seq;
     tracking_table := tracking_table d |}.

Definition with_tracking_table (t : list string) (d : Database) :=
  {| lbeacon_table := lbeacon_table d; object_table := object_table d;
     object_summary_table := object_summary_table d;
     notification_table := notification_table d;
     notification_id_seq := notification_id_seq d;
     tracking_table := t |}.

(** ** Statements: one constructor for each [sprintf] template.  Where the
    C code fills several placeholders of a template with the same variable
    (the beacon fields of the upsert in its INSERT and DO UPDATE parts,
    [MONITOR_PANIC] twice, the violation column three times, the windows of
    the summarizer), the constructor carries the variable once. *)

Inductive Statement :=
| BEGIN_TRANSACTION
| END_TRANSACTION
| ROLLBACK
| INSERT_LBEACON_ON_CONFLICT
    (uuid ip : string) (health : Z) (gateway registered : string) (x y : Z)
| IDENTIFY_PANIC (mac : string) (monitor_panic : Z)
| COPY_TRACKING (filename : string)
| RESET_STATE
| UPDATE_STABLE_TAG (window interval tolerance : Z)
| UPDATE_MOVING_TAG (window interval : Z)
| UPDATE_TAG_BASE_LOCATION (window interval tolerance : Z)
| INSERT_NOTIFICATION
    (monitor_type : Z) (column : ViolationColumn) (interval granularity : Z)
| SELECT_UNPROCESSED
| UPDATE_PROCESSED (id : Z).

Inductive ExecStatusType := PGRES_COMMAND_OK | PGRES_TUPLES_OK | PGRES_FATAL_ERROR.

Global Instance ExecStatusType_eq_dec : EqDecision ExecStatusType.
Proof. solve_decision. Defined.

Record PGresult := {
  PQresultStatus : ExecStatusType;
  PQnfields : Z;
  tuples : list (list string)
}.

Definition PQntuples (res : PGresult) : Z := Z.of_nat (length (tuples res)).

Definition usec_per_sec : Z := 1000000.

Definition violation_timestamp_of (c : ViolationColumn) (s : SummaryRow)
    : option Z :=
  match c with
  | geofence_violation_timestamp => s_geofence_violation_timestamp s
  | panic_violation_timestamp => s_panic_violation_timestamp s
  | movement_violation_timestamp => s_movement_violation_timestamp s
  | location_violation_timestamp => s_location_violation_timestamp s
  end.

Definition set_panic_violation_timestamp (t : Z) (s : SummaryRow) : SummaryRow :=
  {| s_id := s_id s; s_mac_address := s_mac_address s; s_uuid := s_uuid s;
     s_is_location_updated := s_is_location_updated s;
     s_geofence_violation_timestamp := s_geofence_violation_timestamp s;
     s_panic_violation_timestamp := Some t;
     s_movement_violation_timestamp := s_movement_violation_timestamp s;
     s_location_violation_timestamp := s_location_violation_timestamp s |}.

Definition set_is_location_updated (v : Z) (s : SummaryRow) : SummaryRow :=
  {| s_id := s_id s; s_mac_address := s_mac_address s; s_uuid := s_uuid s;
     s_is_location_updated := v;
     s_geofence_violation_timestamp := s_geofence_violation_timestamp s;
     s_panic_violation_timestamp := s_panic_violation_timestamp s;
     s_movement_violation_timestamp := s_movement_violation_timestamp s;
     s_location_violation_timestamp := s_location_violation_timestamp s |}.

Definition set_processed (v : Z) (n : NotificationRow) : NotificationRow :=
  {| n_id := n_id n; n_monitor_type := n_monitor_type n;
     n_mac_address := n_mac_address n; n_uuid := n_uuid n;
     n_violation_timestamp := n_violation_timestamp n; n_processed := v |}.

(** ** The world a call runs in *)

Record World := {
  pool : list DBConnectionNode;          (* db_connection_list_head *)
  database : Database;
  clock : Z;                             (* NOW(), microseconds *)
  faults : list bool;                    (* true: the next statement is rejected *)
  sent : list (PGconn * Statement);      (* statements given to PQexec, in order *)
  files : gmap string (list string);     (* text files, as lists of lines *)
  unwritable : gset string               (* paths fopen(.., "wt") fails on *)
}.

Definition set_pool (p : list DBConnectionNode) (w : World) : World :=
  {| pool := p; database := database w; clock := clock w; faults := faults w;
     sent := sent w; files := files w; unwritable := unwritable w |}.

Definition set_database (d : Database) (w : World) : World :=
  {| pool := pool w; database := d; clock := clock w; faults := faults w;
     sent := sent w; files := files w; unwritable := unwritable w |}.

Definition set_clock (t : Z) (w : World) : World :=
  {| pool := pool w; database := database w; clock := t; faults := faults w;
     sent := sent w; files := files w; unwritable := unwritable w |}.

Definition set_files (f : gmap string (list string)) (w : World) : World :=
  {| pool := pool w; database := database w; clock := clock w; faults := faults w;
     sent := sent w; files := f; unwritable := unwritable w |}.

Definition record_statement (c : PGconn) (q : Statement) (w : World) : World :=
  {| pool := pool w; database := database w; clock := clock w;
     faults := tail (faults w);
     sent := sent w ++ [(c, q)]; files := files w; unwritable := unwritable w |}.

(** [fopen(filename, "wt")], [fprintf] of one line, [fclose], [remove]. *)
Definition fopen_wt (filename : string) (w : World) : option World :=
  if decide (filename ∈ unwritable w) then None
  else Some (set_files (<[filename := []]> (files w)) w).

Definition fprintf_line (filename line : string) (w : World) : World :=
  set_files (alter (λ l, l ++ [line]) filename (files w)) w.

Definition fclose (filename : string) (w : World) : World := w.

Definition remove (filename : string) (w : World) : World :=
  set_files (delete filename (files w)) w.

(** Modelled from the spec: [get_system_time] is defined outside the two
    sources; it is the wall clock in whole seconds. *)
Definition get_system_time (w : World) : Z := clock w / usec_per_sec.

Section BeDIS.

(** Constants of headers that are not among the sources. *)
Variable SQL_GET_AVAILABLE_CONNECTION_RETRIES : nat.
Variable S_NORMAL_STATUS : Z.
Variables MONITOR_GEO_FENCE MONITOR_PANIC MONITOR_MOVEMENT MONITOR_LOCATION : Z.

(** The server's text form of a timestamp column, and what the three
    windowed UPDATEs of the summarizer do to the tables: both belong to the
    server and are left open. *)
Variable timestamp_out : Z → string.
Variable summarizer_update : Statement → Z → Database → Database.

(** ** What the server does with a statement *)

(** The upsert keyed on [uuid]: the row the statement leaves under [uuid],
    inserted when there was none, updated in place on conflict. *)
Definition lbeacon_row_after (uuid ip : string) (health : Z)
    (gateway registered : string) (x y now : Z) (old : option LBeaconRow)
    : LBeaconRow :=
  match old with
  | None =>
      {| lb_uuid := uuid; lb_ip_address := ip; lb_health_status := health;
         lb_gateway_ip_address := gateway;
         lb_registered_timestamp := registered;
         lb_last_report_timestamp := now;
         lb_coordinate_x := x; lb_coordinate_y := y;
         lb_room := None; lb_danger_area := None |}
  | Some r =>
      {| lb_uuid := lb_uuid r; lb_ip_address := ip; lb_health_status := health;
         lb_gateway_ip_address := gateway;
         lb_registered_timestamp := lb_registered_timestamp r;
         lb_last_report_timestamp := now;
         lb_coordinate_x := x; lb_coordinate_y := y;
         lb_room := lb_room r; lb_danger_area := lb_danger_area r |}
  end.

Definition upsert_lbeacon (uuid ip : string) (health : Z)
    (gateway registered : string) (x y now : Z)
    (t : gmap string LBeaconRow) : gmap string LBeaconRow :=
  <[uuid := lbeacon_row_after uuid ip health gateway registered x y now
              (t !! uuid)]> t.

(** [UPDATE object_summary_table SET panic_violation_timestamp = NOW()
     FROM object_summary_table as R INNER JOIN object_table
       ON R.mac_address = object_table.mac_address
     WHERE object_summary_table.mac_address = mac
       AND object_table.monitor_type & p = p]:
    the joined pair (R, object_table) is not correlated with the updated
    row, so the rows with that mac are stamped as soon as some object
    that has a summary row carries the bit. *)
Definition identify_panic (mac : string) (p now : Z) (d : Database) : Database :=
  let joined (o : ObjectRow) :=
    bool_decide (Z.land (o_monitor_type o) p = p) &&
    existsb (λ r, bool_decide (s_mac_address r = o_mac_address o))
            (object_summary_table d) in
  if existsb joined (object_table d) then
    with_object_summary_table
      ((λ s, if decide (s_mac_address s = mac)
             then set_panic_violation_timestamp now s else s)
         <$> object_summary_table d) d
  else d.

(** The sub-select of the notification insert:
    [SELECT * FROM notification_table WHERE monitor_type = m
       AND mac_address = mac_address AND uuid = uuid
       AND EXTRACT(EPOCH FROM (col - violation_timestamp)) < g].
    Inside the sub-select the unqualified [mac_address] and [uuid] are the
    columns of [notification_table] on both sides of [=]; [col] is not a
    column of [notification_table], so it is the candidate row's. *)
Definition notification_exists (existing : list NotificationRow)
    (m t g : Z) : bool :=
  existsb (λ n, bool_decide (n_monitor_type n = m)
                && bool_decide (n_mac_address n = n_mac_address n)
                && bool_decide (n_uuid n = n_uuid n)
                && bool_decide (t - n_violation_timestamp n < g * usec_per_sec))
          existing.

(** The rows of [object_summary_table] the insert selects, with the value
    of their violation column. *)
Definition selected_violations (m : Z) (c : ViolationColumn)
    (interval g now : Z) (d : Database) : list (SummaryRow * Z) :=
  omap (λ s, match violation_timestamp_of c s with
             | Some t =>
                 if bool_decide (now - interval * usec_per_sec ≤ t)
                    && negb (notification_exists (notification_table d) m t g)
                 then Some (s, t) else None
             | None => None
             end)
       (object_summary_table d).

Fixpoint new_notifications (seq m : Z) (rows : list (SummaryRow * Z))
    : list NotificationRow :=
  match rows with
  | [] => []
  | (s, t) :: rest =>
      {| n_id := seq; n_monitor_type := m; n_mac_address := s_mac_address s;
         n_uuid := s_uuid s; n_violation_timestamp := t; n_processed := 0 |}
      :: new_notifications (seq + 1) m rest
  end.

Definition insert_notification (m : Z) (c : ViolationColumn)
    (interval g now : Z) (d : Database) : Database :=
  let rows := selected_violations m c interval g now d in
  with_notification_table
    (notification_table d ++ new_notifications (notification_id_seq d) m rows)
    (notification_id_seq d + Z.of_nat (length rows)) d.

(** [SELECT id, monitor_type, mac_address, uuid, violation_timestamp
     FROM notification_table WHERE processed != 1 ORDER BY id ASC]. *)
Definition id_le (a b : NotificationRow) : Prop := n_id a ≤ n_id b.

Global Instance id_le_dec : RelDecision id_le.
Proof. intros a b. unfold id_le. apply _. Defined.

Definition unprocessed (d : Database) : list NotificationRow :=
  merge_sort id_le (filter (λ n, n_processed n ≠ 1) (notification_table d)).

Definition notification_text (n : NotificationRow) : list string :=
  [pretty (n_id n); pretty (n_monitor_type n); n_mac_address n; n_uuid n;
   timestamp_out (n_violation_timestamp n)].

Definition update_processed (id : Z) (d : Database) : Database :=
  with_notification_table
    ((λ n, if decide (n_id n = id) then set_processed 1 n else n)
       <$> notification_table d)
    (notification_id_seq d) d.

Definition reset_state (d : Database) : Database :=
  with_object_summary_table
    ((λ s, if decide (s_id s > 0) then set_is_location_updated 0 s else s)
       <$> object_summary_table d) d.

Definition command_ok : PGresult :=
  {| PQresultStatus := PGRES_COMMAND_OK; PQnfields := 0; tuples := [] |}.

Definition fatal_error : PGresult :=
  {| PQresultStatus := PGRES_FATAL_ERROR; PQnfields := 0; tuples := [] |}.

Definition server_exec (q : Statement) (now : Z)
    (fs : gmap string (list string)) (d : Database) : Database * PGresult :=
  match q with
  | BEGIN_TRANSACTION | END_TRANSACTION | ROLLBACK => (d, command_ok)
  | INSERT_LBEACON_ON_CONFLICT uuid ip health gateway registered x y =>
      (with_lbeacon_table
         (upsert_lbeacon uuid ip health gateway registered x y now
            (lbeacon_table d)) d, command_ok)
  | IDENTIFY_PANIC mac p => (identify_panic mac p now d, command_ok)
  | COPY_TRACKING filename =>
      match fs !! filename with
      | Some lines =>
          (with_tracking_table (tracking_table d ++ lines) d, command_ok)
      | None => (d, fatal_error)
      end
  | RESET_STATE => (reset_state d, command_ok)
  | UPDATE_STABLE_TAG _ _ _ | UPDATE_MOVING_TAG _ _
  | UPDATE_TAG_BASE_LOCATION _ _ _ => (summarizer_update q now d, command_ok)
  | INSERT_NOTIFICATION m c interval g =>
      (insert_notification m c interval g now d, command_ok)
  | SELECT_UNPROCESSED =>
      (d, {| PQresultStatus := PGRES_TUPLES_OK; PQnfields := 5;
             tuples := notification_text <$> unprocessed d |})
  | UPDATE_PROCESSED id => (update_processed id d, command_ok)
  end.

(** [PQexec]: the statement is recorded; a fault rejects it and leaves the
    tables alone. *)
Definition PQexec (db_conn : PGconn) (q : Statement) (w : World)
    : PGresult * World :=
  let w' := record_statement db_conn q w in
  match faults w with
  | true :: _ => (fatal_error, w')
  | _ =>
      let '(d, res) := server_exec q (clock w) (files w) (database w) in
      (res, set_database d w')
  end.

(** ** SqlWrapper.c *)

Definition SQL_execute (db_conn : PGconn) (sql_statement : Statement)
    (w : World) : ErrorCode * World :=
  let '(res, w) := PQexec db_conn sql_statement w in
  if decide (PQresultStatus res ≠ PGRES_COMMAND_OK) then (E_SQL_EXECUTE, w)
  else (WORK_SUCCESSFULLY, w).

Definition SQL_begin_transaction (db_conn : PGconn) (w : World)
    : ErrorCode * World :=
  let sql := BEGIN_TRANSACTION in
  let '(ret_val, w) := SQL_execute db_conn sql w in
  (WORK_SUCCESSFULLY, w).

Definition SQL_commit_transaction (db_conn : PGconn) (w : World)
    : ErrorCode * World :=
  let sql := END_TRANSACTION in
  let '(ret_val, w) := SQL_execute db_conn sql w in
  (WORK_SUCCESSFULLY, w).

Definition SQL_rollback_transaction (db_conn : PGconn) (w : World)
    : ErrorCode * World :=
  let sql := ROLLBACK in
  let '(ret_val, w) := SQL_execute db_conn sql w in
  (WORK_SUCCESSFULLY, w).

Definition SQL_get_database_connection (head : list DBConnectionNode)
    : ErrorCode * option (PGconn * Z) * list DBConnectionNode :=
  get_connection_loop SQL_GET_AVAILABLE_CONNECTION_RETRIES head.

(** The two pool operations on the pool of the world. *)
Definition acquire (w : World) : option (PGconn * Z) * World :=
  let '(e, out, p) := SQL_get_database_connection (pool w) in
  (if decide (e = WORK_SUCCESSFULLY) then out else None, set_pool p w).

Definition release (db_serial_id : Z) (w : World) : World :=
  set_pool (SQL_release_database_connection (pool w) db_serial_id).2 w.

(** *** [SQL_update_lbeacon_registration_status] *)

Definition INDEX_OF_COORDINATE_X_IN_UUID : nat := 12.
Definition INDEX_OF_COORDINATE_Y_IN_UUID : nat := 24.
Definition LENGTH_OF_COORDINATE_IN_UUID : nat := 8.

Definition uuid_coordinate_x (uuid : string) : Z :=
  atoi (strncpy_from uuid INDEX_OF_COORDINATE_X_IN_UUID
          LENGTH_OF_COORDINATE_IN_UUID).

Definition uuid_coordinate_y (uuid : string) : Z :=
  atoi (strncpy_from uuid INDEX_OF_COORDINATE_Y_IN_UUID
          LENGTH_OF_COORDINATE_IN_UUID).

(** The [while( numbers-- )] loop.  [None]: a token was missing and [NULL]
    reached [strcpy] or [strlen]. *)
Fixpoint registration_loop (numbers : nat) (gateway_ip_address : string)
    (db_conn : PGconn) (db_serial_id : Z) (saveptr : list string) (w : World)
    : option (ErrorCode * World) :=
  match numbers with
  | O => Some (WORK_SUCCESSFULLY, release db_serial_id w)
  | S numbers' =>
      let '(uuid, saveptr) := strtok_save saveptr in
      match uuid with
      | None => None
      | Some uuid =>
          let int_coordinate_x := uuid_coordinate_x uuid in
          let int_coordinate_y := uuid_coordinate_y uuid in
          let '(registered_timestamp_GMT, saveptr) := strtok_save saveptr in
          let '(lbeacon_ip, saveptr) := strtok_save saveptr in
          match registered_timestamp_GMT, lbeacon_ip with
          | Some registered_timestamp_GMT, Some lbeacon_ip =>
              let '(ret_val, w) :=
                SQL_execute db_conn
                  (INSERT_LBEACON_ON_CONFLICT uuid lbeacon_ip S_NORMAL_STATUS
                     gateway_ip_address registered_timestamp_GMT
                     int_coordinate_x int_coordinate_y) w in
              if decide (WORK_SUCCESSFULLY ≠ ret_val)
              then Some (E_SQL_EXECUTE, release db_serial_id w)
              else registration_loop numbers' gateway_ip_address
                     db_conn db_serial_id saveptr w
          | _, _ => None
          end
      end
  end.

Definition SQL_update_lbeacon_registration_status (buf : string)
    (gateway_ip_address : string) (w : World) : option (ErrorCode * World) :=
  let '(numbers_str, saveptr) := strtok_save (tokenize buf) in
  match numbers_str with
  | None => Some (E_API_PROTOCOL_FORMAT, w)
  | Some numbers_str =>
      let numbers := atoi numbers_str in
      if decide (numbers ≤ 0) then Some (E_SQL_PARSE, w)
      else
        let '(not_used_gateway_ip, saveptr) := strtok_save saveptr in
        match acquire w with
        | (Some (db_conn, db_serial_id), w) =>
            registration_loop (Z.to_nat numbers) gateway_ip_address
              db_conn db_serial_id saveptr w
        | (None, w) => Some (E_SQL_OPEN_DATABASE, w)
        end
  end.

(** *** [SQL_update_object_tracking_data_with_battery_voltage] *)

(** [fprintf] prints a [NULL] string argument as [(null)]. *)
Definition or_null (s : option string) : string := default "(null)" s.

(** How many times the body of [while(n--)] runs for an [int] [n]: a
    negative counter is decremented until it wraps around to zero. *)
Definition while_count (n : Z) : nat := Z.to_nat (n mod 2 ^ 32).

(** What one pass of the inner loop does before [battery_voltage] is read:
    [inl w] when the pass was cut short by [continue]. *)
Definition panic_stamp (object_mac_address panic_button : option string)
    (w : World) : option (World + World) :=
  match panic_button with
  | Some p =>
      if decide (1 = atoi p) then
        match acquire w with
        | (Some (db_conn, db_serial_id), w) =>
            match object_mac_address with
            | None => None
            | Some mac =>
                let '(ret_val, w) :=
                  SQL_execute db_conn (IDENTIFY_PANIC mac MONITOR_PANIC) w in
                Some (inr (release db_serial_id w))
            end
        | (None, w) => Some (inl w)
        end
      else Some (inr w)
  | None => Some (inr w)
  end.

Fixpoint tracking_records (numbers : nat) (filename lbeacon_uuid : string)
    (server_time_offset : Z) (saveptr : list string) (w : World)
    : option (list string * World) :=
  match numbers with
  | O => Some (saveptr, w)
  | S numbers' =>
      let '(object_mac_address, saveptr) := strtok_save saveptr in
      let '(initial_timestamp_GMT, saveptr) := strtok_save saveptr in
      let '(final_timestamp_GMT, saveptr) := strtok_save saveptr in
      let '(rssi, saveptr) := strtok_save saveptr in
      let '(panic_button, saveptr) := strtok_save saveptr in
      match panic_stamp object_mac_address panic_button w with
      | None => None
      | Some (inl w) =>
          tracking_records numbers' filename lbeacon_uuid server_time_offset
            saveptr w
      | Some (inr w) =>
          let '(battery_voltage, saveptr) := strtok_save saveptr in
          match initial_timestamp_GMT, final_timestamp_GMT with
          | Some initial_timestamp_GMT, Some final_timestamp_GMT =>
              let buf_initial_time :=
                strftime_gmtime (atoi initial_timestamp_GMT) in
              let buf_final_time :=
                strftime_gmtime (atoi final_timestamp_GMT) in
              let line :=
                or_null object_mac_address +:+ "," +:+ lbeacon_uuid +:+ ","
                +:+ or_null rssi +:+ "," +:+ or_null panic_button +:+ ","
                +:+ or_null battery_voltage +:+ "," +:+ buf_initial_time
                +:+ "," +:+ buf_final_time +:+ ","
                +:+ pretty server_time_offset in
              tracking_records numbers' filename lbeacon_uuid
                server_time_offset saveptr (fprintf_line filename line w)
          | _, _ => None
          end
      end
  end.

(** The [while(num_types --)] loop; [inl e] is the early [return e]. *)
Fixpoint tracking_types (num_types : nat) (filename lbeacon_uuid : string)
    (server_time_offset : Z) (saveptr : list string) (w : World)
    : option ((ErrorCode + list string) * World) :=
  match num_types with
  | O => Some (inr saveptr, w)
  | S num_types' =>
      let '(object_type, saveptr) := strtok_save saveptr in
      let '(object_number, saveptr) := strtok_save saveptr in
      match object_number with
      | None => Some (inl E_API_PROTOCOL_FORMAT, fclose filename w)
      | Some object_number =>
          let numbers := atoi object_number in
          match tracking_records (while_count numbers) filename lbeacon_uuid
                  server_time_offset saveptr w with
          | None => None
          | Some (saveptr, w) =>
              tracking_types num_types' filename lbeacon_uuid
                server_time_offset saveptr w
          end
      end
  end.

(** [sprintf(filename, "%s/temp/track_%d", .., pthread_self())]: [thread] is
    the value of [pthread_self()], which [%d] prints as an [int]. *)
Definition track_filename (server_installation_path : string) (thread : Z)
    : string :=
  server_installation_path +:+ "/temp/track_" +:+ pretty (to_int thread).

Definition SQL_update_object_tracking_data_with_battery_voltage
    (buf : string) (server_installation_path : string)
    (is_enabled_panic_monitoring : Z) (thread : Z) (w : World)
    : option (ErrorCode * World) :=
  let num_types := 2%nat in
  let current_time := get_system_time w in
  let filename := track_filename server_installation_path thread in
  match fopen_wt filename w with
  | None => Some (E_OPEN_FILE, w)
  | Some w =>
      let '(lbeacon_uuid, saveptr) := strtok_save (tokenize buf) in
      let '(lbeacon_timestamp, saveptr) := strtok_save saveptr in
      match lbeacon_uuid, lbeacon_timestamp with
      | Some lbeacon_uuid, Some lbeacon_timestamp =>
          let lbeacon_timestamp_value := atoi lbeacon_timestamp in
          let '(lbeacon_ip, saveptr) := strtok_save saveptr in
          match tracking_types num_types filename lbeacon_uuid
                  (current_time - lbeacon_timestamp_value) saveptr w with
          | None => None
          | Some (inl e, w) => Some (e, w)
          | Some (inr _, w) =>
              let w := fclose filename w in
              match acquire w with
              | (Some (db_conn, db_serial_id), w) =>
                  let '(ret_val, w) :=
                    SQL_execute db_conn (COPY_TRACKING filename) w in
                  let w := release db_serial_id w in
                  let w := remove filename w in
                  if decide (WORK_SUCCESSFULLY ≠ ret_val)
                  then Some (E_SQL_EXECUTE, w)
                  else Some (WORK_SUCCESSFULLY, w)
              | (None, w) => Some (E_SQL_OPEN_DATABASE, w)
              end
          end
      | _, _ => Some (E_API_PROTOCOL_FORMAT, fclose filename w)
      end
  end.

(** *** [SQL_summarize_object_location] *)

Definition SQL_summarize_object_location
    (database_pre_filter_time_window_in_sec time_interval_in_sec
     rssi_difference_of_location_accuracy_tolerance
     base_location_tolerance_in_millimeter : Z) (w : World)
    : ErrorCode * World :=
  match acquire w with
  | (None, w) => (E_SQL_OPEN_DATABASE, w)
  | (Some (db_conn, db_serial_id), w) =>
      let '(ret_val, w) := SQL_execute db_conn RESET_STATE w in
      let '(ret_val, w) :=
        SQL_execute db_conn
          (UPDATE_STABLE_TAG database_pre_filter_time_window_in_sec
             time_interval_in_sec
             rssi_difference_of_location_accuracy_tolerance) w in
      if decide (WORK_SUCCESSFULLY ≠ ret_val)
      then (E_SQL_EXECUTE, release db_serial_id w)
      else
        let '(ret_val, w) :=
          SQL_execute db_conn
            (UPDATE_MOVING_TAG database_pre_filter_time_window_in_sec
               time_interval_in_sec) w in
        if decide (WORK_SUCCESSFULLY ≠ ret_val)
        then (E_SQL_EXECUTE, release db_serial_id w)
        else
          let '(ret_val, w) :=
            SQL_execute db_conn
              (UPDATE_TAG_BASE_LOCATION database_pre_filter_time_window_in_sec
                 time_interval_in_sec
                 base_location_tolerance_in_millimeter) w in
          if decide (WORK_SUCCESSFULLY ≠ ret_val)
          then (E_SQL_EXECUTE, release db_serial_id w)
          else (WORK_SUCCESSFULLY, release db_serial_id w)
  end.

(** *** [SQL_collect_violation_events] *)

(** The [switch (monitor_type)]. *)
Definition violation_timestamp_name (monitor_type : Z) : option ViolationColumn :=
  if decide (monitor_type = MONITOR_GEO_FENCE) then Some geofence_violation_timestamp
  else if decide (monitor_type = MONITOR_PANIC) then Some panic_violation_timestamp
  else if decide (monitor_type = MONITOR_MOVEMENT) then Some movement_violation_timestamp
  else if decide (monitor_type = MONITOR_LOCATION) then Some location_violation_timestamp
  else None.

Definition SQL_collect_violation_events (monitor_type time_interval_in_sec
    granularity_for_continuous_violations_in_sec : Z) (w : World)
    : ErrorCode * World :=
  match violation_timestamp_name monitor_type with
  | None => (E_INPUT_PARAMETER, w)
  | Some name =>
      match acquire w with
      | (None, w) => (E_SQL_OPEN_DATABASE, w)
      | (Some (db_conn, db_serial_id), w) =>
          let '(ret_val, w) :=
            SQL_execute db_conn
              (INSERT_NOTIFICATION monitor_type name time_interval_in_sec
                 granularity_for_continuous_violations_in_sec) w in
          if decide (WORK_SUCCESSFULLY ≠ ret_val)
          then (E_SQL_EXECUTE, release db_serial_id w)
          else (WORK_SUCCESSFULLY, release db_serial_id w)
      end
  end.

(** *** [SQL_get_and_update_violation_events] *)

Definition NUMBER_FIELDS_OF_SQL_SELECT_TEMPLATE : Z := 5.
Definition FIELD_INDEX_OF_ID : nat := 0.
Definition FIELD_INDEX_OF_MONITOR_TYPE : nat := 1.
Definition FIELD_INDEX_OF_MAC_ADDRESS : nat := 2.
Definition FIELD_INDEX_OF_UUID : nat := 3.
Definition FIELD_INDEX_OF_VIOLATION_TIMESTAMP : nat := 4.

(** [PQgetvalue] on one tuple: [NULL] outside the tuple. *)
Definition PQgetvalue (tuple : list string) (field : nat) : option string :=
  tuple !! field.

(** [sprintf(one_record, "%s,%s,%s,%s,%s;", ...)]. *)
Definition one_record (tuple : list string) : string :=
  or_null (PQgetvalue tuple FIELD_INDEX_OF_ID) +:+ "," +:+
  or_null (PQgetvalue tuple FIELD_INDEX_OF_MONITOR_TYPE) +:+ "," +:+
  or_null (PQgetvalue tuple FIELD_INDEX_OF_MAC_ADDRESS) +:+ "," +:+
  or_null (PQgetvalue tuple FIELD_INDEX_OF_UUID) +:+ "," +:+
  or_null (PQgetvalue tuple FIELD_INDEX_OF_VIOLATION_TIMESTAMP) +:+ ";".

(** The guard [buf_len > strlen(buf) + strlen(one_record)]. *)
Definition fits (buf_len : nat) (buf record : string) : Prop :=
  (String.length buf + String.length record < buf_len)%nat.

Global Instance fits_dec buf_len buf record : Decision (fits buf_len buf record).
Proof. unfold fits. apply _. Defined.

(** The [for] loop over the tuples of the result, up to the release of the
    connection and the [return]. *)
Fixpoint drain_tuples (db_conn : PGconn) (db_serial_id : Z) (buf_len : nat)
    (rows : list (list string)) (buf : string) (w : World)
    : ErrorCode * string * World :=
  match rows with
  | [] => (WORK_SUCCESSFULLY, buf, release db_serial_id w)
  | tuple :: rows' =>
      if decide (fits buf_len buf (one_record tuple)) then
        let buf := buf +:+ one_record tuple in
        match PQgetvalue tuple FIELD_INDEX_OF_ID with
        | None => (E_API_PROTOCOL_FORMAT, buf, release db_serial_id w)
        | Some id =>
            let '(ret_val, w) :=
              SQL_execute db_conn (UPDATE_PROCESSED (atoi id)) w in
            drain_tuples db_conn db_serial_id buf_len rows' buf w
        end
      else drain_tuples db_conn db_serial_id buf_len rows' buf w
  end.

Definition SQL_get_and_update_violation_events (buf : string) (buf_len : nat)
    (w : World) : ErrorCode * string * World :=
  match acquire w with
  | (None, w) => (E_SQL_OPEN_DATABASE, buf, w)
  | (Some (db_conn, db_serial_id), w) =>
      let '(res, w) := PQexec db_conn SELECT_UNPROCESSED w in
      if decide (PQresultStatus res ≠ PGRES_TUPLES_OK)
      then (E_SQL_EXECUTE, buf, release db_serial_id w)
      else
        if decide (PQntuples res > 0 ∧
                   PQnfields res = NUMBER_FIELDS_OF_SQL_SELECT_TEMPLATE)
        then drain_tuples db_conn db_serial_id buf_len (tuples res) buf w
        else (WORK_SUCCESSFULLY, buf, release db_serial_id w)
  end.

(** ** Geo-Fencing.c: the packet receiver *)

(** The packet type tag of the UDP API and its address decoder, both
    declared outside the sources. *)
Variable UDP : Z.
Variable udp_hex_to_address : string → string.

Record sPkt := {
  pkt_type : Z;
  pkt_address : string;
  pkt_payload : string
}.

Record spkt_content := {
  ip_address : string;
  content : string;
  content_size : Z
}.

(** Modelled from the spec: the memory pool ([mp_alloc], [mp_free]) is
    defined outside the sources.  A pool has a fixed number of slots;
    [alloc] returns a free slot or fails, [free] returns the slot. *)
Record Memory_Pool := {
  mp_slots : nat;
  mp_allocated : gset nat
}.

Definition mp_alloc (mp : Memory_Pool) : option nat * Memory_Pool :=
  match List.find (λ i, bool_decide (i ∉ mp_allocated mp)) (seq 0 (mp_slots mp)) with
  | Some i =>
      (Some i, {| mp_slots := mp_slots mp;
                  mp_allocated := {[ i ]} ∪ mp_allocated mp |})
  | None => (None, mp)
  end.

Definition mp_free (mp : Memory_Pool) (slot : nat) : Memory_Pool :=
  {| mp_slots := mp_slots mp; mp_allocated := mp_allocated mp ∖ {[ slot ]} |}.

(** Modelled from the spec: the worker pool ([thpool_add_work]) is defined
    outside the sources.  A submission either queues the job and returns 0
    or fails and returns -1; [add_work_faults] says which of the next
    submissions fail. *)
Record threadpool := {
  num_threads_working : Z;
  num_threads_alive : Z;
  jobqueue : list (nat * spkt_content);
  add_work_faults : list bool
}.

Definition thpool_add_work (tp : threadpool) (slot : nat) (arg : spkt_content)
    : Z * threadpool :=
  match add_work_faults tp with
  | true :: rest =>
      (-1, {| num_threads_working := num_threads_working tp;
              num_threads_alive := num_threads_alive tp;
              jobqueue := jobqueue tp; add_work_faults := rest |})
  | _ =>
      (0, {| num_threads_working := num_threads_working tp;
             num_threads_alive := num_threads_alive tp;
             jobqueue := jobqueue tp ++ [(slot, arg)];
             add_work_faults := tail (add_work_faults tp) |})
  end.

Record geo_fence_config := {
  is_running : bool;
  pkt_content_mempool : Memory_Pool;
  worker_thread : threadpool
}.

(** What one pass of the [while] loop of [process_api_recv] leads to. *)
Inductive Pass :=
| Continues (g : geo_fence_config) (return_value : option Z)
| Waits (g : geo_fence_config)      (* all workers busy: Sleep and look again *)
| Undefined.                        (* mp_alloc gave NULL, which is written to *)

(** The body of the loop for the packet [udp_getrecv] returned. *)
Definition process_api_recv_body (temppkt : sPkt) (g : geo_fence_config) : Pass :=
  if decide (pkt_type temppkt = UDP) then
    let tmp_addr := udp_hex_to_address (pkt_address temppkt) in
    match mp_alloc (pkt_content_mempool g) with
    | (None, _) => Undefined
    | (Some slot, mp) =>
        let pkt_content :=
          {| ip_address := tmp_addr; content := pkt_payload temppkt;
             content_size := Z.of_nat (String.length (pkt_payload temppkt)) |} in
        let g := {| is_running := is_running g; pkt_content_mempool := mp;
                    worker_thread := worker_thread g |} in
        if decide (num_threads_working (worker_thread g) =
                   num_threads_alive (worker_thread g))
        then Waits g
        else
          let '(return_value, tp) :=
            thpool_add_work (worker_thread g) slot pkt_content in
          Continues {| is_running := is_running g; pkt_content_mempool := mp;
                       worker_thread := tp |} (Some return_value)
    end
  else Continues g None.

(** [process_api_recv]: the loop, over the packets that arrive. *)
Fixpoint process_api_recv (incoming : list sPkt) (g : geo_fence_config) : Pass :=
  match incoming with
  | [] => Continues g None
  | temppkt :: incoming' =>
      if is_running g then
        match process_api_recv_body temppkt g with
        | Continues g _ => process_api_recv incoming' g
        | other => other
        end
      else Continues g None
  end.

(** ** SqlWrapper.c: maintenance, device status and dumps

    The functions below send statements whose effect on the tables plays no
    part in what the function does next: only the status of the result, and
    for the dumps its tuples, are looked at.  For them the server is taken
    as an oracle: [reply k] is the result of the [k]-th statement sent
    since the session began. *)

(** One constructor for each [sprintf] template of these functions, a
    variable that fills several placeholders being carried once. *)
Inductive Command :=
| VACUUM (table_name : string)
| DELETE_OLD_ROWS (table_name : string) (retention_hours : Z)
| DROP_CHUNKS (retention_hours : Z) (table_name : string)
| INSERT_GATEWAY_ON_CONFLICT (ip_address : string) (health_status : Z)
| UPDATE_GATEWAY_HEALTH (health_status ip_address : string)
| UPDATE_LBEACON_HEALTH (health_status gateway_ip_address uuid : string)
| IDENTIFY_GEOFENCE (mac_address : string)
| IDENTIFY_NOT_STAY_ROOM (monitor_location : Z)
| IDENTIFY_LONG_STAY_IN_DANGER (monitor_location : Z)
| UPDATE_IS_ACTIVE (table_name : string) (hours : Z)
| SELECT_ACTIVE_GEO_FENCE
| SELECT_MAC_UNDER_GEO_FENCE (monitor_geo_fence : Z)
| SELECT_MOVEMENT_MONITORED (monitor_movement : Z)
| SELECT_ACTIVITY (each_time_slot_in_min time_interval_in_min : Z)
    (lbeacon_uuid mac_address : string) (rssi_delta : Z)
| UPDATE_MOVEMENT_VIOLATION (mac_address : string).

Record Session := {
  world : World;                      (* the pool and the files *)
  reply : nat → PGresult;
  issued : list (PGconn * Command)    (* statements given to PQexec, in order *)
}.

Definition with_world (w : World) (s : Session) : Session :=
  {| world := w; reply := reply s; issued := issued s |}.

Definition PQexec_command (db_conn : PGconn) (q : Command) (s : Session)
    : PGresult * Session :=
  (reply s (length (issued s)),
   {| world := world s; reply := reply s; issued := issued s ++ [(db_conn, q)] |}).

(** [SQL_execute], on a session. *)
Definition SQL_execute_command (db_conn : PGconn) (sql_statement : Command)
    (s : Session) : ErrorCode * Session :=
  let '(res, s) := PQexec_command db_conn sql_statement s in
  if decide (PQresultStatus res ≠ PGRES_COMMAND_OK) then (E_SQL_EXECUTE, s)
  else (WORK_SUCCESSFULLY, s).

Definition acquire_connection (s : Session) : option (PGconn * Z) * Session :=
  let '(out, w) := acquire (world s) in (out, with_world w s).

Definition release_connection (db_serial_id : Z) (s : Session) : Session :=
  with_world (release db_serial_id (world s)) s.

(** *** [SQL_vacuum_database] *)

(** The [for] loop over [table_name]; a table for which no connection is
    available is passed over by [continue]. *)
Fixpoint vacuum_loop (table_name : list string) (s : Session)
    : ErrorCode * Session :=
  match table_name with
  | [] => (WORK_SUCCESSFULLY, s)
  | table :: table_name' =>
      match acquire_connection s with
      | (None, s) => vacuum_loop table_name' s
      | (Some (db_conn, db_serial_id), s) =>
          let '(ret_val, s) := SQL_execute_command db_conn (VACUUM table) s in
          if decide (WORK_SUCCESSFULLY ≠ ret_val)
          then (E_SQL_EXECUTE, release_connection db_serial_id s)
          else vacuum_loop table_name' (release_connection db_serial_id s)
      end
  end.

Definition SQL_vacuum_database (s : Session) : ErrorCode * Session :=
  vacuum_loop ["tracking_table"; "lbeacon_table"; "gateway_table";
               "object_table"; "notification_table"] s.

(** *** [SQL_delete_old_data] *)

Fixpoint delete_loop (table_name : list string) (retention_hours : Z)
    (s : Session) : (ErrorCode + unit) * Session :=
  match table_name with
  | [] => (inr (), s)
  | table :: table_name' =>
      match acquire_connection s with
      | (None, s) => delete_loop table_name' retention_hours s
      | (Some (db_conn, db_serial_id), s) =>
          let '(ret_val, s) :=
            SQL_execute_command db_conn (DELETE_OLD_ROWS table retention_hours) s in
          if decide (WORK_SUCCESSFULLY ≠ ret_val)
          then (inl E_SQL_EXECUTE, release_connection db_serial_id s)
          else delete_loop table_name' retention_hours
                 (release_connection db_serial_id s)
      end
  end.

(** The second loop calls [PQexec] itself and expects [PGRES_TUPLES_OK]. *)
Fixpoint drop_chunks_loop (tsdb_table_name : list string) (retention_hours : Z)
    (s : Session) : ErrorCode * Session :=
  match tsdb_table_name with
  | [] => (WORK_SUCCESSFULLY, s)
  | table :: tsdb_table_name' =>
      match acquire_connection s with
      | (None, s) => drop_chunks_loop tsdb_table_name' retention_hours s
      | (Some (db_conn, db_serial_id), s) =>
          let '(res, s) :=
            PQexec_command db_conn (DROP_CHUNKS retention_hours table) s in
          if decide (PQresultStatus res ≠ PGRES_TUPLES_OK)
          then (E_SQL_EXECUTE, release_connection db_serial_id s)
          else drop_chunks_loop tsdb_table_name' retention_hours
                 (release_connection db_serial_id s)
      end
  end.

Definition SQL_delete_old_data (retention_hours : Z) (s : Session)
    : ErrorCode * Session :=
  match delete_loop ["notification_table"] retention_hours s with
  | (inl e, s) => (e, s)
  | (inr _, s) => drop_chunks_loop ["tracking_table"] retention_hours s
  end.

(** *** [SQL_update_gateway_registration_status] *)

(** The [while( numbers-- )] loop.  [None]: the address token was missing
    and [NULL] reached [strlen]. *)
Fixpoint gateway_registration_loop (numbers : nat) (db_conn : PGconn)
    (db_serial_id : Z) (saveptr : list string) (s : Session)
    : option (ErrorCode * Session) :=
  match numbers with
  | O => Some (WORK_SUCCESSFULLY, release_connection db_serial_id s)
  | S numbers' =>
      let '(ip_address, saveptr) := strtok_save saveptr in
      match ip_address with
      | None => None
      | Some ip_address =>
          let '(ret_val, s) :=
            SQL_execute_command db_conn
              (INSERT_GATEWAY_ON_CONFLICT ip_address S_NORMAL_STATUS) s in
          if decide (WORK_SUCCESSFULLY ≠ ret_val)
          then Some (E_SQL_EXECUTE, release_connection db_serial_id s)
          else gateway_registration_loop numbers' db_conn db_serial_id saveptr s
      end
  end.

Definition SQL_update_gateway_registration_status (buf : string) (s : Session)
    : option (ErrorCode * Session) :=
  let '(numbers_str, saveptr) := strtok_save (tokenize buf) in
  match numbers_str with
  | None => Some (E_API_PROTOCOL_FORMAT, s)
  | Some numbers_str =>
      let numbers := atoi numbers_str in
      if decide (numbers ≤ 0) then Some (E_SQL_PARSE, s)
      else
        match acquire_connection s with
        | (Some (db_conn, db_serial_id), s) =>
            gateway_registration_loop (Z.to_nat numbers) db_conn
              db_serial_id saveptr s
        | (None, s) => Some (E_SQL_OPEN_DATABASE, s)
        end
  end.

(** *** [SQL_update_gateway_health_status] and
        [SQL_update_lbeacon_health_status] *)

(** [None]: the health token was missing and [NULL] reached [strlen], the
    connection having been taken already. *)
Definition SQL_update_gateway_health_status (buf : string)
    (gateway_ip_address : string) (s : Session) : option (ErrorCode * Session) :=
  let '(not_used_ip_address, saveptr) := strtok_save (tokenize buf) in
  let '(health_status, saveptr) := strtok_save saveptr in
  match acquire_connection s with
  | (None, s) => Some (E_SQL_OPEN_DATABASE, s)
  | (Some (db_conn, db_serial_id), s) =>
      match health_status with
      | None => None
      | Some health_status =>
          let '(ret_val, s) :=
            SQL_execute_command db_conn
              (UPDATE_GATEWAY_HEALTH health_status gateway_ip_address) s in
          let s := release_connection db_serial_id s in
          if decide (WORK_SUCCESSFULLY ≠ ret_val) then Some (E_SQL_EXECUTE, s)
          else Some (WORK_SUCCESSFULLY, s)
      end
  end.

Definition SQL_update_lbeacon_health_status (buf : string)
    (gateway_ip_address : string) (s : Session) : option (ErrorCode * Session) :=
  let '(lbeacon_uuid, saveptr) := strtok_save (tokenize buf) in
  let '(lbeacon_timestamp, saveptr) := strtok_save saveptr in
  let '(lbeacon_ip, saveptr) := strtok_save saveptr in
  let '(health_status, saveptr) := strtok_save saveptr in
  match acquire_connection s with
  | (None, s) => Some (E_SQL_OPEN_DATABASE, s)
  | (Some (db_conn, db_serial_id), s) =>
      match lbeacon_uuid, health_status with
      | Some lbeacon_uuid, Some health_status =>
          let '(ret_val, s) :=
            SQL_execute_command db_conn
              (UPDATE_LBEACON_HEALTH health_status gateway_ip_address
                 lbeacon_uuid) s in
          let s := release_connection db_serial_id s in
          if decide (WORK_SUCCESSFULLY ≠ ret_val) then Some (E_SQL_EXECUTE, s)
          else Some (WORK_SUCCESSFULLY, s)
      | _, _ => None
      end
  end.

(** *** [SQL_identify_geofence_violation],
        [SQL_identify_location_not_stay_room],
        [SQL_identify_location_long_stay_in_danger] *)

(** The three functions take a connection, send one statement and give the
    connection back. *)
Definition identify_with (q : Command) (s : Session) : ErrorCode * Session :=
  match acquire_connection s with
  | (None, s) => (E_SQL_OPEN_DATABASE, s)
  | (Some (db_conn, db_serial_id), s) =>
      let '(ret_val, s) := SQL_execute_command db_conn q s in
      if decide (WORK_SUCCESSFULLY ≠ ret_val)
      then (E_SQL_EXECUTE, release_connection db_serial_id s)
      else (WORK_SUCCESSFULLY, release_connection db_serial_id s)
  end.

Definition SQL_identify_geofence_violation (mac_address : string) (s : Session)
    : ErrorCode * Session :=
  identify_with (IDENTIFY_GEOFENCE mac_address) s.

Definition SQL_identify_location_not_stay_room (s : Session)
    : ErrorCode * Session :=
  identify_with (IDENTIFY_NOT_STAY_ROOM MONITOR_LOCATION) s.

Definition SQL_identify_location_long_stay_in_danger (s : Session)
    : ErrorCode * Session :=
  identify_with (IDENTIFY_LONG_STAY_IN_DANGER MONITOR_LOCATION) s.

(** *** [SQL_identify_last_movement_status] *)

(** The [for] loop over the monitored objects, up to the release of the
    connection and the [return].  [rssi_delta] fills the last two
    placeholders of the activity SELECT, as itself and as [0 - rssi_delta].
    [None]: a field was missing from a tuple and [NULL] reached
    [strlen]. *)
Fixpoint movement_rows (rows : list (list string))
    (time_interval_in_min each_time_slot_in_min rssi_delta : Z)
    (db_conn : PGconn) (db_serial_id : Z) (s : Session)
    : option (ErrorCode * Session) :=
  match rows with
  | [] => Some (WORK_SUCCESSFULLY, release_connection db_serial_id s)
  | tuple :: rows' =>
      let mac_address := PQgetvalue tuple 0 in
      let lbeacon_uuid := PQgetvalue tuple 1 in
      match lbeacon_uuid with
      | None => None
      | Some lbeacon_uuid =>
          if decide (String.length lbeacon_uuid = 0%nat)
          then movement_rows rows' time_interval_in_min each_time_slot_in_min
                 rssi_delta db_conn db_serial_id s
          else
            match mac_address with
            | None => None
            | Some mac_address =>
                let '(res_activity, s) :=
                  PQexec_command db_conn
                    (SELECT_ACTIVITY each_time_slot_in_min time_interval_in_min
                       lbeacon_uuid mac_address rssi_delta) s in
                if decide (PQresultStatus res_activity ≠ PGRES_TUPLES_OK)
                then Some (E_SQL_EXECUTE, release_connection db_serial_id s)
                else
                  if decide (PQntuples res_activity = 0) then
                    let '(ret_val, s) :=
                      SQL_execute_command db_conn
                        (UPDATE_MOVEMENT_VIOLATION mac_address) s in
                    if decide (WORK_SUCCESSFULLY ≠ ret_val)
                    then Some (E_SQL_EXECUTE,
                               release_connection db_serial_id s)
                    else movement_rows rows' time_interval_in_min
                           each_time_slot_in_min rssi_delta db_conn
                           db_serial_id s
                  else movement_rows rows' time_interval_in_min
                         each_time_slot_in_min rssi_delta db_conn
                         db_serial_id s
            end
      end
  end.

Definition SQL_identify_last_movement_status
    (time_interval_in_min each_time_slot_in_min rssi_delta : Z) (s : Session)
    : option (ErrorCode * Session) :=
  match acquire_connection s with
  | (None, s) => Some (E_SQL_OPEN_DATABASE, s)
  | (Some (db_conn, db_serial_id), s) =>
      let '(res, s) :=
        PQexec_command db_conn (SELECT_MOVEMENT_MONITORED MONITOR_MOVEMENT) s in
      if decide (PQresultStatus res ≠ PGRES_TUPLES_OK)
      then Some (E_SQL_EXECUTE, release_connection db_serial_id s)
      else
        if decide (PQntuples res > 0 ∧ PQnfields res = 2)
        then movement_rows (tuples res) time_interval_in_min
               each_time_slot_in_min rssi_delta db_conn db_serial_id s
        else Some (WORK_SUCCESSFULLY, release_connection db_serial_id s)
  end.

(** *** [SQL_reload_monitor_config] *)

(** The [for] loop over [table_name]; here a missing connection ends the
    call. *)
Fixpoint reload_loop (table_name : list string)
    (server_localtime_against_UTC_in_hour : Z) (s : Session)
    : ErrorCode * Session :=
  match table_name with
  | [] => (WORK_SUCCESSFULLY, s)
  | table :: table_name' =>
      match acquire_connection s with
      | (None, s) => (E_SQL_OPEN_DATABASE, s)
      | (Some (db_conn, db_serial_id), s) =>
          let '(ret_val, s) :=
            SQL_execute_command db_conn
              (UPDATE_IS_ACTIVE table server_localtime_against_UTC_in_hour) s in
          if decide (WORK_SUCCESSFULLY ≠ ret_val)
          then (E_SQL_EXECUTE, release_connection db_serial_id s)
          else reload_loop table_name' server_localtime_against_UTC_in_hour
                 (release_connection db_serial_id s)
      end
  end.

Definition SQL_reload_monitor_config (server_localtime_against_UTC_in_hour : Z)
    (s : Session) : ErrorCode * Session :=
  reload_loop ["geo_fence_config"; "location_not_stay_room_config";
               "location_long_stay_in_danger_config"; "movement_config"]
    server_localtime_against_UTC_in_hour s.

(** The CASE expression of the UPDATE, for one row: [now] is the value of
    [CURRENT_TIME + interval 'h hours'], the times being counted in
    microseconds from midnight. *)
Definition time_of_day (h m sec : Z) : Z := ((h * 60 + m) * 60 + sec) * usec_per_sec.

Definition is_active_case (enable start_time end_time now : Z) : Z :=
  if decide ((enable = 1 ∧ start_time < end_time ∧
              now >= start_time ∧ now < end_time) ∨
             (enable = 1 ∧ start_time > end_time ∧
              ((now >= start_time ∧ now <= time_of_day 23 59 59) ∨
               (now >= time_of_day 0 0 0 ∧ now < end_time))))
  then 1 else 0.

(** *** [SQL_dump_active_geo_fence_settings] and
        [SQL_dump_mac_address_under_geo_fence_monitor] *)

(** [fprintf(file, "%s;...;\n", PQgetvalue(res, i, 0), ...)] for the first
    [fields] fields of a tuple. *)
Definition dump_line (fields : nat) (tuple : list string) : string :=
  foldr (λ k line, or_null (PQgetvalue tuple k) +:+ ";" +:+ line) EmptyString
    (seq 0 fields).

Definition dump_with (q : Command) (fields : nat) (filename : string)
    (s : Session) : ErrorCode * Session :=
  match fopen_wt filename (world s) with
  | None => (E_OPEN_FILE, s)
  | Some w =>
      let s := with_world w s in
      match acquire_connection s with
      | (None, s) =>
          (E_SQL_OPEN_DATABASE, with_world (fclose filename (world s)) s)
      | (Some (db_conn, db_serial_id), s) =>
          let '(res, s) := PQexec_command db_conn q s in
          if decide (PQresultStatus res ≠ PGRES_TUPLES_OK)
          then
            let s := release_connection db_serial_id s in
            (E_SQL_EXECUTE, with_world (fclose filename (world s)) s)
          else
            let s :=
              if decide (PQntuples res > 0 ∧ PQnfields res = Z.of_nat fields)
              then with_world
                     (foldl (λ w tuple, fprintf_line filename
                                          (dump_line fields tuple) w)
                        (world s) (tuples res)) s
              else s in
            let s := release_connection db_serial_id s in
            (WORK_SUCCESSFULLY, with_world (fclose filename (world s)) s)
      end
  end.

Definition SQL_dump_active_geo_fence_settings (filename : string) (s : Session)
    : ErrorCode * Session :=
  dump_with SELECT_ACTIVE_GEO_FENCE 5 filename s.

Definition SQL_dump_mac_address_under_geo_fence_monitor (filename : string)
    (s : Session) : ErrorCode * Session :=
  dump_with (SELECT_MAC_UNDER_GEO_FENCE MONITOR_GEO_FENCE) 2 filename s.

(** *** [SQL_create_database_connection_pool] *)

(** [MEMORY_ALLOCATE_RETRIES] is a constant of a header that is not among
    the sources.  [retry_times] is set to it once, before the [for] loop,
    and [while(retry_times --)] counts it down in every round of the [for]
    loop, also when [malloc] succeeds at once.  [db_connection] is not
    initialised; after a round it points to the node just linked. *)
Variable MEMORY_ALLOCATE_RETRIES : Z.

Inductive node_pointer :=
| uninitialised   (* never assigned *)
| null            (* the last [malloc] returned NULL *)
| fresh           (* a node [malloc] returned in this round, not in the list *)
| linked.         (* the node of the round before, the last of the list *)

(** [while(retry_times --){ db_connection = malloc(..); if(NULL !=
    db_connection) break; }]: [mallocs] tells which of the next calls of
    [malloc] return NULL (none, once the list is used up).  The counter is
    an [int]. *)
Fixpoint malloc_loop (mallocs : list bool) (retry_times : Z)
    (db_connection : node_pointer) : Z * list bool * node_pointer :=
  match mallocs with
  | true :: mallocs' =>
      if decide (retry_times = 0)
      then (to_int (retry_times - 1), mallocs, db_connection)
      else malloc_loop mallocs' (to_int (retry_times - 1)) null
  | _ =>
      if decide (retry_times = 0)
      then (to_int (retry_times - 1), mallocs, db_connection)
      else (to_int (retry_times - 1), tail mallocs, fresh)
  end.

(** [PQconnectdb] followed by [PQstatus]: [connect] is the outcome of the
    successive calls (the handle, and whether the status is
    [CONNECTION_OK]); once the list is used up the connections fail, with
    the null handle. *)
Definition PQconnectdb (connect : list (PGconn * bool))
    : PGconn * bool * list (PGconn * bool) :=
  match connect with
  | (h, ok) :: connect' => (h, ok, connect')
  | [] => (0%nat, false, [])
  end.

(** Modelled from the spec: [init_entry] and [insert_list_tail] belong to
    the list header, which is not among the sources.  The pool is the
    circular doubly linked list of the design document: [init_entry] links
    an entry to itself, and [insert_list_tail(new, head)] links [new]
    between the entry before the head and the head ([next->prev = new;
    new->next = next; new->prev = prev; prev->next = new] for [prev =
    head->prev] and [next = head]).

    The list is kept as the nodes a forward walk from the head meets, which
    is how [list_for_each] reads it, and [self_linked] tells that the last
    of them is linked to itself instead of to the head, so that a walk does
    not come back to the head.
    - A node that [malloc] returned is linked after the last node, whatever
      that one was linked to: the walk ends at the head again.
    - In a round in which [malloc] was not called, [db_connection] still is
      the node linked in the round before, the last of the list: [memset]
      and the assignments change that node where it is, [init_entry] links
      it to itself, and [insert_list_tail], which finds it before the head
      already, leaves it linked to itself.
    [None]: [memset] is applied to a pointer that was never assigned. *)
Fixpoint create_loop (connect : list (PGconn * bool)) (mallocs : list bool)
    (retry_times : Z) (db_connection : node_pointer) (i : Z) (n : nat)
    (head : list DBConnectionNode) (self_linked : bool) {struct n}
    : option (ErrorCode * list DBConnectionNode * bool) :=
  match n with
  | O => Some (WORK_SUCCESSFULLY, head, self_linked)
  | S n' =>
      let '(retry_times, mallocs, db_connection) :=
        malloc_loop mallocs retry_times db_connection in
      match db_connection with
      | uninitialised => None
      | null => Some (E_MALLOC, head, self_linked)
      | fresh =>
          let '(h, ok, connect) := PQconnectdb connect in
          if ok then
            create_loop connect mallocs retry_times linked (i + 1) n'
              (head ++ [{| serial_id := i; is_used := 0; db := h |}]) false
          else Some (E_SQL_OPEN_DATABASE, head, self_linked)
      | linked =>
          let '(h, ok, connect) := PQconnectdb connect in
          let head :=
            <[pred (length head) := {| serial_id := i; is_used := 0; db := h |}]>
              head in
          if ok then
            create_loop connect mallocs retry_times linked (i + 1) n' head true
          else Some (E_SQL_OPEN_DATABASE, head, true)
      end
  end.

Definition SQL_create_database_connection_pool
    (connect : list (PGconn * bool)) (mallocs : list bool)
    (head : list DBConnectionNode) (max_connection : Z)
    : option (ErrorCode * list DBConnectionNode * bool) :=
  create_loop connect mallocs MEMORY_ALLOCATE_RETRIES uninitialised 0
    (Z.to_nat max_connection) head false.

(** ** States and notions used by the statements below *)

(** The world in which the server rejects the next statement. *)
Definition reject_next (w : World) : World :=
  {| pool := pool w; database := database w; clock := clock w;
     faults := true :: faults w;
     sent := sent w; files := files w; unwritable := unwritable w |}.

(** The pools met between two pool operations: the pool as it was built,
    and whatever acquisitions and releases make of it. *)
Inductive pool_reachable (created : list DBConnectionNode)
    : list DBConnectionNode → Prop :=
| reach_create : pool_reachable created created
| reach_get head :
    pool_reachable created head →
    pool_reachable created (SQL_get_database_connection head).2
| reach_release head sid :
    pool_reachable created head →
    pool_reachable created (SQL_release_database_connection head sid).2.

(** The beacon records [(uuid, registered_timestamp, ip)] the registration
    loop reads from the tokens when none is missing, and those of a whole
    payload [numbers;gateway_ip;uuid;timestamp;ip;...]. *)
Fixpoint registration_records (numbers : nat) (saveptr : list string)
    : list (string * string * string) :=
  match numbers, saveptr with
  | S numbers', uuid :: registered :: ip :: rest =>
      (uuid, registered, ip) :: registration_records numbers' rest
  | _, _ => []
  end.

Definition payload_beacons (buf : string) : list (string * string * string) :=
  match tokenize buf with
  | numbers_str :: _ :: rest =>
      registration_records (Z.to_nat (atoi numbers_str)) rest
  | _ => []
  end.

Definition payload_uuids (buf : string) : list string :=
  (λ r, r.1.1) <$> payload_beacons buf.

(** The statement the loop sends for one record. *)
Definition register_beacon (gateway_ip_address : string) (now : Z)
    (t : gmap string LBeaconRow) (r : string * string * string)
    : gmap string LBeaconRow :=
  upsert_lbeacon r.1.1 r.2 S_NORMAL_STATUS gateway_ip_address r.1.2
    (uuid_coordinate_x r.1.1) (uuid_coordinate_y r.1.1) now t.

Definition set_last_report_timestamp (t : Z) (r : LBeaconRow) : LBeaconRow :=
  {| lb_uuid := lb_uuid r; lb_ip_address := lb_ip_address r;
     lb_health_status := lb_health_status r;
     lb_gateway_ip_address := lb_gateway_ip_address r;
     lb_registered_timestamp := lb_registered_timestamp r;
     lb_last_report_timestamp := t;
     lb_coordinate_x := lb_coordinate_x r; lb_coordinate_y := lb_coordinate_y r;
     lb_room := lb_room r; lb_danger_area := lb_danger_area r |}.

(** What [register_beacon] does to the row stored under one key [k]. *)
Definition register_beacon_at (k gateway_ip_address : string) (now : Z)
    (o : option LBeaconRow) (r : string * string * string)
    : option LBeaconRow :=
  if decide (r.1.1 = k)
  then Some (lbeacon_row_after r.1.1 r.2 S_NORMAL_STATUS gateway_ip_address
               r.1.2 (uuid_coordinate_x r.1.1) (uuid_coordinate_y r.1.1) now o)
  else o.

(** "The decimal integer denoted by" a run of characters: every character
    is a decimal digit and the value is the positional one, most
    significant digit first. *)
Fixpoint positional (s : string) : option Z :=
  match s with
  | EmptyString => Some 0
  | String c s' =>
      match digit_of c, positional s' with
      | Some d, Some v => Some (d * 10 ^ Z.of_nat (String.length s') + v)
      | _, _ => None
      end
  end.

Definition denotes_decimal (s : string) (v : Z) : Prop :=
  s ≠ EmptyString ∧ positional s = Some v.

(** Two notifications with identical (monitor_type, mac, uuid), and a table
    in which no two such notifications lie within [g] seconds of each
    other. *)
Definition same_key (a b : NotificationRow) : Prop :=
  n_monitor_type a = n_monitor_type b ∧ n_mac_address a = n_mac_address b ∧
  n_uuid a = n_uuid b.

Definition separated (g : Z) (t : list NotificationRow) : Prop :=
  ∀ (i j : nat) a b, i ≠ j → t !! i = Some a → t !! j = Some b → same_key a b →
    g * usec_per_sec ≤ Z.abs (n_violation_timestamp a - n_violation_timestamp b).

(** For the drain: the record of a notification as the loop formats it,
    the rows a scan appends (every row, taken in the order of the result,
    that fits in what is left of the buffer at its turn), the buffer after
    appending the records of some rows, and the table after setting
    [processed = 1] for some rows. *)
Definition record_of (n : NotificationRow) : string :=
  one_record (notification_text n).

Fixpoint appended (buf_len : nat) (buf : string) (rows : list NotificationRow)
    : list NotificationRow :=
  match rows with
  | [] => []
  | n :: rows' =>
      if decide (fits buf_len buf (record_of n))
      then n :: appended buf_len (buf +:+ record_of n) rows'
      else appended buf_len buf rows'
  end.

Definition append_records (buf : string) (rows : list NotificationRow) : string :=
  foldl (λ b n, b +:+ record_of n) buf rows.

Definition mark_processed (rows : list NotificationRow) (n : NotificationRow)
    : NotificationRow :=
  if decide (n ∈ rows) then set_processed 1 n else n.

(** The drain as the design document has it: once a row does not fit,
    nothing more is appended and the rows after it stay as they were. *)
Definition stops_at_first_misfit (buf : string) (buf_len : nat) (w : World)
    : Prop :=
  ∀ pre n post,
    unprocessed (database w) = pre ++ n :: post →
    ¬ fits buf_len (append_records buf (appended buf_len buf pre)) (record_of n) →
    (SQL_get_and_update_violation_events buf buf_len w).1.2
      = append_records buf (appended buf_len buf pre) ∧
    ∀ m, m ∈ post →
      m ∈ notification_table
            (database (SQL_get_and_update_violation_events buf buf_len w).2).

(** ** Sample data *)

(** A server printing timestamps in ISO form, the fraction of a second
    with its trailing zeros dropped, and a summarizer whose windowed
    updates find nothing to change. *)
Fixpoint trim_zeros (digits : list Z) : list Z :=
  match digits with
  | [] => []
  | d :: digits' =>
      match trim_zeros digits' with
      | [] => if decide (d = 0) then [] else [d]
      | rest => d :: rest
      end
  end.

Definition fraction_text (usec : Z) : string :=
  match trim_zeros ((λ k, usec / 10 ^ k mod 10) <$> [5; 4; 3; 2; 1; 0]) with
  | [] => EmptyString
  | digits => foldl (λ s d, s +:+ pretty d) "." digits
  end.

Definition sample_timestamp_out (t : Z) : string :=
  strftime_gmtime (t / usec_per_sec) +:+ fraction_text (t mod usec_per_sec).

Definition sample_summarizer_update (q : Statement) (now : Z) (d : Database)
    : Database := d.

Definition world_of (p : list DBConnectionNode) (d : Database) (now : Z)
    (rejected : list bool) : World :=
  {| pool := p; database := d; clock := now; faults := rejected;
     sent := []; files := ∅; unwritable := ∅ |}.

Definition two_free : list DBConnectionNode :=
  [ {| serial_id := 0; is_used := 0; db := 10%nat |};
    {| serial_id := 1; is_used := 0; db := 11%nat |} ].

Definition all_busy : list DBConnectionNode :=
  [ {| serial_id := 0; is_used := 1; db := 10%nat |};
    {| serial_id := 1; is_used := 1; db := 11%nat |} ].

Definition empty_database : Database :=
  {| lbeacon_table := ∅; object_table := []; object_summary_table := [];
     notification_table := []; notification_id_seq := 1; tracking_table := [] |}.

(** 2020-01-01 00:00:00 UTC, in microseconds. *)
Definition new_year : Z := 1577836800 * usec_per_sec.

Definition beacon_uuid : string := "0000000000010000123400000000567800000000".

Definition registration_payload : string :=
  "1;192.168.1.1;0000000000010000123400000000567800000000;1577836800;192.168.1.20;".

(** One tag carrying the panic bit, seen by [beacon_uuid]. *)
Definition tag_database : Database :=
  {| lbeacon_table := ∅;
     object_table := [ {| o_mac_address := "aabbccddeeff"; o_monitor_type := 2 |} ];
     object_summary_table :=
       [ {| s_id := 1; s_mac_address := "aabbccddeeff"; s_uuid := beacon_uuid;
            s_is_location_updated := 0;
            s_geofence_violation_timestamp := None;
            s_panic_violation_timestamp := None;
            s_movement_violation_timestamp := None;
            s_location_violation_timestamp := None |} ];
     notification_table := []; notification_id_seq := 1; tracking_table := [] |}.

(** A tracking report with one BR_EDR record whose panic field is 1 and no
    BLE record, and the same report with panic field 0. *)
Definition panic_report : string :=
  "0000000000010000123400000000567800000000;1577836800;192.168.1.20;1;1;aabbccddeeff;1577836790;1577836795;-60;1;3000;2;0;".

Definition calm_report : string :=
  "0000000000010000123400000000567800000000;1577836800;192.168.1.20;1;1;aabbccddeeff;1577836790;1577836795;-60;0;3000;2;0;".

(** Two tags with a panic stamp ten seconds old, the first of which has
    its notification already; the second has a geo-fence stamp as well. *)
Definition stamped_database : Database :=
  {| lbeacon_table := ∅; object_table := [];
     object_summary_table :=
       [ {| s_id := 1; s_mac_address := "aabbccddeeff"; s_uuid := beacon_uuid;
            s_is_location_updated := 1;
            s_geofence_violation_timestamp := None;
            s_panic_violation_timestamp := Some (new_year - 10 * usec_per_sec);
            s_movement_violation_timestamp := None;
            s_location_violation_timestamp := None |};
         {| s_id := 2; s_mac_address := "112233445566"; s_uuid := beacon_uuid;
            s_is_location_updated := 1;
            s_geofence_violation_timestamp := Some (new_year - 10 * usec_per_sec);
            s_panic_violation_timestamp := Some (new_year - 10 * usec_per_sec);
            s_movement_violation_timestamp := None;
            s_location_violation_timestamp := None |} ];
     notification_table :=
       [ {| n_id := 1; n_monitor_type := 2; n_mac_address := "aabbccddeeff";
            n_uuid := beacon_uuid;
            n_violation_timestamp := new_year - 10 * usec_per_sec;
            n_processed := 0 |} ];
     notification_id_seq := 2; tracking_table := [] |}.

(** Two unprocessed notifications; the text of the first timestamp is seven
    characters longer than that of the second. *)
Definition first_notification : NotificationRow :=
  {| n_id := 1; n_monitor_type := 2; n_mac_address := "aabbccddeeff";
     n_uuid := beacon_uuid; n_violation_timestamp := new_year + 123456;
     n_processed := 0 |}.

Definition second_notification : NotificationRow :=
  {| n_id := 2; n_monitor_type := 2; n_mac_address := "112233445566";
     n_uuid := beacon_uuid; n_violation_timestamp := new_year + 5 * usec_per_sec;
     n_processed := 0 |}.

Definition pending_database : Database :=
  {| lbeacon_table := ∅; object_table := []; object_summary_table := [];
     notification_table := [first_notification; second_notification];
     notification_id_seq := 3; tracking_table := [] |}.

(** The receiver with four free packet slots, two idle workers, and a
    worker pool that refuses the next submission. *)
Definition refusing_receiver : geo_fence_config :=
  {| is_running := true;
     pkt_content_mempool := {| mp_slots := 4; mp_allocated := ∅ |};
     worker_thread := {| num_threads_working := 0; num_threads_alive := 2;
                         jobqueue := []; add_work_faults := [true] |} |}.

Definition udp_packet : sPkt :=
  {| pkt_type := 1; pkt_address := "c0a80114"; pkt_payload := calm_report |}.

(** ** Further notions used by the statements below *)

(** *** The creation of the pool *)

(** The handles [PQconnectdb] returned before the first connection that
    failed, and the nodes the loop builds for them, numbered from [i]. *)
Fixpoint connected (connect : list (PGconn * bool)) : list PGconn :=
  match connect with
  | (h, true) :: connect' => h :: connected connect'
  | _ => []
  end.

Definition fresh_nodes (i : Z) (handles : list PGconn) : list DBConnectionNode :=
  imap (λ k h, {| serial_id := i + Z.of_nat k; is_used := 0; db := h |}) handles.

(** *** A batch of statements *)

(** How many of [n] statements sent one after the other are accepted before
    the first is rejected, [fs] telling which statements the server
    rejects. *)
Fixpoint accepted_run (fs : list bool) (n : nat) : nat :=
  match n with
  | O => O
  | S n' =>
      match fs with
      | true :: _ => O
      | _ => S (accepted_run (tail fs) n')
      end
  end.

(** The statement the registration loop sends for one beacon record. *)
Definition registration_statement (gateway_ip_address : string)
    (r : string * string * string) : Statement :=
  INSERT_LBEACON_ON_CONFLICT r.1.1 r.2 S_NORMAL_STATUS gateway_ip_address r.1.2
    (uuid_coordinate_x r.1.1) (uuid_coordinate_y r.1.1).

(** The rows among [rows] whose statement the server accepts, the
    statements being sent one per row and [fs] telling which of them are
    rejected. *)
Fixpoint kept_rows {A} (fs : list bool) (rows : list A) : list A :=
  match rows with
  | [] => []
  | n :: rows' =>
      match fs with
      | true :: _ => kept_rows (tail fs) rows'
      | _ => n :: kept_rows (tail fs) rows'
      end
  end.

(** *** A tracking report *)

(** The six fields of one object record of a report, the tokens they come
    as, the line the loop prints for the record, and whether the record asks
    for the panic stamp. *)
Record TrackingRecord := {
  t_mac_address : string;
  t_initial_timestamp : string;
  t_final_timestamp : string;
  t_rssi : string;
  t_panic_button : string;
  t_battery_voltage : string
}.

Definition record_tokens (r : TrackingRecord) : list string :=
  [t_mac_address r; t_initial_timestamp r; t_final_timestamp r; t_rssi r;
   t_panic_button r; t_battery_voltage r].

Definition tracking_line (lbeacon_uuid : string) (server_time_offset : Z)
    (r : TrackingRecord) : string :=
  t_mac_address r +:+ "," +:+ lbeacon_uuid +:+ "," +:+ t_rssi r +:+ ","
  +:+ t_panic_button r +:+ "," +:+ t_battery_voltage r +:+ ","
  +:+ strftime_gmtime (atoi (t_initial_timestamp r)) +:+ ","
  +:+ strftime_gmtime (atoi (t_final_timestamp r)) +:+ ","
  +:+ pretty server_time_offset.

Definition panics (r : TrackingRecord) : Prop := 1 = atoi (t_panic_button r).

Global Instance panics_dec r : Decision (panics r).
Proof. unfold panics. apply _. Defined.

(** The numbers the code reads from a record are those of [int]s. *)
Definition record_fits (r : TrackingRecord) : Prop :=
  fits_int (atoi (t_initial_timestamp r)) ∧
  fits_int (atoi (t_final_timestamp r)) ∧
  fits_int (atoi (t_panic_button r)).

(** The object table as the panic statement reads it: some object that has
    a row in [object_summary_table] carries the bits of [p]. *)
Definition panic_armed (p : Z) (d : Database) : bool :=
  existsb (λ o, bool_decide (Z.land (o_monitor_type o) p = p) &&
                existsb (λ r, bool_decide (s_mac_address r = o_mac_address o))
                        (object_summary_table d))
          (object_table d).

(** The database after the panic statements of the records [rs], sent at
    [now], [fs] telling which of them the server rejects. *)
Fixpoint panic_stamps (now : Z) (rs : list TrackingRecord) (fs : list bool)
    (d : Database) : Database :=
  match rs with
  | [] => d
  | r :: rs =>
      if decide (panics r) then
        panic_stamps now rs (tail fs)
          (if decide (head fs = Some true) then d
           else identify_panic (t_mac_address r) MONITOR_PANIC now d)
      else panic_stamps now rs fs d
  end.

(** *** The packet receiver *)

(** The slots of a packet pool that are not allocated, in the order
    [mp_alloc] tries them, and the packets of the UDP type among those
    received. *)
Definition free_slots (mp : Memory_Pool) : list nat :=
  filter (λ i, i ∉ mp_allocated mp) (seq 0 (mp_slots mp)).

Definition udp_packets (incoming : list sPkt) : list sPkt :=
  filter (λ temppkt, pkt_type temppkt = UDP) incoming.

(** *** Sessions *)

(** How many of the [n] replies from the [from]-th on report a command as
    done before the first that does not. *)
Fixpoint accepted_commands (reply : nat → PGresult) (from n : nat) : nat :=
  match n with
  | O => O
  | S n' =>
      if decide (PQresultStatus (reply from) ≠ PGRES_COMMAND_OK) then O
      else S (accepted_commands reply (S from) n')
  end.

(** The return code of a call that ends with the statement whose being
    done is [ok]. *)
Definition verdict (ok : Prop) `{Decision ok} : ErrorCode :=
  if decide ok then WORK_SUCCESSFULLY else E_SQL_EXECUTE.

(** A session after it has sent the statements [qs] on [db_conn]. *)
Definition after_sending (db_conn : PGconn) (qs : list Command) (s : Session)
    : Session :=
  {| world := world s; reply := reply s;
     issued := issued s ++ ((λ q, (db_conn, q)) <$> qs) |}.

(** What a dump returns and what it leaves in its file, given whether a
    connection was to be had and the result of the SELECT. *)
Definition dump_result (connected : bool) (res : PGresult) (fields : nat)
    : ErrorCode * list string :=
  if connected then
    if decide (PQresultStatus res = PGRES_TUPLES_OK) then
      (WORK_SUCCESSFULLY,
       if decide (PQntuples res > 0 ∧ PQnfields res = Z.of_nat fields)
       then dump_line fields <$> tuples res else [])
    else (E_SQL_EXECUTE, [])
  else (E_SQL_OPEN_DATABASE, []).

(** The length of a day, in microseconds. *)
Definition day : Z := time_of_day 24 0 0.

(** ** Further sample data *)

(** A server that answers the first statements of a session with
    [answers] and reports every later one as done, and the session that
    begins with the pool [p] and no file. *)
Definition replies_of (answers : list PGresult) (k : nat) : PGresult :=
  default command_ok (answers !! k).

Definition session_of (p : list DBConnectionNode) (answers : list PGresult)
    : Session :=
  {| world := world_of p empty_database new_year [];
     reply := replies_of answers; issued := [] |}.

(** A session whose geo-fence dump file holds the dump of before and whose
    next statement fails, and one whose next statement returns two
    monitored addresses. *)
Definition stale_dump : Session :=
  {| world := set_files {[ "geo_fence.txt" := ["1;7;fence;p;f;"] ]}
                (world_of two_free empty_database new_year []);
     reply := replies_of [fatal_error]; issued := [] |}.

Definition two_addresses : Session :=
  session_of two_free
    [ {| PQresultStatus := PGRES_TUPLES_OK; PQnfields := 2;
         tuples := [["1"; "aabbccddeeff"]; ["2"; "112233445566"]] |} ].

(** A session in which two objects are monitored for movement, the second
    seen by no beacon, and the activity query for the first finds
    nothing. *)
Definition monitored_objects : Session :=
  session_of two_free
    [ {| PQresultStatus := PGRES_TUPLES_OK; PQnfields := 2;
         tuples := [["aabbccddeeff"; beacon_uuid];
                    ["112233445566"; EmptyString]] |};
      {| PQresultStatus := PGRES_TUPLES_OK; PQnfields := 3; tuples := [] |} ].

(** * Properties *)

(** Closes [¬ (x ≠ x)], the guard left by [if (WORK_SUCCESSFULLY != ret_val)]
    once [ret_val] is known. *)
Ltac not_ne := let H := fresh in intros H; by apply H.

(** ** Transaction helpers *)

Lemma SQL_execute_rejected db_conn q w :
  SQL_execute db_conn q (reject_next w)
  = (E_SQL_EXECUTE, record_statement db_conn q (reject_next w)).
Proof. reflexivity. Qed.

(** C10.  [SQL_begin_transaction], [SQL_commit_transaction] and
    [SQL_rollback_transaction] return [WORK_SUCCESSFULLY] in every world;
    in particular in a world where the server rejects the statement, where
    [SQL_execute] of BEGIN / END / ROLLBACK itself returns [E_SQL_EXECUTE].
    The helper leaves the world exactly as its [SQL_execute] does, so the
    failure is not visible in anything it returns. *)
Theorem transaction_helpers_return_success (db_conn : PGconn) (w : World) :
  ((SQL_begin_transaction db_conn w).1 = WORK_SUCCESSFULLY ∧
   (SQL_commit_transaction db_conn w).1 = WORK_SUCCESSFULLY ∧
   (SQL_rollback_transaction db_conn w).1 = WORK_SUCCESSFULLY) ∧
  ((SQL_execute db_conn BEGIN_TRANSACTION (reject_next w)).1 = E_SQL_EXECUTE ∧
   (SQL_begin_transaction db_conn (reject_next w)).1 = WORK_SUCCESSFULLY) ∧
  ((SQL_execute db_conn END_TRANSACTION (reject_next w)).1 = E_SQL_EXECUTE ∧
   (SQL_commit_transaction db_conn (reject_next w)).1 = WORK_SUCCESSFULLY) ∧
  ((SQL_execute db_conn ROLLBACK (reject_next w)).1 = E_SQL_EXECUTE ∧
   (SQL_rollback_transaction db_conn (reject_next w)).1 = WORK_SUCCESSFULLY) ∧
  ((SQL_begin_transaction db_conn w).2 = (SQL_execute db_conn BEGIN_TRANSACTION w).2 ∧
   (SQL_commit_transaction db_conn w).2 = (SQL_execute db_conn END_TRANSACTION w).2 ∧
   (SQL_rollback_transaction db_conn w).2 = (SQL_execute db_conn ROLLBACK w).2).
Proof.
  unfold SQL_begin_transaction, SQL_commit_transaction, SQL_rollback_transaction.
  repeat split;
    try (rewrite SQL_execute_rejected; reflexivity);
    try (destruct (SQL_execute _ _ _); reflexivity).
Qed.

(** ** The connection pool *)

Lemma scan_free_Some head h sid head' :
  scan_free head = Some (h, sid, head') →
  ∃ pre n post,
    head = pre ++ n :: post ∧ Forall (λ m, is_used m ≠ 0) pre ∧
    is_used n = 0 ∧ h = db n ∧ sid = serial_id n ∧
    head' = pre ++ set_is_used 1 n :: post.
Proof.
  revert h sid head'. induction head as [|m rest IH]; intros h sid head'; simpl.
  - discriminate.
  - destruct (Z.eqb_spec (is_used m) 0) as [Hfree|Hbusy].
    + intros [= <- <- <-]. exists [], m, rest. repeat split; auto.
    + destruct (scan_free rest) as [[[h0 sid0] rest']|] eqn:Hscan; [|discriminate].
      intros [= <- <- <-].
      destruct (IH _ _ _ eq_refl) as (pre & n & post & -> & Hpre & Hn & -> & -> & ->).
      exists (m :: pre), n, post. repeat split; auto.
Qed.

Lemma scan_free_None head :
  scan_free head = None ↔ Forall (λ m, is_used m ≠ 0) head.
Proof.
  induction head as [|m rest IH]; simpl.
  - split; auto.
  - destruct (Z.eqb_spec (is_used m) 0) as [Hfree|Hbusy].
    + split; [discriminate|]. intros H. inversion H; subst. contradiction.
    + destruct (scan_free rest) as [[[h0 sid0] rest']|].
      * split; [discriminate|]. intros H. inversion H; subst.
        destruct IH as [_ IH]. specialize (IH ltac:(assumption)). discriminate.
      * split; [|reflexivity]. intros _. constructor; [assumption|]. by apply IH.
Qed.

Lemma get_connection_loop_cases retry_times head :
  (∃ h sid head',
      scan_free head = Some (h, sid, head') ∧ retry_times ≠ O ∧
      get_connection_loop retry_times head
      = (WORK_SUCCESSFULLY, Some (h, sid), head')) ∨
  ((scan_free head = None ∨ retry_times = O) ∧
   get_connection_loop retry_times head = (E_SQL_OPEN_DATABASE, None, head)).
Proof.
  induction retry_times as [|k IH]; simpl.
  - right. auto.
  - destruct (scan_free head) as [[[h sid] head']|] eqn:Hscan.
    + left. exists h, sid, head'. auto.
    + right. split; [auto|]. destruct IH as [(? & ? & ? & [=] & _)|[_ ->]].
      reflexivity.
Qed.

Lemma release_found head sid head' :
  SQL_release_database_connection head sid = (WORK_SUCCESSFULLY, head') →
  ∃ pre n post,
    head = pre ++ n :: post ∧ Forall (λ m, serial_id m ≠ sid) pre ∧
    serial_id n = sid ∧ head' = pre ++ set_is_used 0 n :: post.
Proof.
  revert head'. induction head as [|m rest IH]; intros head'; simpl.
  - discriminate.
  - destruct (Z.eqb_spec (serial_id m) sid) as [Heq|Hne].
    + intros [= <-]. exists [], m, rest. auto.
    + destruct (SQL_release_database_connection rest sid) as [e rest'].
      intros [= -> <-].
      destruct (IH _ eq_refl) as (pre & n & post & -> & Hpre & Hn & ->).
      exists (m :: pre), n, post. auto.
Qed.

Lemma release_cases head sid :
  (∃ head', SQL_release_database_connection head sid = (WORK_SUCCESSFULLY, head')) ∨
  (SQL_release_database_connection head sid = (E_SQL_OPEN_DATABASE, head) ∧
   Forall (λ m, serial_id m ≠ sid) head).
Proof.
  induction head as [|m rest IH]; simpl.
  - right. auto.
  - destruct (Z.eqb_spec (serial_id m) sid) as [Heq|Hne].
    + left. eauto.
    + destruct IH as [[rest' ->]|[-> Hall]].
      * left. eauto.
      * right. auto.
Qed.

Lemma in_use_count_app l1 l2 :
  in_use_count (l1 ++ l2) = (in_use_count l1 + in_use_count l2)%nat.
Proof. unfold in_use_count. by rewrite filter_app, length_app. Qed.

Lemma free_count_app l1 l2 :
  free_count (l1 ++ l2) = (free_count l1 + free_count l2)%nat.
Proof. unfold free_count. by rewrite filter_app, length_app. Qed.

Lemma in_use_count_cons n l :
  in_use_count (n :: l)
  = ((if decide (is_used n = 1)%Z then 1 else 0) + in_use_count l)%nat.
Proof.
  unfold in_use_count. rewrite filter_cons. by destruct (decide (is_used n = 1)).
Qed.

Lemma free_count_cons n l :
  free_count (n :: l)
  = ((if decide (is_used n = 0)%Z then 1 else 0) + free_count l)%nat.
Proof.
  unfold free_count. rewrite filter_cons. by destruct (decide (is_used n = 0)).
Qed.

Lemma counts_add_up head :
  Forall (λ n, is_used n = 0 ∨ is_used n = 1) head →
  (in_use_count head + free_count head = length head)%nat.
Proof.
  induction 1 as [|n l Hn _ IH]; [reflexivity|].
  rewrite in_use_count_cons, free_count_cons. simpl.
  destruct (decide (is_used n = 1)), (decide (is_used n = 0)); lia.
Qed.

Lemma free_count_zero head :
  Forall (λ m, is_used m ≠ 0) head → free_count head = O.
Proof.
  induction 1 as [|n l Hn _ IH]; [reflexivity|].
  rewrite free_count_cons, IH. by destruct (decide (is_used n = 0)).
Qed.

Lemma pool_wf_set_is_used pre n post v :
  v = 0 ∨ v = 1 →
  pool_wf (pre ++ n :: post) → pool_wf (pre ++ set_is_used v n :: post).
Proof.
  intros Hv [Hnd Hall]. split.
  - by rewrite fmap_app, fmap_cons in *.
  - apply Forall_app in Hall as [Hpre Hpost]. apply Forall_app. split; [done|].
    inversion Hpost; subst. by constructor.
Qed.

Lemma pool_wf_get head :
  pool_wf head →
  pool_wf (SQL_get_database_connection head).2 ∧
  length (SQL_get_database_connection head).2 = length head.
Proof.
  intros Hwf. unfold SQL_get_database_connection.
  destruct (get_connection_loop_cases SQL_GET_AVAILABLE_CONNECTION_RETRIES head)
    as [(h & sid & head' & Hscan & _ & ->)|[_ ->]]; simpl; [|done].
  apply scan_free_Some in Hscan as (pre & n & post & -> & _ & _ & _ & _ & ->).
  split; [apply pool_wf_set_is_used; auto|]. by rewrite !length_app.
Qed.

Lemma pool_wf_release head sid :
  pool_wf head →
  pool_wf (SQL_release_database_connection head sid).2 ∧
  length (SQL_release_database_connection head sid).2 = length head.
Proof.
  intros Hwf.
  destruct (release_cases head sid) as [[head' Hr]|[-> _]]; simpl; [|done].
  rewrite Hr. simpl.
  apply release_found in Hr as (pre & n & post & -> & _ & _ & ->).
  split; [apply pool_wf_set_is_used; auto|]. by rewrite !length_app.
Qed.

Lemma pool_reachable_wf created head :
  pool_wf created →
  pool_reachable created head →
  pool_wf head ∧ length head = length created.
Proof.
  intros Hwf.
  induction 1 as [|head _ [IHwf IHlen]|head sid _ [IHwf IHlen]].
  - done.
  - destruct (pool_wf_get head IHwf). split; [done|congruence].
  - destruct (pool_wf_release head sid IHwf). split; [done|congruence].
Qed.


(** C8.  A pool is a list of entries with distinct serial ids, each marked
    free (0) or in use (1).  At every pool reached from such a pool by
    acquisitions and releases, the entries in use and the free entries add
    up to the pool size, the number of entries it was built with.  An
    acquisition (with at least one retry round configured) either takes the
    first free entry, marks that one entry in use and returns its handle
    and serial id, or fails, and then only because no entry is free,
    leaving the pool as it was.  A release marks the one entry carrying the
    serial id free and leaves every other entry alone; for an unknown
    serial id it changes nothing. *)
Theorem connection_pool_accounting (created head : list DBConnectionNode) :
  pool_wf created →
  pool_reachable created head →
  (0 < SQL_GET_AVAILABLE_CONNECTION_RETRIES)%nat →
  (in_use_count head + free_count head = length created)%nat ∧
  match SQL_get_database_connection head with
  | (WORK_SUCCESSFULLY, Some (h, sid), head') =>
      ∃ pre n post,
        head = pre ++ n :: post ∧ is_used n = 0 ∧
        h = db n ∧ sid = serial_id n ∧
        Forall (λ m, is_used m = 1) pre ∧
        head' = pre ++ set_is_used 1 n :: post ∧
        in_use_count head' = S (in_use_count head) ∧
        free_count head = S (free_count head')
  | (E_SQL_OPEN_DATABASE, None, head') => head' = head ∧ free_count head = O
  | _ => False
  end ∧
  ∀ sid,
    match SQL_release_database_connection head sid with
    | (WORK_SUCCESSFULLY, head') =>
        ∃ pre n post,
          head = pre ++ n :: post ∧ serial_id n = sid ∧
          Forall (λ m, serial_id m ≠ sid) (pre ++ post) ∧
          head' = pre ++ set_is_used 0 n :: post
    | (E_SQL_OPEN_DATABASE, head') =>
        head' = head ∧ Forall (λ m, serial_id m ≠ sid) head
    | _ => False
    end.
Proof.
  intros Hcreated Hreach Hretries.
  destruct (pool_reachable_wf _ _ Hcreated Hreach) as [[Hnodup Hflags] Hlen].
  split; [by rewrite counts_add_up|]. split.
  - unfold SQL_get_database_connection.
    destruct (get_connection_loop_cases SQL_GET_AVAILABLE_CONNECTION_RETRIES head)
      as [(h & sid & head' & Hscan & _ & ->)|[[Hscan|Hzero] ->]]; [| |lia].
    + apply scan_free_Some in Hscan
        as (pre & n & post & -> & Hpre & Hn & -> & -> & ->).
      exists pre, n, post. repeat split; auto.
      * apply Forall_app in Hflags as [Hflags _].
        rewrite Forall_forall in *. intros m Hm.
        destruct (Hflags m Hm); [|done]. by destruct (Hpre m Hm).
      * rewrite !in_use_count_app, !in_use_count_cons.
        repeat case_decide; simpl in *; lia.
      * rewrite !free_count_app, !free_count_cons.
        repeat case_decide; simpl in *; lia.
    + split; [done|]. apply free_count_zero. by apply scan_free_None.
  - intros sid. destruct (release_cases head sid) as [[head' Hr]|[-> Hall]]; [|done].
    rewrite Hr. apply release_found in Hr as (pre & n & post & -> & Hpre & Hn & ->).
    exists pre, n, post. repeat split; auto.
    apply Forall_app. split; [done|].
    rewrite fmap_app, fmap_cons in Hnodup.
    apply NoDup_app in Hnodup as (_ & _ & Hnodup).
    apply NoDup_cons in Hnodup as [Hnotin _].
    rewrite Forall_forall. intros m Hm Heq. apply Hnotin.
    rewrite Hn, <- Heq. by apply list_elem_of_fmap_2.
Qed.


(** ** Beacon registration *)

Lemma digit_of_not_space c d : digit_of c = Some d → isspace c = false.
Proof.
  unfold digit_of, isspace. intros H.
  destruct (andb_prop_elim (48 <=? Z.of_nat (nat_of_ascii c))
              (Z.of_nat (nat_of_ascii c) <=? 57)) as [H1 H2].
  { destruct (_ && _); [exact I|discriminate]. }
  apply Is_true_true, Z.leb_le in H1. apply Is_true_true, Z.leb_le in H2.
  apply orb_false_intro; [apply Z.eqb_neq; lia|].
  apply andb_false_intro2. apply Z.leb_gt. lia.
Qed.

Lemma digits_value_positional s : ∀ v acc,
  positional s = Some v →
  digits_value s acc = acc * 10 ^ Z.of_nat (String.length s) + v.
Proof.
  induction s as [|c s IH]; intros v acc; simpl.
  - intros [= <-]. lia.
  - destruct (digit_of c) as [d|]; [|discriminate].
    destruct (positional s) as [v'|]; [|discriminate].
    intros [= <-]. rewrite (IH v' _ eq_refl).
    rewrite Nat2Z.inj_succ, Z.pow_succ_r by lia. ring.
Qed.

Lemma atoi_denotes_decimal s v : denotes_decimal s v → atoi s = v.
Proof.
  intros [Hne Hpos]. destruct s as [|c s]; [done|].
  pose proof Hpos as Hpos'. simpl in Hpos'.
  destruct (digit_of c) as [d|] eqn:Hd; [|discriminate].
  unfold atoi. cbn [skip_space]. rewrite (digit_of_not_space _ _ Hd).
  destruct (decide (c = "-"%char)) as [->|_]; [discriminate|].
  destruct (decide (c = "+"%char)) as [->|_]; [discriminate|].
  rewrite (digits_value_positional _ _ _ Hpos). lia.
Qed.

Lemma SQL_execute_accepted db_conn q w :
  head (faults w) ≠ Some true →
  PQresultStatus (server_exec q (clock w) (files w) (database w)).2
    = PGRES_COMMAND_OK →
  SQL_execute db_conn q w
  = (WORK_SUCCESSFULLY,
     set_database (server_exec q (clock w) (files w) (database w)).1
       (record_statement db_conn q w)).
Proof.
  intros Hf Hok. unfold SQL_execute, PQexec.
  destruct (server_exec q (clock w) (files w) (database w)) as [d res].
  simpl in *. destruct (faults w) as [|[|] ?]; simpl in *;
    try congruence; by rewrite decide_False by (rewrite Hok; not_ne).
Qed.

Lemma SQL_execute_cases db_conn q w :
  SQL_execute db_conn q w
  = (WORK_SUCCESSFULLY,
     set_database (server_exec q (clock w) (files w) (database w)).1
       (record_statement db_conn q w)) ∨
  (SQL_execute db_conn q w).1 = E_SQL_EXECUTE.
Proof.
  unfold SQL_execute, PQexec.
  destruct (server_exec q (clock w) (files w) (database w)) as [d res].
  destruct (faults w) as [|[|] ?]; simpl; auto;
    destruct (decide (PQresultStatus res ≠ PGRES_COMMAND_OK)); simpl; auto.
Qed.

Lemma acquire_frame w :
  database (acquire w).2 = database w ∧ clock (acquire w).2 = clock w ∧
  faults (acquire w).2 = faults w ∧ sent (acquire w).2 = sent w ∧
  files (acquire w).2 = files w.
Proof.
  unfold acquire. by destruct (SQL_get_database_connection (pool w)) as [[e out] p].
Qed.

Lemma registration_loop_success numbers gateway db_conn db_serial_id :
  ∀ saveptr w w',
  registration_loop numbers gateway db_conn db_serial_id saveptr w
    = Some (WORK_SUCCESSFULLY, w') →
  lbeacon_table (database w')
  = foldl (register_beacon gateway (clock w)) (lbeacon_table (database w))
      (registration_records numbers saveptr) ∧
  clock w' = clock w.
Proof.
  induction numbers as [|numbers IH]; intros saveptr w w'.
  - simpl. by intros [= <-].
  - destruct saveptr as [|uuid [|registered [|ip rest]]]; try discriminate.
    cbn [registration_loop strtok_save registration_records].
    destruct (SQL_execute_cases db_conn
                (INSERT_LBEACON_ON_CONFLICT uuid ip S_NORMAL_STATUS gateway
                   registered (uuid_coordinate_x uuid) (uuid_coordinate_y uuid)) w)
      as [->|Hfail].
    + rewrite decide_False by not_ne. intros Hloop.
      apply IH in Hloop as [-> ->]. done.
    + destruct (SQL_execute _ _ w) as [e w1]. simpl in Hfail. subst e.
      rewrite decide_True by done. discriminate.
Qed.

Lemma registration_success buf gateway w w' :
  SQL_update_lbeacon_registration_status buf gateway w
    = Some (WORK_SUCCESSFULLY, w') →
  lbeacon_table (database w')
  = foldl (register_beacon gateway (clock w)) (lbeacon_table (database w))
      (payload_beacons buf) ∧
  clock w' = clock w.
Proof.
  unfold SQL_update_lbeacon_registration_status, payload_beacons.
  destruct (tokenize buf) as [|numbers_str saveptr]; [discriminate|].
  cbn [strtok_save]. destruct (decide (atoi numbers_str ≤ 0)); [discriminate|].
  destruct (acquire_frame w) as (Hd & Hc & _).
  destruct (acquire w) as [[[db_conn db_serial_id]|] w0]; [|by destruct saveptr].
  simpl in Hd, Hc.
  destruct saveptr as [|not_used saveptr]; cbn [strtok_save].
  - destruct (Z.to_nat (atoi numbers_str)) eqn:Hn; [lia|]. discriminate.
  - intros Hloop. apply registration_loop_success in Hloop. by rewrite Hd, Hc in Hloop.
Qed.

Lemma lookup_register_beacon gateway now t r k :
  register_beacon gateway now t r !! k
  = register_beacon_at k gateway now (t !! k) r.
Proof.
  unfold register_beacon, register_beacon_at, upsert_lbeacon.
  destruct (decide (r.1.1 = k)) as [<-|Hne].
  - by rewrite lookup_insert_eq.
  - by rewrite lookup_insert_ne.
Qed.

Lemma lookup_foldl_register_beacon gateway now recs : ∀ t k,
  foldl (register_beacon gateway now) t recs !! k
  = foldl (register_beacon_at k gateway now) (t !! k) recs.
Proof.
  induction recs as [|r recs IH]; intros t k; [done|].
  simpl. by rewrite IH, lookup_register_beacon.
Qed.

Lemma register_beacon_at_eq k gateway now o rec :
  rec.1.1 = k →
  register_beacon_at k gateway now o rec
  = Some (lbeacon_row_after rec.1.1 rec.2 S_NORMAL_STATUS gateway rec.1.2
            (uuid_coordinate_x rec.1.1) (uuid_coordinate_y rec.1.1) now o).
Proof. intros. unfold register_beacon_at. by rewrite decide_True. Qed.

Lemma register_beacon_at_ne k gateway now o rec :
  rec.1.1 ≠ k → register_beacon_at k gateway now o rec = o.
Proof. intros. unfold register_beacon_at. by rewrite decide_False. Qed.

Lemma register_beacon_at_keeps k gateway now recs : ∀ r,
  ∃ r', foldl (register_beacon_at k gateway now) (Some r) recs = Some r' ∧
        lb_uuid r' = lb_uuid r ∧
        lb_registered_timestamp r' = lb_registered_timestamp r ∧
        lb_room r' = lb_room r ∧ lb_danger_area r' = lb_danger_area r.
Proof.
  induction recs as [|rec recs IH]; intros r; simpl.
  - by exists r.
  - destruct (decide (rec.1.1 = k)) as [Heq|Hne].
    + rewrite register_beacon_at_eq by done.
      edestruct IH as (r' & -> & ? & ? & ? & ?). by exists r'.
    + rewrite register_beacon_at_ne by done. apply IH.
Qed.

Lemma register_beacon_at_absent k gateway now recs : ∀ o,
  k ∉ (λ r, r.1.1) <$> recs →
  foldl (register_beacon_at k gateway now) o recs = o.
Proof.
  induction recs as [|rec recs IH]; intros o Hk; [done|].
  rewrite fmap_cons, not_elem_of_cons in Hk. destruct Hk as [Hne Hk].
  simpl. rewrite register_beacon_at_ne by done. by apply IH.
Qed.

Lemma register_beacon_at_present k gateway now recs : ∀ o,
  k ∈ (λ r, r.1.1) <$> recs →
  ∃ r, foldl (register_beacon_at k gateway now) o recs = Some r ∧
       lb_last_report_timestamp r = now.
Proof.
  induction recs as [|rec recs IH] using rev_ind; intros o Hk.
  - by apply elem_of_nil in Hk.
  - rewrite foldl_snoc.
    destruct (decide (rec.1.1 = k)) as [Heq|Hne].
    + rewrite register_beacon_at_eq by done.
      eexists. split; [reflexivity|]. by destruct (foldl _ _ _).
    + rewrite register_beacon_at_ne by done.
      apply IH. rewrite fmap_app, elem_of_app in Hk. destruct Hk as [Hk|Hk]; [done|].
      apply list_elem_of_singleton in Hk. simpl in Hk. congruence.
Qed.

Lemma register_beacon_at_twice k gateway now1 now2 recs : ∀ o,
  k ∈ (λ r, r.1.1) <$> recs →
  foldl (register_beacon_at k gateway now2)
    (foldl (register_beacon_at k gateway now1) o recs) recs
  = set_last_report_timestamp now2
      <$> foldl (register_beacon_at k gateway now1) o recs.
Proof.
  induction recs as [|rec recs IH] using rev_ind; intros o Hk.
  - by apply elem_of_nil in Hk.
  - rewrite !foldl_snoc.
    set (first := foldl (register_beacon_at k gateway now1) o recs) in *.
    destruct (decide (rec.1.1 = k)) as [Heq|Hne].
    + rewrite !register_beacon_at_eq by done.
      set (row := lbeacon_row_after _ _ _ _ _ _ _ now1 _).
      destruct (register_beacon_at_keeps k gateway now2 recs row)
        as (r' & -> & Hu & Hr & Hroom & Hd).
      simpl. f_equal. unfold set_last_report_timestamp.
      rewrite Hu, Hr, Hroom, Hd. subst row. by destruct first.
    + rewrite !register_beacon_at_ne by done.
      rewrite fmap_app, elem_of_app in Hk. destruct Hk as [Hk|Hk].
      * by apply IH.
      * apply list_elem_of_singleton in Hk. simpl in Hk. congruence.
Qed.

(** C6.  When the same registration payload is applied twice, the clock
    having advanced in between, the second application adds no row to
    [lbeacon_table]; every beacon of the payload has its row, stamped with
    the time of the first call after the first call and with the later time
    after the second, and equal in every other column; the rows of other
    beacons are the same after both. *)
Theorem lbeacon_registration_idempotent (buf gateway : string)
    (w w1 w2 : World) (later : Z) :
  SQL_update_lbeacon_registration_status buf gateway w
    = Some (WORK_SUCCESSFULLY, w1) →
  clock w < later →
  SQL_update_lbeacon_registration_status buf gateway (set_clock later w1)
    = Some (WORK_SUCCESSFULLY, w2) →
  dom (lbeacon_table (database w2)) = dom (lbeacon_table (database w1)) ∧
  (∀ uuid, uuid ∈ payload_uuids buf →
     ∃ r1 r2,
       lbeacon_table (database w1) !! uuid = Some r1 ∧
       lbeacon_table (database w2) !! uuid = Some r2 ∧
       lb_last_report_timestamp r1 = clock w ∧
       lb_last_report_timestamp r2 = later ∧
       lb_last_report_timestamp r1 < lb_last_report_timestamp r2 ∧
       r2 = set_last_report_timestamp later r1) ∧
  (∀ uuid, uuid ∉ payload_uuids buf →
     lbeacon_table (database w2) !! uuid = lbeacon_table (database w1) !! uuid).
Proof.
  intros H1 Hlater H2.
  apply registration_success in H1 as [Ht1 Hc1].
  apply registration_success in H2 as [Ht2 Hc2]. simpl in Ht2.
  assert (Hin : ∀ uuid, uuid ∈ payload_uuids buf →
     ∃ r1 r2,
       lbeacon_table (database w1) !! uuid = Some r1 ∧
       lbeacon_table (database w2) !! uuid = Some r2 ∧
       lb_last_report_timestamp r1 = clock w ∧
       lb_last_report_timestamp r2 = later ∧
       lb_last_report_timestamp r1 < lb_last_report_timestamp r2 ∧
       r2 = set_last_report_timestamp later r1).
  { intros uuid Hk. unfold payload_uuids in Hk.
    rewrite Ht2, lookup_foldl_register_beacon, Ht1, lookup_foldl_register_beacon.
    rewrite register_beacon_at_twice by done.
    destruct (register_beacon_at_present uuid gateway (clock w)
                (payload_beacons buf) (lbeacon_table (database w) !! uuid) Hk)
      as (r1 & -> & Hr1).
    exists r1, (set_last_report_timestamp later r1). simpl. rewrite Hr1.
    repeat split; auto. }
  assert (Hout : ∀ uuid, uuid ∉ payload_uuids buf →
     lbeacon_table (database w2) !! uuid = lbeacon_table (database w1) !! uuid).
  { intros uuid Hk. unfold payload_uuids in Hk.
    rewrite Ht2, lookup_foldl_register_beacon.
    by rewrite register_beacon_at_absent. }
  split; [|done].
  apply set_eq. intros uuid. rewrite !elem_of_dom.
  destruct (decide (uuid ∈ payload_uuids buf)) as [Hk|Hk].
  - destruct (Hin uuid Hk) as (r1 & r2 & -> & -> & _). split; eauto.
  - by rewrite (Hout uuid Hk).
Qed.


(** ** Collection of violation events *)

Lemma release_frame sid w :
  database (release sid w) = database w ∧ clock (release sid w) = clock w ∧
  faults (release sid w) = faults w ∧ sent (release sid w) = sent w ∧
  files (release sid w) = files w.
Proof. done. Qed.

Lemma notification_exists_true existing m t g :
  notification_exists existing m t g = true ↔
  ∃ n, n ∈ existing ∧ n_monitor_type n = m ∧
       t - n_violation_timestamp n < g * usec_per_sec.
Proof.
  unfold notification_exists. rewrite existsb_exists. split.
  - intros (n & Hin & Hn). exists n. rewrite <- list_elem_of_In in Hin.
    repeat (apply andb_prop in Hn as [Hn ?]).
    repeat match goal with H : bool_decide _ = true |- _ =>
      apply bool_decide_eq_true in H end. auto.
  - intros (n & Hin & Hm & Ht). exists n. rewrite <- list_elem_of_In.
    split; [done|]. by rewrite !andb_true_iff, !bool_decide_eq_true.
Qed.

Lemma elem_of_selected_violations m c interval g now d s t :
  (s, t) ∈ selected_violations m c interval g now d ↔
  s ∈ object_summary_table d ∧ violation_timestamp_of c s = Some t ∧
  now - interval * usec_per_sec ≤ t ∧
  notification_exists (notification_table d) m t g = false.
Proof.
  unfold selected_violations. rewrite list_elem_of_omap. split.
  - intros (s' & Hin & Hsel).
    destruct (violation_timestamp_of c s') as [t'|] eqn:Hc; [|discriminate].
    destruct (bool_decide _ && negb _) eqn:Hcond; [|discriminate].
    injection Hsel as <- <-. apply andb_prop in Hcond as [H1 H2].
    apply bool_decide_eq_true in H1. apply negb_true_iff in H2. auto.
  - intros (Hin & Hc & H1 & H2). exists s. split; [done|]. rewrite Hc.
    by rewrite bool_decide_true, H2.
Qed.

Lemma NoDup_omap_fst {A B K} (key : A → K) (f : A → option (A * B)) l :
  (∀ s p, f s = Some p → p.1 = s) →
  NoDup (key <$> l) → NoDup ((λ p, key p.1) <$> omap f l).
Proof.
  intros Hf. induction l as [|s rest IH]; simpl; [constructor|].
  rewrite NoDup_cons. intros [Hnotin Hnd]. specialize (IH Hnd).
  change (omap f (s :: rest)) with
    (match f s with Some p => p :: omap f rest | None => omap f rest end).
  destruct (f s) as [p|] eqn:Hs; [|done].
  rewrite fmap_cons. apply NoDup_cons. split; [|done].
  rewrite (Hf _ _ Hs). intros Hin. apply Hnotin.
  apply list_elem_of_fmap in Hin as (q & -> & Hq).
  apply list_elem_of_omap in Hq as (s' & Hs' & Hq).
  rewrite (Hf _ _ Hq). by apply list_elem_of_fmap_2.
Qed.

Lemma selected_violations_macs m c interval g now d :
  NoDup (s_mac_address <$> object_summary_table d) →
  NoDup ((λ p, s_mac_address p.1) <$> selected_violations m c interval g now d).
Proof.
  apply NoDup_omap_fst. intros s p.
  destruct (violation_timestamp_of c s); [|discriminate].
  destruct (_ && _); [|discriminate]. by intros [= <-].
Qed.

Lemma elem_of_new_notifications m rows : ∀ seq r,
  r ∈ new_notifications seq m rows →
  ∃ s t, (s, t) ∈ rows ∧ n_monitor_type r = m ∧
         n_mac_address r = s_mac_address s ∧ n_uuid r = s_uuid s ∧
         n_violation_timestamp r = t ∧ n_processed r = 0.
Proof.
  induction rows as [|[s t] rows IH]; intros seq r; simpl.
  - by intros ?%elem_of_nil.
  - rewrite elem_of_cons. intros [->|Hin].
    + exists s, t. rewrite elem_of_cons. auto 10.
    + apply IH in Hin as (s' & t' & Hin & ?). exists s', t'.
      rewrite elem_of_cons. auto.
Qed.

Lemma new_notifications_macs m rows : ∀ seq,
  n_mac_address <$> new_notifications seq m rows
  = (λ p, s_mac_address p.1) <$> rows.
Proof.
  induction rows as [|[s t] rows IH]; intros seq; simpl; [done|].
  by rewrite IH.
Qed.

Lemma collect_violation_events_table monitor_type interval g w :
  notification_table
    (database (SQL_collect_violation_events monitor_type interval g w).2)
  = notification_table (database w) ∨
  ∃ c, violation_timestamp_name monitor_type = Some c ∧
       notification_table
         (database (SQL_collect_violation_events monitor_type interval g w).2)
       = notification_table (database w) ++
         new_notifications (notification_id_seq (database w)) monitor_type
           (selected_violations monitor_type c interval g (clock w) (database w)).
Proof.
  unfold SQL_collect_violation_events.
  destruct (violation_timestamp_name monitor_type) as [c|]; [|by left].
  destruct (acquire_frame w) as (Hd & Hc & _ & _ & Hfs).
  destruct (acquire w) as [[[db_conn db_serial_id]|] w0]; simpl in *;
    [|left; congruence].
  destruct (SQL_execute_cases db_conn (INSERT_NOTIFICATION monitor_type c interval g) w0)
    as [->|Hfail].
  - rewrite decide_False by not_ne. right. exists c. split; [done|].
    simpl. by rewrite Hd, Hc.
  - unfold SQL_execute, PQexec in *.
    destruct (faults w0) as [|[|] ?]; simpl in *; try discriminate.
    left. congruence.
Qed.

(** C1.  Whatever the monitor type, every row [SQL_collect_violation_events]
    adds to [notification_table] has that monitor type, is unprocessed, and
    carries the mac, uuid and violation timestamp of a row of
    [object_summary_table] whose violation timestamp is within the last
    [time_interval_in_sec] seconds and for which no notification already
    in the table with the same monitor type, mac and uuid has a violation
    timestamp less than [granularity_for_continuous_violations_in_sec]
    seconds before it (nor, the stamp not being in the future, within the
    last so many seconds).  Hence, mac being unique in [object_summary_table],
    a table in which no two notifications with identical (monitor_type,
    mac, uuid) lie within that window of each other is still such a table
    after the call. *)
Theorem collect_violation_events_dedup (monitor_type time_interval_in_sec
    granularity_for_continuous_violations_in_sec : Z) (w : World) :
  NoDup (s_mac_address <$> object_summary_table (database w)) →
  separated granularity_for_continuous_violations_in_sec
    (notification_table (database w)) →
  ∃ inserted,
    notification_table
      (database (SQL_collect_violation_events monitor_type time_interval_in_sec
                   granularity_for_continuous_violations_in_sec w).2)
    = notification_table (database w) ++ inserted ∧
    (∀ r, r ∈ inserted →
       n_monitor_type r = monitor_type ∧ n_processed r = 0 ∧
       (∃ s c, s ∈ object_summary_table (database w) ∧
               s_mac_address s = n_mac_address r ∧ s_uuid s = n_uuid r ∧
               violation_timestamp_name monitor_type = Some c ∧
               violation_timestamp_of c s = Some (n_violation_timestamp r)) ∧
       clock w - time_interval_in_sec * usec_per_sec ≤ n_violation_timestamp r ∧
       (∀ n, n ∈ notification_table (database w) →
             n_monitor_type n = monitor_type →
             n_mac_address n = n_mac_address r → n_uuid n = n_uuid r →
             ¬ (n_violation_timestamp r - n_violation_timestamp n
                < granularity_for_continuous_violations_in_sec * usec_per_sec) ∧
             (n_violation_timestamp r ≤ clock w →
              ¬ (clock w
                 - granularity_for_continuous_violations_in_sec * usec_per_sec
                 < n_violation_timestamp n)))) ∧
    separated granularity_for_continuous_violations_in_sec
      (notification_table
         (database (SQL_collect_violation_events monitor_type time_interval_in_sec
                      granularity_for_continuous_violations_in_sec w).2)).
Proof.
  set (g := granularity_for_continuous_violations_in_sec).
  intros Hmacs Hsep.
  destruct (collect_violation_events_table monitor_type time_interval_in_sec g w)
    as [->|(c & Hc & ->)].
  { exists []. rewrite app_nil_r. split; [done|]. split; [|done].
    by intros r ?%elem_of_nil. }
  set (rows := selected_violations _ _ _ _ _ _).
  set (inserted := new_notifications _ _ rows).
  assert (Hins : ∀ r, r ∈ inserted →
     n_monitor_type r = monitor_type ∧ n_processed r = 0 ∧
     (∃ s c, s ∈ object_summary_table (database w) ∧
             s_mac_address s = n_mac_address r ∧ s_uuid s = n_uuid r ∧
             violation_timestamp_name monitor_type = Some c ∧
             violation_timestamp_of c s = Some (n_violation_timestamp r)) ∧
     clock w - time_interval_in_sec * usec_per_sec ≤ n_violation_timestamp r ∧
     (∀ n, n ∈ notification_table (database w) →
           n_monitor_type n = monitor_type →
           n_mac_address n = n_mac_address r → n_uuid n = n_uuid r →
           ¬ (n_violation_timestamp r - n_violation_timestamp n
              < g * usec_per_sec))).
  { intros r Hr.
    apply elem_of_new_notifications in Hr as (s & t & Hst & Hm & Hmac & Hu & Ht & Hp).
    apply elem_of_selected_violations in Hst as (Hs & Hcol & Hrecent & Hnone).
    split; [done|]. split; [done|]. split; [|split].
    - exists s, c. subst t. auto.
    - by subst t.
    - intros n Hn Hnm _ _ Hclose.
      assert (notification_exists (notification_table (database w))
                monitor_type t g = true) as Hex; [|congruence].
      apply notification_exists_true. exists n. subst t. auto. }
  exists inserted. split; [done|]. split.
  { intros r Hr. destruct (Hins r Hr) as (Hm & Hp & Hs & Hrecent & Hfar).
    repeat (split; [done|]). intros n Hn Hnm Hmac Hu.
    specialize (Hfar n Hn Hnm Hmac Hu). split; [done|]. lia. }
  intros i j a b Hij Ha Hb Hkey.
  destruct Hkey as (Hkm & Hkmac & Hku).
  apply lookup_app_Some in Ha as [Ha|[Hia Ha]];
    apply lookup_app_Some in Hb as [Hb|[Hjb Hb]].
  - by apply (Hsep i j).
  - destruct (Hins b) as (Hm & _ & _ & _ & Hfar);
      [by eapply list_elem_of_lookup_2|].
    specialize (Hfar a). rewrite Hkm, Hkmac, Hku in Hfar.
    specialize (Hfar ltac:(by eapply list_elem_of_lookup_2)
                  ltac:(done) ltac:(done) ltac:(done)). lia.
  - destruct (Hins a) as (Hm & _ & _ & _ & Hfar);
      [by eapply list_elem_of_lookup_2|].
    specialize (Hfar b). rewrite <- Hkm, <- Hkmac, <- Hku in Hfar.
    specialize (Hfar ltac:(by eapply list_elem_of_lookup_2)
                  ltac:(done) ltac:(done) ltac:(done)). lia.
  - exfalso. apply Hij.
    assert (Hnd : NoDup (n_mac_address <$> inserted)).
    { unfold inserted. rewrite new_notifications_macs.
      by apply selected_violations_macs. }
    assert (i - length (notification_table (database w))
            = j - length (notification_table (database w)))%nat; [|lia].
    eapply NoDup_lookup; [exact Hnd| |].
    + rewrite list_lookup_fmap, Ha. reflexivity.
    + rewrite list_lookup_fmap, Hb. simpl. by rewrite Hkmac.
Qed.


(** ** Drain of the notifications *)

Lemma digit_of_pretty_N_char x :
  (x < 10)%N → digit_of (pretty_N_char x) = Some (Z.of_N x).
Proof.
  intros Hx.
  assert (x = 0 ∨ x = 1 ∨ x = 2 ∨ x = 3 ∨ x = 4 ∨ x = 5 ∨ x = 6 ∨ x = 7
          ∨ x = 8 ∨ x = 9)%N as Hcases by lia.
  repeat (destruct Hcases as [->|Hcases]; [reflexivity|]). by subst.
Qed.

Lemma digits_value_pretty_N_go x : ∀ s,
  digits_value (pretty_N_go x s) 0 = digits_value s (Z.of_N x).
Proof.
  induction (N.lt_wf_0 x) as [x _ IH]; intros s.
  assert (x = 0 ∨ 0 < x)%N as [->|Hpos] by lia.
  - by rewrite pretty_N_go_0.
  - rewrite pretty_N_go_step by done. rewrite IH by (by apply N.div_lt).
    cbn [digits_value]. rewrite digit_of_pretty_N_char by (by apply N.mod_lt).
    f_equal. rewrite N2Z.inj_div, N2Z.inj_mod. simpl Z.of_N.
    symmetry. by apply Z.div_mod.
Qed.

Lemma pretty_N_go_head x : ∀ s,
  (0 < x)%N →
  ∃ c rest d, pretty_N_go x s = String c rest ∧ digit_of c = Some d.
Proof.
  induction (N.lt_wf_0 x) as [x _ IH]; intros s Hpos.
  rewrite pretty_N_go_step by done.
  destruct (N.eq_0_gt_0_cases (x `div` 10)%N) as [->|Hdiv].
  - rewrite pretty_N_go_0. eexists _, _, _. split; [reflexivity|].
    apply digit_of_pretty_N_char. by apply N.mod_lt.
  - apply IH; [by apply N.div_lt|done].
Qed.

Lemma atoi_pretty_positive (p : positive) : atoi (pretty p) = Z.pos p.
Proof.
  unfold pretty, pretty_positive, pretty, pretty_N.
  rewrite decide_False by done.
  destruct (pretty_N_go_head (N.pos p) EmptyString ltac:(lia)) as (c & rest & d & Heq & Hd).
  pose proof (digits_value_pretty_N_go (N.pos p) EmptyString) as Hval.
  rewrite Heq in *. unfold atoi. cbn [skip_space].
  rewrite (digit_of_not_space _ _ Hd).
  destruct (decide (c = "-"%char)) as [->|_]; [discriminate|].
  destruct (decide (c = "+"%char)) as [->|_]; [discriminate|].
  by rewrite Hval.
Qed.

Lemma digits_value_pretty_positive (p : positive) :
  digits_value (pretty p) 0 = Z.pos p.
Proof.
  unfold pretty, pretty_positive, pretty, pretty_N.
  rewrite decide_False by done. by rewrite digits_value_pretty_N_go.
Qed.

Lemma atoi_pretty (z : Z) : atoi (pretty z) = z.
Proof.
  destruct z as [|p|p]; [reflexivity|apply atoi_pretty_positive|].
  change (atoi (String "-" (pretty p)) = Z.neg p).
  unfold atoi. cbn [skip_space]. change (isspace "-") with false. cbv iota.
  rewrite decide_True by done. by rewrite digits_value_pretty_positive.
Qed.

Global Instance id_le_total : Total id_le.
Proof. intros a b. unfold id_le. lia. Qed.

Lemma appended_subset buf_len rows : ∀ buf n,
  n ∈ appended buf_len buf rows → n ∈ rows.
Proof.
  induction rows as [|m rows IH]; intros buf n; simpl; [done|].
  destruct (decide (fits _ _ _)); rewrite ?elem_of_cons; intros H.
  - destruct H as [->|H]; [by left|]. right. by eapply IH.
  - right. by eapply IH.
Qed.

Lemma appended_app buf_len pre : ∀ buf rows,
  appended buf_len buf (pre ++ rows)
  = appended buf_len buf pre
    ++ appended buf_len (append_records buf (appended buf_len buf pre)) rows.
Proof.
  induction pre as [|m pre IH]; intros buf rows; simpl; [done|].
  destruct (decide (fits _ _ _)); simpl; by rewrite IH.
Qed.

Lemma processed_after_updates rows : ∀ d,
  notification_table (foldl (λ d n, update_processed (n_id n) d) d rows)
  = (λ n, if decide (n_id n ∈ n_id <$> rows) then set_processed 1 n else n)
      <$> notification_table d.
Proof.
  induction rows as [|m rows IH]; intros d; cbn [foldl].
  - rewrite <- (list_fmap_id (notification_table d)) at 1.
    apply list_fmap_ext. intros ? n _. rewrite decide_False; [done|].
    rewrite fmap_nil. by intros ?%elem_of_nil.
  - rewrite IH. cbn [update_processed with_notification_table notification_table].
    rewrite <- list_fmap_compose.
    apply list_fmap_ext. intros ? n _. cbn [compose]. rewrite fmap_cons.
    destruct (decide (n_id n = n_id m)) as [Heq|Hne]; cbn [set_processed n_id].
    + rewrite (decide_True (P := n_id n ∈ _ :: _)) by (rewrite Heq; left).
      by destruct (decide (n_id n ∈ _)).
    + destruct (decide (n_id n ∈ n_id <$> rows)) as [Hin|Hnotin].
      * rewrite decide_True by (by right). done.
      * rewrite decide_False; [done|]. rewrite elem_of_cons. by intros [?|?].
Qed.

Lemma PQgetvalue_id n :
  PQgetvalue (notification_text n) FIELD_INDEX_OF_ID = Some (pretty (n_id n)).
Proof. reflexivity. Qed.

Lemma drain_tuples_accepted db_conn db_serial_id buf_len rows : ∀ buf w,
  faults w = [] →
  ∃ w1,
    drain_tuples db_conn db_serial_id buf_len (notification_text <$> rows) buf w
    = (WORK_SUCCESSFULLY,
       append_records buf (appended buf_len buf rows),
       release db_serial_id w1) ∧
    database w1
    = foldl (λ d n, update_processed (n_id n) d) (database w)
        (appended buf_len buf rows) ∧
    sent w1
    = sent w ++ ((λ n, (db_conn, UPDATE_PROCESSED (n_id n)))
                   <$> appended buf_len buf rows).
Proof.
  induction rows as [|n rows IH]; intros buf w Hf.
  - exists w. simpl. by rewrite app_nil_r.
  - rewrite fmap_cons. cbn [drain_tuples appended]. fold (record_of n).
    destruct (decide (fits buf_len buf (record_of n))) as [Hfit|Hmis].
    + rewrite PQgetvalue_id, atoi_pretty.
      rewrite SQL_execute_accepted; [|by rewrite Hf|done].
      cbn [server_exec fst].
      edestruct (IH (buf +:+ record_of n)) as (w1 & -> & Hd & Hs);
        [|exists w1; split; [reflexivity|]]; [by simpl; rewrite Hf|].
      rewrite Hd, Hs. simpl. by rewrite <- app_assoc.
    + by apply IH.
Qed.


Lemma NoDup_fmap_eq {A B} (f : A → B) (l : list A) x y :
  NoDup (f <$> l) → x ∈ l → y ∈ l → f x = f y → x = y.
Proof.
  intros Hnd Hx Hy Hxy.
  apply list_elem_of_lookup in Hx as [i Hi]. apply list_elem_of_lookup in Hy as [j Hj].
  assert (i = j) as ->; [|congruence].
  eapply NoDup_lookup; [exact Hnd| |]; rewrite list_lookup_fmap.
  - by rewrite Hi.
  - rewrite Hj. simpl. by rewrite Hxy.
Qed.

Lemma unprocessed_Permutation d :
  unprocessed d ≡ₚ filter (λ n, n_processed n ≠ 1) (notification_table d).
Proof. apply merge_sort_Permutation. Qed.

Lemma unprocessed_subset d n : n ∈ unprocessed d → n ∈ notification_table d.
Proof.
  rewrite unprocessed_Permutation, list_elem_of_filter. by intros [_ ?].
Qed.

Lemma unprocessed_NoDup d :
  NoDup (n_id <$> notification_table d) → NoDup (unprocessed d).
Proof.
  intros Hnd. rewrite unprocessed_Permutation.
  apply NoDup_filter. by eapply NoDup_fmap_1.
Qed.

Lemma drain_accepted buf buf_len w :
  is_Some (acquire w).1 →
  faults w = [] →
  ∃ w1,
    SQL_get_and_update_violation_events buf buf_len w
    = (WORK_SUCCESSFULLY,
       append_records buf (appended buf_len buf (unprocessed (database w))),
       w1) ∧
    database w1
    = foldl (λ d n, update_processed (n_id n) d) (database w)
        (appended buf_len buf (unprocessed (database w))).
Proof.
  intros [[db_conn db_serial_id] Hacq] Hf.
  unfold SQL_get_and_update_violation_events.
  destruct (acquire_frame w) as (Hd & _ & Hf0 & _).
  destruct (acquire w) as [o w0]. simpl in Hacq, Hd, Hf0. subst o.
  rewrite Hf in Hf0. unfold PQexec. rewrite Hf0. cbn [server_exec].
  rewrite decide_False by (simpl; not_ne).
  cbn [tuples PQnfields]. rewrite Hd.
  set (w1 := set_database _ _).
  assert (Hf1 : faults w1 = []) by (by simpl; rewrite Hf0).
  destruct (drain_tuples_accepted db_conn db_serial_id buf_len
              (unprocessed (database w)) buf w1 Hf1) as (w2 & Hdrain & Hd2 & _).
  exists (release db_serial_id w2). split; [|done].
  destruct (decide _) as [_|Hnone]; [done|].
  assert (unprocessed (database w) = []) as Hempty.
  { unfold PQntuples in Hnone. cbn [tuples] in Hnone.
    rewrite length_fmap in Hnone.
    destruct (unprocessed (database w)); [done|].
    exfalso. apply Hnone. split; [simpl; lia|done]. }
  rewrite Hempty in Hdrain |- *. exact Hdrain.
Qed.

(** C3, as the code has it.  Given a connection and a server that accepts
    the statements, a call with a buffer of capacity [buf_len] returns
    [WORK_SUCCESSFULLY]; it visits the unprocessed notifications in
    ascending id order; a row's record is appended exactly when it fits in
    the capacity left at its turn, whether or not an earlier row failed to
    fit; the buffer ends as the initial buffer followed by the records of
    the appended rows in order; and [processed = 1] is set exactly for the
    appended rows, every other row of the table being left as it was. *)
Theorem drain_appends_every_record_that_fits (buf : string) (buf_len : nat)
    (w : World) :
  is_Some (acquire w).1 →
  faults w = [] →
  NoDup (n_id <$> notification_table (database w)) →
  (SQL_get_and_update_violation_events buf buf_len w).1.1 = WORK_SUCCESSFULLY ∧
  Sorted id_le (unprocessed (database w)) ∧
  unprocessed (database w)
    ≡ₚ filter (λ n, n_processed n ≠ 1) (notification_table (database w)) ∧
  (SQL_get_and_update_violation_events buf buf_len w).1.2
    = append_records buf (appended buf_len buf (unprocessed (database w))) ∧
  (∀ pre n post,
     unprocessed (database w) = pre ++ n :: post →
     (n ∈ appended buf_len buf (unprocessed (database w)) ↔
      fits buf_len (append_records buf (appended buf_len buf pre))
        (record_of n))) ∧
  notification_table
    (database (SQL_get_and_update_violation_events buf buf_len w).2)
  = mark_processed (appended buf_len buf (unprocessed (database w)))
      <$> notification_table (database w).
Proof.
  intros Hacq Hf Hids.
  destruct (drain_accepted buf buf_len w Hacq Hf) as (w1 & -> & Hd).
  cbn [fst snd]. split; [done|]. split; [apply Sorted_merge_sort, _|].
  split; [apply unprocessed_Permutation|]. split; [done|]. split.
  - intros pre n post Hsplit.
    pose proof (unprocessed_NoDup _ Hids) as Hnd. rewrite Hsplit in Hnd |- *.
    apply NoDup_app in Hnd as (_ & Hpre & Hnd).
    apply NoDup_cons in Hnd as [Hpost _].
    rewrite appended_app. cbn [appended]. split.
    + rewrite elem_of_app. intros [Hin|Hin].
      * apply appended_subset in Hin. destruct (Hpre n Hin). by left.
      * destruct (decide (fits _ _ _)); [done|].
        by apply appended_subset in Hin.
    + intros Hfit. rewrite decide_True by done.
      rewrite elem_of_app. right. by left.
  - rewrite Hd, processed_after_updates.
    apply list_fmap_ext. intros i n Hn. apply list_elem_of_lookup_2 in Hn.
    unfold mark_processed.
    destruct (decide (n ∈ appended _ _ _)) as [Hin|Hnotin].
    + rewrite decide_True; [done|]. by apply list_elem_of_fmap_2.
    + rewrite decide_False; [done|]. intros Hid. apply Hnotin.
      apply list_elem_of_fmap in Hid as (m & Hid & Hm).
      assert (n = m) as ->; [|done].
      eapply (NoDup_fmap_eq n_id); eauto.
      by apply appended_subset, unprocessed_subset in Hm.
Qed.



(** ** What the tracking path and the summarizer do on a failure *)

Lemma SQL_execute_fault db_conn q w rest :
  faults w = true :: rest →
  SQL_execute db_conn q w = (E_SQL_EXECUTE, record_statement db_conn q w).
Proof. intros Hf. unfold SQL_execute, PQexec. by rewrite Hf. Qed.

(** The tracking function does not depend on [is_enabled_panic_monitoring]. *)
Lemma tracking_flag_unread buf path flag flag' thread w :
  SQL_update_object_tracking_data_with_battery_voltage buf path flag thread w
  = SQL_update_object_tracking_data_with_battery_voltage buf path flag' thread w.
Proof. reflexivity. Qed.

(** With a connection at hand, a panic field that reads 1 has the stamp
    executed on that connection. *)
Lemma panic_stamp_executed mac p w :
  atoi p = 1 →
  is_Some (acquire w).1 →
  ∃ db_conn w1,
    panic_stamp (Some mac) (Some p) w = Some (inr w1) ∧
    sent w1 = sent w ++ [(db_conn, IDENTIFY_PANIC mac MONITOR_PANIC)].
Proof.
  intros Hp [[db_conn db_serial_id] Hacq]. unfold panic_stamp.
  rewrite decide_True by done.
  destruct (acquire_frame w) as (_ & _ & _ & Hs & _).
  destruct (acquire w) as [o w0]. simpl in Hacq, Hs. subst o.
  destruct (SQL_execute db_conn (IDENTIFY_PANIC mac MONITOR_PANIC) w0)
    as [ret_val w1] eqn:Hexec.
  exists db_conn, (release db_serial_id w1). split; [done|].
  unfold SQL_execute, PQexec in Hexec.
  destruct (faults w0) as [|[|] ?]; simpl in Hexec;
    injection Hexec as _ <-; simpl; by rewrite Hs.
Qed.

(** A report with fewer than two tokens: the file has been created, the
    function returns [E_API_PROTOCOL_FORMAT], and the file is still there. *)
Lemma tracking_parse_failure_keeps_file buf path flag thread w :
  (length (tokenize buf) < 2)%nat →
  track_filename path thread ∉ unwritable w →
  ∃ w',
    SQL_update_object_tracking_data_with_battery_voltage buf path flag thread w
    = Some (E_API_PROTOCOL_FORMAT, w') ∧
    files w' !! track_filename path thread = Some [].
Proof.
  intros Hshort Hopen. unfold SQL_update_object_tracking_data_with_battery_voltage.
  unfold fopen_wt. rewrite decide_False by done.
  destruct (tokenize buf) as [|uuid [|timestamp rest]]; [| |simpl in Hshort; lia];
    (eexists; split; [reflexivity|]); simpl; apply lookup_insert_eq.
Qed.

(** A rejected reset followed by accepted updates goes unnoticed. *)
Lemma summarizer_reset_failure_unnoticed window interval tolerance base w :
  is_Some (acquire w).1 →
  faults w = [true] →
  (SQL_summarize_object_location window interval tolerance base w).1
  = WORK_SUCCESSFULLY ∧
  (drop (length (sent w))
     (sent (SQL_summarize_object_location window interval tolerance base w).2)).*2
  = [RESET_STATE; UPDATE_STABLE_TAG window interval tolerance;
     UPDATE_MOVING_TAG window interval;
     UPDATE_TAG_BASE_LOCATION window interval base].
Proof.
  intros [[db_conn db_serial_id] Hacq] Hf. unfold SQL_summarize_object_location.
  destruct (acquire_frame w) as (_ & _ & Hf0 & Hs & _).
  destruct (acquire w) as [o w0]. simpl in Hacq, Hf0, Hs. subst o.
  rewrite Hf in Hf0.
  rewrite (SQL_execute_fault _ _ _ [] Hf0).
  rewrite SQL_execute_accepted; [|by simpl; rewrite Hf0|done].
  rewrite decide_False by not_ne.
  rewrite SQL_execute_accepted; [|by simpl; rewrite Hf0|done].
  rewrite decide_False by not_ne.
  rewrite SQL_execute_accepted; [|by simpl; rewrite Hf0|done].
  rewrite decide_False by not_ne.
  split; [done|]. simpl. rewrite Hs, <- !app_assoc, drop_app_length. done.
Qed.

(** ** The packet receiver *)

Lemma mp_alloc_grows mp slot mp' :
  mp_alloc mp = (Some slot, mp') →
  (slot ∉ mp_allocated mp) ∧ mp_allocated mp' = {[ slot ]} ∪ mp_allocated mp.
Proof.
  unfold mp_alloc.
  destruct (List.find _ _) as [i|] eqn:Hfind; [|discriminate].
  intros [= <- <-]. apply List.find_some in Hfind as [_ Hfree].
  by apply bool_decide_eq_true in Hfree.
Qed.

(** A pass that submits a job, accepted or refused, leaves the slot it took
    allocated. *)
Lemma receiver_pass_keeps_slot temppkt g g' return_value :
  process_api_recv_body temppkt g = Continues g' (Some return_value) →
  ∃ slot,
    (slot ∉ mp_allocated (pkt_content_mempool g)) ∧
    mp_allocated (pkt_content_mempool g')
    = {[ slot ]} ∪ mp_allocated (pkt_content_mempool g).
Proof.
  unfold process_api_recv_body.
  destruct (decide (pkt_type temppkt = UDP)); [|discriminate].
  destruct (mp_alloc (pkt_content_mempool g)) as [[slot|] mp] eqn:Halloc;
    [|discriminate].
  apply mp_alloc_grows in Halloc as [Hfree Hmp]. cbn [worker_thread].
  destruct (decide _); [discriminate|].
  destruct (thpool_add_work _ _ _) as [rv tp]. intros [= <- _].
  by exists slot.
Qed.

(** No pass of the receiver loop gives a packet slot back: whatever the
    worker pool answers, the slots allocated before the pass are still
    allocated after it, and so is the slot the pass took. *)
Lemma receiver_pass_frees_nothing temppkt g g' return_value :
  process_api_recv_body temppkt g = Continues g' return_value →
  mp_allocated (pkt_content_mempool g) ⊆ mp_allocated (pkt_content_mempool g').
Proof.
  unfold process_api_recv_body.
  destruct (decide (pkt_type temppkt = UDP)); [|by intros [= <- _]].
  destruct (mp_alloc (pkt_content_mempool g)) as [[slot|] mp] eqn:Halloc;
    [|discriminate].
  apply mp_alloc_grows in Halloc as [_ Hmp]. cbn [worker_thread].
  destruct (decide _); [discriminate|].
  destruct (thpool_add_work _ _ _) as [rv tp]. intros [= <- _].
  cbn [pkt_content_mempool]. rewrite Hmp. apply union_subseteq_r.
Qed.

(** * Further properties *)

(** ** The pool: creation, and acquisition followed by release *)

Lemma release_skip pre l sid :
  Forall (λ m, serial_id m ≠ sid) pre →
  SQL_release_database_connection (pre ++ l) sid
  = ((SQL_release_database_connection l sid).1,
     pre ++ (SQL_release_database_connection l sid).2).
Proof.
  induction 1 as [|m pre Hm _ IH]; simpl.
  - by destruct (SQL_release_database_connection l sid).
  - destruct (Z.eqb_spec (serial_id m) sid) as [Heq|_]; [done|].
    rewrite IH. reflexivity.
Qed.

Lemma set_is_used_undo n : is_used n = 0 → set_is_used 0 (set_is_used 1 n) = n.
Proof. destruct n as [s u d]. simpl. by intros ->. Qed.

(** X2.  In a pool whose serial ids are distinct, releasing the serial id
    an acquisition returned gives back the pool as it was before the
    acquisition. *)
Theorem acquire_release_round_trip (head head' : list DBConnectionNode)
    (h : PGconn) (sid : Z) :
  pool_wf head →
  SQL_get_database_connection head = (WORK_SUCCESSFULLY, Some (h, sid), head') →
  SQL_release_database_connection head' sid = (WORK_SUCCESSFULLY, head).
Proof.
  intros [Hnd _]. unfold SQL_get_database_connection.
  destruct (get_connection_loop_cases SQL_GET_AVAILABLE_CONNECTION_RETRIES head)
    as [(h0 & sid0 & head0 & Hscan & _ & ->)|[_ ->]]; [|discriminate].
  intros [= -> -> ->].
  apply scan_free_Some in Hscan as (pre & n & post & -> & _ & Hn & _ & -> & ->).
  rewrite fmap_app, fmap_cons in Hnd. apply NoDup_app in Hnd as (_ & Hpre & _).
  rewrite release_skip.
  - simpl. rewrite Z.eqb_refl. simpl. by rewrite set_is_used_undo.
  - rewrite Forall_forall. intros m Hm Heq. apply (Hpre (serial_id m)).
    + by apply list_elem_of_fmap_2.
    + rewrite Heq. by left.
Qed.

Lemma acquire_cases w :
  (∃ db_conn db_serial_id head',
     SQL_get_database_connection (pool w)
     = (WORK_SUCCESSFULLY, Some (db_conn, db_serial_id), head') ∧
     acquire w = (Some (db_conn, db_serial_id), set_pool head' w)) ∨
  (acquire w = (None, w) ∧
   (free_count (pool w) = O ∨ SQL_GET_AVAILABLE_CONNECTION_RETRIES = O)).
Proof.
  unfold acquire, SQL_get_database_connection.
  destruct (get_connection_loop_cases SQL_GET_AVAILABLE_CONNECTION_RETRIES (pool w))
    as [(h & sid & head' & Hscan & _ & ->)|[Hwhy ->]].
  - left. exists h, sid, head'. by rewrite decide_True.
  - right. split; [by destruct w|].
    destruct Hwhy as [Hscan|Hz]; [left|by right].
    apply free_count_zero. by apply scan_free_None.
Qed.

Lemma acquire_Some_free w db_conn db_serial_id w0 :
  acquire w = (Some (db_conn, db_serial_id), w0) →
  free_count (pool w) ≠ O ∧ SQL_GET_AVAILABLE_CONNECTION_RETRIES ≠ O.
Proof.
  destruct (acquire_cases w) as [(c & sid & head' & Hget & ->)|[-> _]];
    [|discriminate].
  intros _. unfold SQL_get_database_connection in Hget.
  destruct (get_connection_loop_cases SQL_GET_AVAILABLE_CONNECTION_RETRIES (pool w))
    as [(h & s & hd & Hscan & Hr & _)|[_ Hfail]]; [|congruence].
  split; [|done].
  apply scan_free_Some in Hscan as (pre & n & post & -> & _ & Hn & _).
  rewrite free_count_app, free_count_cons, decide_True by done. lia.
Qed.

Lemma acquire_free w :
  free_count (pool w) ≠ O → SQL_GET_AVAILABLE_CONNECTION_RETRIES ≠ O →
  is_Some (acquire w).1.
Proof.
  intros Hfree Hretries.
  destruct (acquire_cases w) as [(c & sid & head' & _ & ->)|[_ [?|?]]]; by eauto.
Qed.

Lemma release_acquired w db_conn db_serial_id w0 w1 :
  pool_wf (pool w) →
  acquire w = (Some (db_conn, db_serial_id), w0) →
  pool w1 = pool w0 →
  pool (release db_serial_id w1) = pool w.
Proof.
  intros Hwf Hacq Hsame.
  destruct (acquire_cases w) as [(c & sid & head' & Hget & Heq)|[Heq _]];
    rewrite Heq in Hacq; [|discriminate].
  injection Hacq as -> -> <-. unfold release. simpl. rewrite Hsame. simpl.
  by rewrite (acquire_release_round_trip _ _ _ _ Hwf Hget).
Qed.

Lemma SQL_execute_pool db_conn q w : pool (SQL_execute db_conn q w).2 = pool w.
Proof.
  unfold SQL_execute, PQexec.
  destruct (server_exec q (clock w) (files w) (database w)) as [d res].
  destruct (faults w) as [|[|] ?]; simpl; try done;
    by destruct (decide (PQresultStatus res ≠ PGRES_COMMAND_OK)).
Qed.

(** ** Connections are given back *)

Lemma PQexec_pool db_conn q w : pool (PQexec db_conn q w).2 = pool w.
Proof.
  unfold PQexec.
  destruct (server_exec q (clock w) (files w) (database w)) as [d res].
  by destruct (faults w) as [|[|] ?].
Qed.

Lemma registration_loop_pool numbers gateway db_conn db_serial_id :
  ∀ saveptr w e w',
  registration_loop numbers gateway db_conn db_serial_id saveptr w
    = Some (e, w') →
  pool w' = (SQL_release_database_connection (pool w) db_serial_id).2.
Proof.
  induction numbers as [|numbers IH]; intros saveptr w e w'.
  - simpl. by intros [= _ <-].
  - destruct saveptr as [|uuid [|registered [|ip rest]]]; try discriminate.
    cbn [registration_loop strtok_save].
    pose proof (SQL_execute_pool db_conn
      (INSERT_LBEACON_ON_CONFLICT uuid ip S_NORMAL_STATUS gateway registered
         (uuid_coordinate_x uuid) (uuid_coordinate_y uuid)) w) as Hpool.
    destruct (SQL_execute _ _ w) as [ret_val w1]. simpl in Hpool.
    destruct (decide (WORK_SUCCESSFULLY ≠ ret_val)).
    + intros [= _ <-]. unfold release. simpl. by rewrite Hpool.
    + intros Hloop. apply IH in Hloop. by rewrite Hloop, Hpool.
Qed.

Lemma drain_tuples_pool db_conn db_serial_id buf_len rows : ∀ buf w,
  pool (drain_tuples db_conn db_serial_id buf_len rows buf w).2
  = (SQL_release_database_connection (pool w) db_serial_id).2.
Proof.
  induction rows as [|tuple rows IH]; intros buf w; [done|].
  cbn [drain_tuples].
  destruct (decide (fits buf_len buf (one_record tuple))); [|apply IH].
  destruct (PQgetvalue tuple FIELD_INDEX_OF_ID) as [id|]; [|done].
  pose proof (SQL_execute_pool db_conn (UPDATE_PROCESSED (atoi id)) w) as Hpool.
  destruct (SQL_execute _ _ w) as [ret_val w1]. simpl in Hpool.
  by rewrite IH, Hpool.
Qed.

Lemma panic_stamp_pool mac p w r :
  pool_wf (pool w) →
  panic_stamp mac p w = Some r →
  pool (match r with inl w' => w' | inr w' => w' end) = pool w.
Proof.
  intros Hwf. unfold panic_stamp.
  destruct p as [p|]; [|by intros [= <-]].
  destruct (decide (1 = atoi p)); [|by intros [= <-]].
  destruct (acquire_cases w) as [(c & sid & head' & Hget & Hacq)|[Hacq _]];
    rewrite Hacq; [|by intros [= <-]].
  destruct mac as [mac|]; [|discriminate].
  pose proof (SQL_execute_pool c (IDENTIFY_PANIC mac MONITOR_PANIC)
                (set_pool head' w)) as Hpool.
  destruct (SQL_execute _ _ _) as [ret_val w1]. intros [= <-].
  by apply (release_acquired w c sid (set_pool head' w)).
Qed.

Lemma tracking_records_pool numbers filename lbeacon_uuid offset :
  ∀ saveptr w saveptr' w',
  pool_wf (pool w) →
  tracking_records numbers filename lbeacon_uuid offset saveptr w
    = Some (saveptr', w') →
  pool w' = pool w.
Proof.
  induction numbers as [|numbers IH]; intros saveptr w saveptr' w' Hwf.
  - simpl. by intros [= _ <-].
  - cbn [tracking_records].
    repeat (destruct (strtok_save _) as [? ?]).
    destruct (panic_stamp _ _ w) as [r|] eqn:Hstamp; [|discriminate].
    pose proof (panic_stamp_pool _ _ _ _ Hwf Hstamp) as Hpool.
    destruct r as [w1|w1]; simpl in Hpool.
    + intros Hrec. apply IH in Hrec; [congruence|by rewrite Hpool].
    + repeat (destruct (strtok_save _) as [? ?]).
      repeat case_match; try discriminate.
      intros Hrec. apply IH in Hrec; [|by simpl; rewrite Hpool].
      simpl in Hrec. congruence.
Qed.

Lemma tracking_types_pool num_types filename lbeacon_uuid offset :
  ∀ saveptr w r w',
  pool_wf (pool w) →
  tracking_types num_types filename lbeacon_uuid offset saveptr w
    = Some (r, w') →
  pool w' = pool w.
Proof.
  induction num_types as [|num_types IH]; intros saveptr w r w' Hwf.
  - simpl. by intros [= _ <-].
  - cbn [tracking_types].
    repeat (destruct (strtok_save _) as [? ?]).
    case_match; [|by intros [= _ <-]].
    destruct (tracking_records _ _ _ _ _ w) as [[saveptr1 w1]|] eqn:Hrec;
      [|discriminate].
    apply tracking_records_pool in Hrec; [|done].
    intros Htypes. apply IH in Htypes; [congruence|by rewrite Hrec].
Qed.

(** X3.  In a pool whose serial ids are distinct, every call of the
    summarizer, of the violation collection and of the drain leaves each
    pooled connection as it found it, whatever it returns; so do the beacon
    registration and the tracking ingestion whenever they return. *)
Theorem connection_returned_on_every_path (w : World) :
  pool_wf (pool w) →
  (∀ window interval tolerance base,
     pool (SQL_summarize_object_location window interval tolerance base w).2
     = pool w) ∧
  (∀ monitor_type interval granularity,
     pool (SQL_collect_violation_events monitor_type interval granularity w).2
     = pool w) ∧
  (∀ buf buf_len,
     pool (SQL_get_and_update_violation_events buf buf_len w).2 = pool w) ∧
  (∀ buf gateway e w',
     SQL_update_lbeacon_registration_status buf gateway w = Some (e, w') →
     pool w' = pool w) ∧
  (∀ buf path flag thread e w',
     SQL_update_object_tracking_data_with_battery_voltage buf path flag thread w
       = Some (e, w') →
     pool w' = pool w).
Proof.
  intros Hwf. repeat split.
  - intros window interval tolerance base. unfold SQL_summarize_object_location.
    destruct (acquire_cases w) as [(c & sid & head' & Hget & Hacq)|[Hacq _]];
      rewrite Hacq; [|done].
    repeat (let H := fresh "Hpool" in
            match goal with
            | |- context [SQL_execute ?c ?q ?w0] =>
                pose proof (SQL_execute_pool c q w0) as H;
                destruct (SQL_execute c q w0) as [? ?]; simpl in H
            end;
            try destruct (decide (WORK_SUCCESSFULLY ≠ _)));
      simpl; apply (release_acquired w c sid (set_pool head' w)); try done;
      simpl; congruence.
  - intros monitor_type interval granularity. unfold SQL_collect_violation_events.
    destruct (violation_timestamp_name monitor_type); [|done].
    destruct (acquire_cases w) as [(c & sid & head' & Hget & Hacq)|[Hacq _]];
      rewrite Hacq; [|done].
    match goal with
    | |- context [SQL_execute ?c ?q ?w0] =>
        pose proof (SQL_execute_pool c q w0) as Hpool;
        destruct (SQL_execute c q w0) as [? ?]; simpl in Hpool
    end.
    destruct (decide _); simpl;
      by apply (release_acquired w c sid (set_pool head' w)).
  - intros buf buf_len. unfold SQL_get_and_update_violation_events.
    destruct (acquire_cases w) as [(c & sid & head' & Hget & Hacq)|[Hacq _]];
      rewrite Hacq; [|done].
    pose proof (PQexec_pool c SELECT_UNPROCESSED (set_pool head' w)) as Hpool.
    destruct (PQexec _ _ _) as [res w1]. simpl in Hpool.
    destruct (decide _); [by apply (release_acquired w c sid (set_pool head' w))|].
    destruct (decide _); [|by apply (release_acquired w c sid (set_pool head' w))].
    rewrite drain_tuples_pool.
    by apply (release_acquired w c sid (set_pool head' w) w1).
  - intros buf gateway e w'. unfold SQL_update_lbeacon_registration_status.
    destruct (strtok_save (tokenize buf)) as [[numbers_str|] saveptr];
      [|by intros [= _ <-]].
    destruct (decide _); [by intros [= _ <-]|].
    destruct (strtok_save saveptr) as [? saveptr'].
    destruct (acquire_cases w) as [(c & sid & head' & Hget & Hacq)|[Hacq _]];
      rewrite Hacq; [|by intros [= _ <-]].
    intros Hloop. apply registration_loop_pool in Hloop. rewrite Hloop.
    by apply (release_acquired w c sid (set_pool head' w) (set_pool head' w)).
  - intros buf path flag thread e w'.
    unfold SQL_update_object_tracking_data_with_battery_voltage, fopen_wt.
    destruct (decide _); [by intros [= _ <-]|].
    repeat (destruct (strtok_save _) as [? ?]).
    repeat case_match; try discriminate; try (by intros [= _ <-]); subst.
    all: match goal with
         | H : tracking_types _ _ _ _ _ _ = Some _ |- _ =>
             apply tracking_types_pool in H; [|done]; simpl in H
         end.
    all: try (intros [= _ <-]; done).
    all: match goal with
         | H : acquire ?w0 = _ |- _ =>
             destruct (acquire_cases w0) as [(c & sid & head' & Hget & Hacq)|[Hacq _]];
             rewrite Hacq in H; simplify_eq
         end.
    all: intros [= _ <-]; unfold fclose in *; try congruence.
    all: match goal with
         | H : SQL_execute ?c ?q ?w0 = (_, ?w1) |- _ =>
             pose proof (SQL_execute_pool c q w0) as Hpool;
             rewrite H in Hpool; simpl in Hpool
         end.
    all: transitivity (pool (release z w2)); [done|];
      rewrite (release_acquired w0 p1 z (set_pool head' w0) w2); try done;
      by rewrite H1.
Qed.

(** ** Creation of the pool *)

Lemma fresh_nodes_cons i h handles :
  fresh_nodes i (h :: handles)
  = {| serial_id := i; is_used := 0; db := h |} :: fresh_nodes (i + 1) handles.
Proof.
  unfold fresh_nodes. simpl. f_equal; [f_equal; lia|].
  apply imap_ext. intros k x _. simpl. f_equal. lia.
Qed.

Lemma fresh_nodes_snoc i handles h :
  fresh_nodes i (handles ++ [h])
  = fresh_nodes i handles
    ++ [{| serial_id := i + Z.of_nat (length handles); is_used := 0; db := h |}].
Proof.
  unfold fresh_nodes. rewrite imap_app. simpl. do 3 f_equal. lia.
Qed.

Lemma to_int_fits z : fits_int z → to_int z = z.
Proof.
  unfold fits_int, INT_MIN, INT_MAX, to_int. intros Hz.
  rewrite Z.mod_small; lia.
Qed.

Lemma insert_last_snoc {A} (l : list A) (a x : A) :
  <[pred (length (l ++ [a])) := x]> (l ++ [a]) = l ++ [x].
Proof.
  rewrite length_app. simpl.
  replace (pred (length l + 1)) with (length l + 0)%nat by lia.
  by rewrite insert_app_r.
Qed.

(** Within the retry budget every round allocates its node. *)
Lemma create_loop_within_budget n :
  ∀ connect retry_times db_connection i head,
  Z.of_nat n ≤ retry_times ≤ INT_MAX →
  create_loop connect [] retry_times db_connection i n head false
  = Some (if decide (n ≤ length (connected connect))%nat
          then WORK_SUCCESSFULLY else E_SQL_OPEN_DATABASE,
          head ++ fresh_nodes i (take n (connected connect)), false).
Proof.
  induction n as [|n IH]; intros connect retry_times p i head Hr.
  - cbn [create_loop take]. case_decide; [|lia]. by rewrite app_nil_r.
  - cbn [create_loop malloc_loop]. rewrite decide_False by lia.
    rewrite to_int_fits by (unfold fits_int, INT_MIN, INT_MAX in *; lia).
    cbn [tail].
    destruct connect as [|[h [|]] connect']; cbn [PQconnectdb connected take].
    + case_decide; [simpl in *; lia|]. by rewrite app_nil_r.
    + rewrite IH by lia. rewrite fresh_nodes_cons, <- app_assoc.
      by repeat case_decide; simpl in *; try lia.
    + case_decide; [simpl in *; lia|]. by rewrite app_nil_r.
Qed.

(** X1.  Within the retry budget, that is for [max_connection] at most
    [MEMORY_ALLOCATE_RETRIES], and with [malloc] never failing: creation
    links one free node, numbered from 0, for each connection that
    succeeds, in order, and returns success exactly when [max_connection]
    connections succeeded; at the first connection that fails it returns
    [E_SQL_OPEN_DATABASE] and the nodes linked before stay in the list.
    Nodes already in the list are kept, and the new ones are numbered from
    0 again.  The list ends at its head. *)
Theorem create_pool_outcome (connect : list (PGconn * bool))
    (head : list DBConnectionNode) (max_connection : Z) :
  max_connection ≤ MEMORY_ALLOCATE_RETRIES ≤ INT_MAX →
  SQL_create_database_connection_pool connect [] head max_connection
  = Some (if decide (Z.to_nat max_connection ≤ length (connected connect))%nat
          then WORK_SUCCESSFULLY else E_SQL_OPEN_DATABASE,
          head ++ fresh_nodes 0
                    (take (Z.to_nat max_connection) (connected connect)),
          false).
Proof.
  intros Hr. unfold SQL_create_database_connection_pool.
  destruct (decide (max_connection ≤ 0)) as [Hle|Hpos].
  - replace (Z.to_nat max_connection) with 0%nat by lia.
    cbn [create_loop take].
    rewrite decide_True by lia. by rewrite app_nil_r.
  - apply create_loop_within_budget. lia.
Qed.

(** The rounds of the budget, every connection succeeding. *)
Lemma create_loop_budget_rounds handles :
  ∀ connect retry_times db_connection i m head self_linked,
  handles ≠ [] →
  Z.of_nat (length handles) ≤ retry_times ≤ INT_MAX →
  create_loop (((λ h, (h, true)) <$> handles) ++ connect) [] retry_times
    db_connection i (length handles + m) head self_linked
  = create_loop connect [] (retry_times - Z.of_nat (length handles)) linked
      (i + Z.of_nat (length handles)) m (head ++ fresh_nodes i handles) false.
Proof.
  induction handles as [|h handles IH];
    intros connect retry_times p i m head sl Hne Hr; [done|].
  cbn [length Nat.add fmap list_fmap app create_loop malloc_loop].
  rewrite decide_False by (simpl in Hr; lia).
  rewrite to_int_fits
    by (unfold fits_int, INT_MIN, INT_MAX in *; simpl in Hr; lia).
  cbn [tail PQconnectdb]. rewrite fresh_nodes_cons.
  destruct handles as [|h' handles].
  - simpl. f_equal; lia.
  - change (list_fmap _ _ ?f ?l) with (f <$> l).
    rewrite IH by (try done; simpl in *; lia).
    rewrite <- app_assoc. f_equal; simpl length; lia.
Qed.

(** The rounds after the budget: the counter is negative and [malloc] is
    called again. *)
Lemma create_loop_after_budget handles :
  ∀ connect retry_times db_connection i head self_linked,
  retry_times < 0 →
  INT_MIN ≤ retry_times - Z.of_nat (length handles) →
  create_loop (((λ h, (h, true)) <$> handles) ++ connect) [] retry_times
    db_connection i (length handles) head self_linked
  = Some (WORK_SUCCESSFULLY, head ++ fresh_nodes i handles,
          match handles with [] => self_linked | _ => false end).
Proof.
  induction handles as [|h handles IH];
    intros connect retry_times p i head sl Hneg Hr.
  - cbn [length create_loop]. by rewrite app_nil_r.
  - cbn [length fmap list_fmap app create_loop malloc_loop].
    rewrite decide_False by lia.
    rewrite to_int_fits
      by (unfold fits_int, INT_MIN, INT_MAX in *; simpl in Hr; lia).
    cbn [tail PQconnectdb].
    change (list_fmap _ _ ?f ?l) with (f <$> l).
    rewrite IH by (simpl in Hr; lia).
    rewrite fresh_nodes_cons, <- app_assoc. by destruct handles.
Qed.

(** X4.  Beyond the retry budget, with [malloc] never failing and every
    connection succeeding: the retry counter is shared by all rounds, so
    for [max_connection] above [MEMORY_ALLOCATE_RETRIES] the round numbered
    [MEMORY_ALLOCATE_RETRIES] calls no [malloc].  The node linked in the
    round before is cleared, renumbered and connected anew where it is in
    the list, its first connection being lost, and is left linked to
    itself; creation goes on, [malloc] being called again in the rounds
    that follow, and returns [WORK_SUCCESSFULLY] with one node less than
    [max_connection].  The list ends at its head again only if a round
    followed.  With no retry at all the first round uses the pointer that
    was never assigned. *)
Theorem create_pool_retry_budget (handles : list PGconn)
    (connect : list (PGconn * bool)) (head : list DBConnectionNode)
    (max_connection : Z) :
  0 ≤ MEMORY_ALLOCATE_RETRIES < max_connection →
  max_connection ≤ INT_MAX →
  length handles = Z.to_nat max_connection →
  let budget := Z.to_nat MEMORY_ALLOCATE_RETRIES in
  SQL_create_database_connection_pool
    (((λ h, (h, true)) <$> handles) ++ connect) [] head max_connection
  = if decide (MEMORY_ALLOCATE_RETRIES = 0) then None
    else Some (WORK_SUCCESSFULLY,
               head ++ fresh_nodes 0 (take (budget - 1) handles)
                    ++ fresh_nodes MEMORY_ALLOCATE_RETRIES (drop budget handles),
               bool_decide (max_connection = MEMORY_ALLOCATE_RETRIES + 1)).
Proof.
  intros Hr Hmax Hlen budget. unfold SQL_create_database_connection_pool.
  rewrite <- Hlen. case_decide as Hzero.
  - destruct handles as [|h handles]; [simpl in Hlen; lia|].
    cbn [length create_loop malloc_loop]. by rewrite Hzero, decide_True.
  - assert (Hb : (0 < budget < length handles)%nat) by (subst budget; lia).
    destruct (lookup_lt_is_Some_2 handles (budget - 1)) as [a Ha]; [lia|].
    destruct (lookup_lt_is_Some_2 handles budget) as [b Hb']; [lia|].
    assert (Htake : take budget handles = take (budget - 1) handles ++ [a]).
    { replace budget with (S (budget - 1)) at 1 by lia. by apply take_S_r. }
    rewrite <- (take_drop budget handles) at 1 2.
    rewrite (drop_S _ _ _ Hb'), fmap_app, <- app_assoc, length_app.
    rewrite create_loop_budget_rounds; cycle 1.
    { rewrite Htake. intros Heq. apply (f_equal length) in Heq.
      rewrite length_app in Heq. simpl in Heq. lia. }
    { rewrite length_take. unfold INT_MAX in *. lia. }
    rewrite length_take, Nat.min_l by lia.
    replace (MEMORY_ALLOCATE_RETRIES - Z.of_nat budget) with 0
      by (subst budget; lia).
    cbn [length fmap list_fmap app create_loop malloc_loop].
    rewrite decide_True by done. cbn [PQconnectdb].
    change (list_fmap _ _ ?f ?l) with (f <$> l).
    rewrite Htake, fresh_nodes_snoc, app_assoc, insert_last_snoc.
    rewrite create_loop_after_budget; cycle 1.
    { by vm_compute. }
    { rewrite length_drop. unfold INT_MIN, INT_MAX in *.
      change (to_int (0 - 1)) with (-1). lia. }
    replace (0 + Z.of_nat budget) with MEMORY_ALLOCATE_RETRIES
      by (subst budget; lia).
    rewrite (fresh_nodes_cons MEMORY_ALLOCATE_RETRIES), <- !app_assoc.
    assert (Hflag : match drop (S budget) handles with
                    | [] => true | _ :: _ => false end
                    = bool_decide (max_connection = MEMORY_ALLOCATE_RETRIES + 1)).
    { destruct (drop (S budget) handles) as [|c rest] eqn:Hdrop;
        apply (f_equal length) in Hdrop; rewrite length_drop in Hdrop;
        simpl in Hdrop; symmetry;
        [apply bool_decide_eq_true|apply bool_decide_eq_false];
        subst budget; lia. }
    by rewrite Hflag.
Qed.

(** ** The pools creation builds *)

Lemma create_loop_wf n :
  ∀ connect mallocs retry_times db_connection i head self_linked e created sl,
  NoDup (serial_id <$> head) →
  Forall (λ m, serial_id m < i ∧ is_used m = 0) head →
  create_loop connect mallocs retry_times db_connection i n head self_linked
    = Some (e, created, sl) →
  NoDup (serial_id <$> created) ∧ Forall (λ m, is_used m = 0) created.
Proof.
  assert (Hfree : ∀ i (l : list DBConnectionNode),
            Forall (λ m, serial_id m < i ∧ is_used m = 0) l →
            Forall (λ m, is_used m = 0) l).
  { intros i l Hl. eapply Forall_impl; [exact Hl|]. by intros m [_ ?]. }
  assert (Hsnoc : ∀ i h (l : list DBConnectionNode),
            NoDup (serial_id <$> l) →
            Forall (λ m, serial_id m < i ∧ is_used m = 0) l →
            NoDup (serial_id <$> l ++ [{| serial_id := i; is_used := 0; db := h |}]) ∧
            Forall (λ m, serial_id m < i + 1 ∧ is_used m = 0)
              (l ++ [{| serial_id := i; is_used := 0; db := h |}])).
  { intros i h l Hnd Hall. split.
    - rewrite fmap_app. apply NoDup_app. split; [done|]. split.
      + intros x Hx Hx'. apply list_elem_of_singleton in Hx'. simpl in Hx'.
        subst x. apply list_elem_of_fmap in Hx as (m & Hi & Hm).
        rewrite Forall_forall in Hall. destruct (Hall m Hm). lia.
      + apply NoDup_singleton.
    - apply Forall_app. split.
      + eapply Forall_impl; [exact Hall|]. intros m [? ?]. split; [lia|done].
      + constructor; [simpl; split; [lia|done]|constructor]. }
  induction n as [|n IH];
    intros connect mallocs retry_times p i head self_linked e created sl
      Hnd Hall.
  - cbn [create_loop]. intros [= <- <- <-]. split; [done|by eapply Hfree].
  - cbn [create_loop].
    destruct (malloc_loop mallocs retry_times p) as [[r' ms'] p'].
    destruct (PQconnectdb connect) as [[h ok] connect'] eqn:Hconnect.
    destruct p'; try discriminate.
    + intros [= <- <- <-]. split; [done|by eapply Hfree].
    + destruct ok.
      * destruct (Hsnoc i h head Hnd Hall) as [Hnd' Hall'].
        by apply IH.
      * intros [= <- <- <-]. split; [done|by eapply Hfree].
    + assert (Hin :
        NoDup (serial_id <$>
                 <[pred (length head) :=
                     {| serial_id := i; is_used := 0; db := h |}]> head) ∧
        Forall (λ m, serial_id m < i + 1 ∧ is_used m = 0)
          (<[pred (length head) :=
               {| serial_id := i; is_used := 0; db := h |}]> head)).
      { destruct head as [|a l _] using rev_ind.
        - simpl. split; [constructor|constructor].
        - rewrite insert_last_snoc. rewrite fmap_app in Hnd.
          apply NoDup_app in Hnd as (Hnd & _ & _).
          apply Forall_app in Hall as [Hall _]. by apply Hsnoc. }
      destruct Hin as [Hnd' Hall']. destruct ok.
      * by apply IH.
      * intros [= <- <- <-]. split; [done|by eapply Hfree].
Qed.

(** X22.  Whatever [malloc] and the connections do, and whatever the retry
    budget: the nodes creation leaves in a list that was empty have
    distinct serial ids and are all free, when creation succeeds and when
    it returns early. *)
Theorem created_pool_wf (connect : list (PGconn * bool)) (mallocs : list bool)
    (max_connection : Z) (e : ErrorCode) (created : list DBConnectionNode)
    (self_linked : bool) :
  SQL_create_database_connection_pool connect mallocs [] max_connection
    = Some (e, created, self_linked) →
  pool_wf created ∧ Forall (λ m, is_used m = 0) created.
Proof.
  intros Hc. apply create_loop_wf in Hc as [Hnd Hfree];
    [|constructor|constructor].
  split; [split; [done|]|done].
  eapply Forall_impl; [exact Hfree|]. auto.
Qed.

(** ** Allocation failures *)

Lemma malloc_loop_exhausted k : ∀ mallocs db_connection,
  (0 < k)%nat → Z.of_nat k ≤ INT_MAX →
  malloc_loop (replicate k true ++ mallocs) (Z.of_nat k) db_connection
  = (-1, mallocs, null).
Proof.
  induction k as [|k IH]; intros mallocs p Hk Hmax; [lia|].
  cbn [replicate app malloc_loop]. rewrite decide_False by lia.
  rewrite to_int_fits by (unfold fits_int, INT_MIN, INT_MAX in *; lia).
  replace (Z.of_nat (S k) - 1) with (Z.of_nat k) by lia.
  destruct k as [|k].
  - cbn [replicate app]. by destruct mallocs as [|[|] ?].
  - apply IH; lia.
Qed.

(** X23.  When [malloc] fails [MEMORY_ALLOCATE_RETRIES] times over in the
    first round, creation returns [E_MALLOC] and links nothing: the list is
    as it was. *)
Theorem create_pool_malloc_failure (connect : list (PGconn * bool))
    (mallocs : list bool) (head : list DBConnectionNode) (max_connection : Z) :
  0 < MEMORY_ALLOCATE_RETRIES ≤ INT_MAX →
  0 < max_connection →
  SQL_create_database_connection_pool connect
    (replicate (Z.to_nat MEMORY_ALLOCATE_RETRIES) true ++ mallocs) head
    max_connection
  = Some (E_MALLOC, head, false).
Proof.
  intros Hr Hmax. unfold SQL_create_database_connection_pool.
  destruct (Z.to_nat max_connection) as [|n] eqn:Hn; [lia|].
  cbn [create_loop].
  rewrite <- (Z2Nat.id MEMORY_ALLOCATE_RETRIES) at 2 by lia.
  by rewrite malloc_loop_exhausted by (rewrite ?Z2Nat.id; lia).
Qed.

(** ** A registration batch, statement by statement *)

Lemma registration_records_length numbers : ∀ saveptr,
  (length (registration_records numbers saveptr) ≤ numbers)%nat.
Proof.
  induction numbers as [|numbers IH]; intros saveptr; [simpl; lia|].
  destruct saveptr as [|? [|? [|? rest]]]; simpl; try lia.
  specialize (IH rest). lia.
Qed.

Lemma registration_loop_outcome numbers gateway db_conn db_serial_id :
  ∀ saveptr w,
  let recs := registration_records numbers saveptr in
  let k := accepted_run (faults w) numbers in
  if decide (length recs ≤ k ∧ length recs < numbers)%nat
  then registration_loop numbers gateway db_conn db_serial_id saveptr w = None
  else ∃ w',
    registration_loop numbers gateway db_conn db_serial_id saveptr w
    = Some (if decide (k = numbers) then WORK_SUCCESSFULLY else E_SQL_EXECUTE,
            release db_serial_id w') ∧
    lbeacon_table (database w')
    = foldl (register_beacon gateway (clock w)) (lbeacon_table (database w))
        (take k recs) ∧
    sent w'
    = sent w ++ ((λ r, (db_conn, registration_statement gateway r))
                   <$> take (S k) recs) ∧
    pool w' = pool w.
Proof.
  induction numbers as [|numbers IH]; intros saveptr w recs k.
  - subst recs k. cbn [registration_loop registration_records accepted_run].
    rewrite decide_False by (simpl; lia). exists w.
    rewrite decide_True by done. by rewrite app_nil_r.
  - subst recs k.
    destruct saveptr as [|uuid [|registered [|ip rest]]];
      cbn [registration_loop registration_records strtok_save];
      try (rewrite decide_True by (simpl; lia); done).
    cbn [accepted_run]. unfold SQL_execute, PQexec, server_exec.
    destruct (faults w) as [|[|] fs] eqn:Hf; cbn [tail].
    + specialize (IH rest
        (set_database
           (with_lbeacon_table
              (upsert_lbeacon uuid ip S_NORMAL_STATUS gateway registered
                 (uuid_coordinate_x uuid) (uuid_coordinate_y uuid) (clock w)
                 (lbeacon_table (database w))) (database w))
           (record_statement db_conn
              (INSERT_LBEACON_ON_CONFLICT uuid ip S_NORMAL_STATUS gateway
                 registered (uuid_coordinate_x uuid) (uuid_coordinate_y uuid)) w))).
      simpl in IH. rewrite Hf in IH. simpl in IH. simpl.
      repeat case_decide; try (simpl in *; lia); try done.
      all: destruct IH as (w' & -> & Ht & Hs & Hp); exists w';
        rewrite Ht, Hs, Hp, <- app_assoc; done.
    + simpl. eexists. split; [reflexivity|]. done.
    + specialize (IH rest
        (set_database
           (with_lbeacon_table
              (upsert_lbeacon uuid ip S_NORMAL_STATUS gateway registered
                 (uuid_coordinate_x uuid) (uuid_coordinate_y uuid) (clock w)
                 (lbeacon_table (database w))) (database w))
           (record_statement db_conn
              (INSERT_LBEACON_ON_CONFLICT uuid ip S_NORMAL_STATUS gateway
                 registered (uuid_coordinate_x uuid) (uuid_coordinate_y uuid)) w))).
      simpl in IH. rewrite Hf in IH. simpl in IH. simpl.
      repeat case_decide; try (simpl in *; lia); try done.
      all: destruct IH as (w' & -> & Ht & Hs & Hp); exists w';
        rewrite Ht, Hs, Hp, <- app_assoc; done.
Qed.

Lemma acquire_of_get w db_conn db_serial_id head' :
  SQL_get_database_connection (pool w)
    = (WORK_SUCCESSFULLY, Some (db_conn, db_serial_id), head') →
  acquire w = (Some (db_conn, db_serial_id), set_pool head' w).
Proof. intros Hget. unfold acquire. by rewrite Hget. Qed.

(** X5.  A registration payload whose first token announces [n > 0]
    beacons, [n] fitting in an [int], a connection being available: the
    loop sends one upsert per record, in order, on that connection, up to
    and including the first one the server rejects.  It returns
    [WORK_SUCCESSFULLY] when all [n] were accepted and [E_SQL_EXECUTE] at
    the first rejection; the beacons accepted before a rejection stay
    registered, and the connection is given back in both cases.  When the
    payload carries fewer complete records than announced and none of them
    is rejected, the loop reads past the last token and the call does not
    return. *)
Theorem registration_batch (buf gateway numbers_str : string) (w : World)
    (db_conn : PGconn) (db_serial_id : Z) (head' : list DBConnectionNode) :
  pool_wf (pool w) →
  SQL_get_database_connection (pool w)
    = (WORK_SUCCESSFULLY, Some (db_conn, db_serial_id), head') →
  head (tokenize buf) = Some numbers_str →
  0 < atoi numbers_str ≤ INT_MAX →
  let n := Z.to_nat (atoi numbers_str) in
  let recs := payload_beacons buf in
  let k := accepted_run (faults w) n in
  if decide (length recs ≤ k ∧ length recs < n)%nat
  then SQL_update_lbeacon_registration_status buf gateway w = None
  else ∃ w',
    SQL_update_lbeacon_registration_status buf gateway w
    = Some (if decide (k = n) then WORK_SUCCESSFULLY else E_SQL_EXECUTE, w') ∧
    lbeacon_table (database w')
    = foldl (register_beacon gateway (clock w)) (lbeacon_table (database w))
        (take k recs) ∧
    sent w'
    = sent w ++ ((λ r, (db_conn, registration_statement gateway r))
                   <$> take (S k) recs) ∧
    pool w' = pool w.
Proof.
  intros Hwf Hget Htok Hpos n recs k. subst n recs k.
  unfold SQL_update_lbeacon_registration_status, payload_beacons.
  destruct (tokenize buf) as [|numbers_str' saveptr]; [discriminate|].
  injection Htok as ->. cbn [strtok_save].
  rewrite (decide_False (P := atoi numbers_str ≤ 0)) by lia.
  rewrite (acquire_of_get _ _ _ _ Hget).
  destruct saveptr as [|not_used saveptr]; cbn [strtok_save].
  - destruct (Z.to_nat (atoi numbers_str)) as [|n] eqn:Hn; [lia|].
    cbn [registration_loop strtok_save]. rewrite decide_True; [done|].
    simpl. lia.
  - pose proof (registration_loop_outcome (Z.to_nat (atoi numbers_str)) gateway
                  db_conn db_serial_id saveptr (set_pool head' w)) as Hloop.
    simpl in Hloop. case_decide; [done|].
    destruct Hloop as (w' & -> & Ht & Hs & Hp).
    exists (release db_serial_id w'). repeat split; try done.
    apply (release_acquired w db_conn db_serial_id (set_pool head' w));
      [done|by apply acquire_of_get|done].
Qed.

(** ** The coordinates of a registered beacon *)

Lemma register_beacon_at_coordinates k gateway now recs : ∀ o,
  k ∈ (λ r, r.1.1) <$> recs →
  ∃ r, foldl (register_beacon_at k gateway now) o recs = Some r ∧
       lb_coordinate_x r = uuid_coordinate_x k ∧
       lb_coordinate_y r = uuid_coordinate_y k.
Proof.
  induction recs as [|rec recs IH] using rev_ind; intros o Hk.
  - by apply elem_of_nil in Hk.
  - rewrite foldl_snoc.
    destruct (decide (rec.1.1 = k)) as [Heq|Hne].
    + rewrite register_beacon_at_eq by done. rewrite Heq.
      eexists. split; [reflexivity|]. by destruct (foldl _ _ _).
    + rewrite register_beacon_at_ne by done.
      apply IH. rewrite fmap_app, elem_of_app in Hk. destruct Hk as [Hk|Hk]; [done|].
      apply list_elem_of_singleton in Hk. simpl in Hk. congruence.
Qed.

(** C7.  A registration payload announces [n > 0] beacons and carries
    their [n] records, a connection is available and the server accepts
    the [n] statements.  Then the call returns [WORK_SUCCESSFULLY], and for
    every record of the payload whose UUID has at least 32 characters, the
    characters [12..20) and [24..32) of which denote decimal integers [x]
    and [y]: the upsert sent for the record carries [coordinate_x = x] and
    [coordinate_y = y], and so does the row stored under the UUID when the
    call returns.  In particular the UUID
    0000000000010000123400000000567800000000 gives 1234 and 5678. *)
Theorem registration_coordinates (buf gateway numbers_str : string)
    (w : World) (db_conn : PGconn) (db_serial_id : Z)
    (head' : list DBConnectionNode) (uuid registered ip : string) (x y : Z) :
  SQL_get_database_connection (pool w)
    = (WORK_SUCCESSFULLY, Some (db_conn, db_serial_id), head') →
  head (tokenize buf) = Some numbers_str →
  0 < atoi numbers_str ≤ INT_MAX →
  length (payload_beacons buf) = Z.to_nat (atoi numbers_str) →
  accepted_run (faults w) (Z.to_nat (atoi numbers_str))
    = Z.to_nat (atoi numbers_str) →
  (uuid, registered, ip) ∈ payload_beacons buf →
  (32 ≤ String.length uuid)%nat →
  denotes_decimal (String.substring 12 8 uuid) x →
  denotes_decimal (String.substring 24 8 uuid) y →
  (∃ w',
     SQL_update_lbeacon_registration_status buf gateway w
     = Some (WORK_SUCCESSFULLY, w') ∧
     (db_conn, INSERT_LBEACON_ON_CONFLICT uuid ip S_NORMAL_STATUS gateway
                 registered x y) ∈ sent w' ∧
     ∃ r, lbeacon_table (database w') !! uuid = Some r ∧
          lb_coordinate_x r = x ∧ lb_coordinate_y r = y) ∧
  (uuid_coordinate_x "0000000000010000123400000000567800000000" = 1234 ∧
   uuid_coordinate_y "0000000000010000123400000000567800000000" = 5678).
Proof.
  intros Hget Htok Hpos Hall Hacc Hin _ Hx Hy.
  split; [|split; reflexivity].
  assert (Hcx : uuid_coordinate_x uuid = x) by by apply atoi_denotes_decimal.
  assert (Hcy : uuid_coordinate_y uuid = y) by by apply atoi_denotes_decimal.
  revert Hall Hin.
  unfold SQL_update_lbeacon_registration_status, payload_beacons.
  destruct (tokenize buf) as [|numbers_str' saveptr]; [discriminate|].
  injection Htok as ->. cbn [strtok_save].
  rewrite (decide_False (P := atoi numbers_str ≤ 0)) by lia.
  rewrite (acquire_of_get _ _ _ _ Hget).
  destruct saveptr as [|not_used saveptr]; cbn [strtok_save];
    [by intros _ ?%elem_of_nil|].
  intros Hall Hin.
  pose proof (registration_loop_outcome (Z.to_nat (atoi numbers_str)) gateway
                db_conn db_serial_id saveptr (set_pool head' w)) as Hloop.
  simpl in Hloop. rewrite Hacc, Hall in Hloop.
  rewrite decide_False in Hloop by lia.
  destruct Hloop as (w' & -> & Ht & Hs & Hp).
  rewrite decide_True by done.
  exists (release db_serial_id w'). split; [done|]. split.
  - simpl. rewrite Hs. apply elem_of_app. right.
    rewrite take_ge by lia.
    apply list_elem_of_fmap. eexists. split; [|exact Hin].
    unfold registration_statement. simpl. by rewrite Hcx, Hcy.
  - simpl. rewrite Ht, firstn_all2 by lia.
    rewrite lookup_foldl_register_beacon.
    destruct (register_beacon_at_coordinates uuid gateway (clock w)
                (registration_records (Z.to_nat (atoi numbers_str)) saveptr)
                (lbeacon_table (database w) !! uuid)) as (r & Hr & Hrx & Hry).
    { apply list_elem_of_fmap. by exists (uuid, registered, ip). }
    exists r. split; [done|]. by rewrite Hrx, Hry.
Qed.

(** ** Ingestion of a well-formed tracking report *)

Lemma SQL_execute_frame db_conn q w :
  pool (SQL_execute db_conn q w).2 = pool w ∧
  clock (SQL_execute db_conn q w).2 = clock w ∧
  faults (SQL_execute db_conn q w).2 = tail (faults w) ∧
  sent (SQL_execute db_conn q w).2 = sent w ++ [(db_conn, q)] ∧
  files (SQL_execute db_conn q w).2 = files w ∧
  unwritable (SQL_execute db_conn q w).2 = unwritable w.
Proof.
  unfold SQL_execute, PQexec.
  destruct (server_exec q (clock w) (files w) (database w)) as [d res].
  destruct (faults w) as [|[|] ?] eqn:Hf; simpl; rewrite ?Hf; try done;
    destruct (decide (PQresultStatus res ≠ PGRES_COMMAND_OK)); simpl;
    by rewrite ?Hf.
Qed.

Lemma SQL_execute_database db_conn q w :
  database (SQL_execute db_conn q w).2
  = if decide (head (faults w) = Some true) then database w
    else (server_exec q (clock w) (files w) (database w)).1.
Proof.
  unfold SQL_execute, PQexec.
  destruct (server_exec q (clock w) (files w) (database w)) as [d res].
  destruct (faults w) as [|[|] ?]; simpl; try done;
    by destruct (decide (PQresultStatus res ≠ PGRES_COMMAND_OK)).
Qed.

Lemma SQL_execute_code db_conn q w :
  (SQL_execute db_conn q w).1
  = if decide (head (faults w) = Some true ∨
               PQresultStatus (server_exec q (clock w) (files w) (database w)).2
               ≠ PGRES_COMMAND_OK)
    then E_SQL_EXECUTE else WORK_SUCCESSFULLY.
Proof.
  unfold SQL_execute, PQexec.
  destruct (server_exec q (clock w) (files w) (database w)) as [d res].
  destruct (faults w) as [|[|] ?]; simpl; repeat case_decide; try done.
  all: try by match goal with H : _ ∨ _ |- _ => destruct H as [?|?] end.
  all: exfalso; match goal with H : ¬ (_ ∨ _) |- _ => apply H end;
    first [by left|by right].
Qed.

Lemma identify_panic_tracking_table mac p now d :
  tracking_table (identify_panic mac p now d) = tracking_table d.
Proof. unfold identify_panic. by case_match. Qed.

Lemma drop_tail {A} n (l : list A) : drop n (tail l) = drop (S n) l.
Proof. destruct l; [by destruct n|done]. Qed.

Lemma tracking_records_well_formed filename lbeacon_uuid offset db_conn
    db_serial_id rs : ∀ rest w head' lines,
  pool_wf (pool w) →
  SQL_get_database_connection (pool w)
    = (WORK_SUCCESSFULLY, Some (db_conn, db_serial_id), head') →
  files w !! filename = Some lines →
  ∃ w',
    tracking_records (length rs) filename lbeacon_uuid offset
      (concat (record_tokens <$> rs) ++ rest) w = Some (rest, w') ∧
    pool w' = pool w ∧ clock w' = clock w ∧ unwritable w' = unwritable w ∧
    files w'
    = <[filename := lines ++ (tracking_line lbeacon_uuid offset <$> rs)]>
        (files w) ∧
    tracking_table (database w') = tracking_table (database w) ∧
    faults w' = drop (length (filter panics rs)) (faults w) ∧
    sent w'
    = sent w ++ ((λ r, (db_conn, IDENTIFY_PANIC (t_mac_address r) MONITOR_PANIC))
                   <$> filter panics rs) ∧
    database w' = panic_stamps (clock w) rs (faults w) (database w).
Proof.
  induction rs as [|r rs IH]; intros rest w head' lines Hwf Hget Hfile.
  - exists w. simpl. rewrite !app_nil_r, insert_id by done. done.
  - assert (Htok : concat (record_tokens <$> r :: rs) ++ rest
                   = t_mac_address r :: t_initial_timestamp r
                     :: t_final_timestamp r :: t_rssi r :: t_panic_button r
                     :: t_battery_voltage r
                     :: concat (record_tokens <$> rs) ++ rest) by done.
    rewrite Htok. cbn [length tracking_records strtok_save panic_stamps].
    unfold panic_stamp. rewrite filter_cons.
    destruct (decide (1 = atoi (t_panic_button r))) as [Hp|Hp];
      [rewrite (decide_True (P := panics r)) by done
      |rewrite (decide_False (P := panics r)) by done].
    + rewrite (acquire_of_get _ _ _ _ Hget).
      destruct (SQL_execute_frame db_conn
                  (IDENTIFY_PANIC (t_mac_address r) MONITOR_PANIC)
                  (set_pool head' w)) as (Hpool & Hclock & Hfaults & Hsent & Hfiles & Hunw).
      pose proof (SQL_execute_database db_conn
                  (IDENTIFY_PANIC (t_mac_address r) MONITOR_PANIC)
                  (set_pool head' w)) as Hdb.
      destruct (SQL_execute _ _ _) as [ret_val w1]. cbn [snd] in *.
      cbv beta iota.
      assert (Hrel : ∃ w2, release db_serial_id w1 = w2 ∧ pool w2 = pool w ∧
                database w2 = database w1 ∧ clock w2 = clock w1 ∧
                faults w2 = faults w1 ∧ sent w2 = sent w1 ∧
                files w2 = files w1 ∧ unwritable w2 = unwritable w1).
      { eexists. split; [reflexivity|]. split; [|done].
        apply (release_acquired w db_conn db_serial_id (set_pool head' w));
          [done|by apply acquire_of_get|done]. }
      destruct Hrel as (w2 & -> & Rp & Rd & Rc & Rf & Rs & Rfi & Ru).
      simpl in *.
      edestruct (IH rest (fprintf_line filename
                            (tracking_line lbeacon_uuid offset r) w2) head'
                   (lines ++ [tracking_line lbeacon_uuid offset r]))
        as (w' & Hrec & Hp' & Hc' & Hu' & Hf' & Ht' & Hfa' & Hs' & Hd').
      { simpl. by rewrite Rp. }
      { simpl. by rewrite Rp. }
      { simpl. rewrite Rfi, Hfiles. by rewrite lookup_alter_eq, Hfile. }
      exists w'. split; [exact Hrec|]. simpl in *.
      rewrite Hp', Hc', Hu', Hf', Ht', Hfa', Hs', Hd', Rp, Rd, Rc, Rf, Rs, Rfi,
        Ru, Hclock, Hunw, Hfiles, Hfaults, Hsent, Hdb, drop_tail, <- !app_assoc.
      repeat split; try done.
      * apply map_eq. intros f. destruct (decide (f = filename)) as [->|Hne].
        -- by rewrite !lookup_insert_eq.
        -- by rewrite !lookup_insert_ne, lookup_alter_ne by done.
      * case_decide; [done|]. apply identify_panic_tracking_table.
      * by rewrite (decide_True (P := panics r)).
    + edestruct (IH rest (fprintf_line filename
                            (tracking_line lbeacon_uuid offset r) w) head'
                   (lines ++ [tracking_line lbeacon_uuid offset r]))
        as (w' & Hrec & Hp' & Hc' & Hu' & Hf' & Ht' & Hfa' & Hs' & Hd').
      { done. } { done. }
      { simpl. by rewrite lookup_alter_eq, Hfile. }
      exists w'. split; [exact Hrec|]. simpl in *.
      rewrite Hp', Hc', Hu', Hf', Ht', Hfa', Hs', Hd', <- !app_assoc.
      repeat split; try done.
      * apply map_eq. intros f. destruct (decide (f = filename)) as [->|Hne].
        -- by rewrite !lookup_insert_eq.
        -- by rewrite !lookup_insert_ne, lookup_alter_ne by done.
      * by rewrite (decide_False (P := panics r)).
Qed.

Lemma while_count_length {A} (l : list A) :
  Z.of_nat (length l) < 2 ^ 32 → while_count (Z.of_nat (length l)) = length l.
Proof.
  intros Hlt. unfold while_count. rewrite Z.mod_small by lia. apply Nat2Z.id.
Qed.

Lemma head_drop {A} n (l : list A) : head (drop n l) = l !! n.
Proof.
  revert l. induction n as [|n IH]; intros [|x l]; simpl; auto.
Qed.

Lemma panic_stamps_app now rs1 rs2 : ∀ fs d,
  panic_stamps now (rs1 ++ rs2) fs d
  = panic_stamps now rs2 (drop (length (filter panics rs1)) fs)
      (panic_stamps now rs1 fs d).
Proof.
  induction rs1 as [|r rs1 IH]; intros fs d; [done|].
  cbn [app panic_stamps]. rewrite filter_cons.
  destruct (decide (panics r)); [|apply IH].
  rewrite IH. cbn [length]. by rewrite drop_tail.
Qed.

Lemma tracking_report_world (buf path : string) (flag thread : Z)
    (w : World)
    (lbeacon_uuid lbeacon_timestamp lbeacon_ip : string)
    (type1 number1 type2 number2 : string)
    (rs1 rs2 : list TrackingRecord) (rest : list string)
    (db_conn : PGconn) (db_serial_id : Z) (head' : list DBConnectionNode) :
  tokenize buf
  = lbeacon_uuid :: lbeacon_timestamp :: lbeacon_ip
    :: type1 :: number1 :: concat (record_tokens <$> rs1)
    ++ type2 :: number2 :: concat (record_tokens <$> rs2) ++ rest →
  atoi number1 = Z.of_nat (length rs1) →
  atoi number2 = Z.of_nat (length rs2) →
  Z.of_nat (length rs1) < 2 ^ 32 →
  Z.of_nat (length rs2) < 2 ^ 32 →
  track_filename path thread ∉ unwritable w →
  pool_wf (pool w) →
  SQL_get_database_connection (pool w)
    = (WORK_SUCCESSFULLY, Some (db_conn, db_serial_id), head') →
  let filename := track_filename path thread in
  let lines :=
    tracking_line lbeacon_uuid (get_system_time w - atoi lbeacon_timestamp)
      <$> rs1 ++ rs2 in
  let stamps :=
    (λ r, (db_conn, IDENTIFY_PANIC (t_mac_address r) MONITOR_PANIC))
      <$> filter panics (rs1 ++ rs2) in
  let copy_rejected := faults w !! length stamps = Some true in
  let stamped := panic_stamps (clock w) (rs1 ++ rs2) (faults w) (database w) in
  ∃ w',
    SQL_update_object_tracking_data_with_battery_voltage buf path flag thread w
    = Some (if decide copy_rejected then E_SQL_EXECUTE else WORK_SUCCESSFULLY,
            w') ∧
    sent w' = sent w ++ stamps ++ [(db_conn, COPY_TRACKING filename)] ∧
    tracking_table (database w')
    = tracking_table (database w) ++ (if decide copy_rejected then [] else lines) ∧
    files w' = delete filename (files w) ∧
    pool w' = pool w ∧
    clock w' = clock w ∧
    faults w' = drop (S (length stamps)) (faults w) ∧
    database w'
    = if decide copy_rejected then stamped
      else with_tracking_table (tracking_table stamped ++ lines) stamped.
Proof.
  intros Htok Hn1 Hn2 Hlt1 Hlt2 Hopen Hwf Hget filename lines stamps
    copy_rejected stamped.
  unfold SQL_update_object_tracking_data_with_battery_voltage, fopen_wt.
  fold filename. rewrite decide_False by done. rewrite Htok.
  cbn [strtok_save tracking_types]. rewrite Hn1, while_count_length by done.
  set (offset := get_system_time w - atoi lbeacon_timestamp) in *.
  destruct (tracking_records_well_formed filename lbeacon_uuid offset db_conn
              db_serial_id rs1
              (type2 :: number2 :: concat (record_tokens <$> rs2) ++ rest)
              (set_files (<[filename := []]> (files w)) w) head' [])
    as (w1 & -> & Hp1 & Hc1 & Hu1 & Hf1 & Ht1 & Hfa1 & Hs1 & Hd1);
    [done|done|apply lookup_insert_eq|].
  cbn [strtok_save]. rewrite Hn2, while_count_length by done.
  destruct (tracking_records_well_formed filename lbeacon_uuid offset db_conn
              db_serial_id rs2 rest w1 head'
              (tracking_line lbeacon_uuid offset <$> rs1))
    as (w2 & -> & Hp2 & Hc2 & Hu2 & Hf2 & Ht2 & Hfa2 & Hs2 & Hd2);
    [by rewrite Hp1|by rewrite Hp1|by rewrite Hf1; apply lookup_insert_eq|].
  simpl in Hp1, Hc1, Hu1, Hf1, Ht1, Hfa1, Hs1, Hd1.
  unfold fclose.
  rewrite (acquire_of_get w2 db_conn db_serial_id head')
    by (by rewrite Hp2, Hp1).
  destruct (SQL_execute_frame db_conn (COPY_TRACKING filename)
              (set_pool head' w2)) as (Ep & Ec & Efa & Es & Ef & Eu).
  pose proof (SQL_execute_database db_conn (COPY_TRACKING filename)
                (set_pool head' w2)) as Ed.
  pose proof (SQL_execute_code db_conn (COPY_TRACKING filename)
                (set_pool head' w2)) as Ecode.
  destruct (SQL_execute _ _ _) as [ret_val w3]. cbn [fst snd] in *.
  assert (Hback : pool (release db_serial_id w3) = pool w).
  { rewrite <- Hp1, <- Hp2.
    apply (release_acquired w2 db_conn db_serial_id (set_pool head' w2));
      [by rewrite Hp2, Hp1|apply acquire_of_get; by rewrite Hp2, Hp1|done]. }
  assert (Hfile : files w2 !! filename = Some lines).
  { rewrite Hf2, lookup_insert_eq. subst lines. by rewrite fmap_app. }
  assert (Hhead : head (faults w2) = faults w !! length stamps).
  { rewrite Hfa2, Hfa1, drop_drop, head_drop. subst stamps.
    rewrite length_fmap, filter_app, length_app. f_equal; lia. }
  simpl in Ed, Ecode, Es. rewrite Hfile, Hhead in Ed, Ecode. simpl in Ed, Ecode.
  exists (remove filename (release db_serial_id w3)).
  split; [|split; [|split; [|split; [|split; [|split; [|split]]]]]].
  - subst ret_val. subst copy_rejected.
    repeat case_decide; try done.
    all: try by match goal with H : _ ∨ _ |- _ => destruct H as [?|?] end.
    all: exfalso; match goal with H : ¬ (_ ∨ _) |- _ => apply H end; by left.
  - simpl. rewrite Es, Hs2, Hs1. subst stamps.
    by rewrite filter_app, fmap_app, <- !app_assoc.
  - simpl. rewrite Ed. subst copy_rejected.
    destruct (decide _); simpl; by rewrite ?Ht2, ?Ht1, ?app_nil_r.
  - simpl. rewrite Ef. simpl. rewrite Hf2, Hf1.
    apply map_eq. intros f. destruct (decide (f = filename)) as [->|Hne].
    + by rewrite !lookup_delete_eq.
    + by rewrite !lookup_delete_ne, !lookup_insert_ne by done.
  - exact Hback.
  - simpl. rewrite Ec. simpl. by rewrite Hc2, Hc1.
  - simpl. rewrite Efa. simpl.
    transitivity (drop 1 (faults w2)); [by destruct (faults w2)|].
    rewrite Hfa2, Hfa1, !drop_drop. subst stamps. rewrite length_fmap, filter_app, length_app. f_equal; lia.
  - assert (Hst : database w2 = stamped).
    { subst stamped. by rewrite panic_stamps_app, Hd2, Hd1, Hc1, Hfa1. }
    simpl. rewrite Ed, Hst. subst copy_rejected. by destruct (decide _).
Qed.

(** X6.  A report that carries, for each of its two object types, as many
    complete records as it announces, while a connection is available and
    the temporary file can be opened; the counts, the timestamps and the
    panic fields of the report denote numbers that fit in an [int], and so
    do the time of the server and its distance from the time of the
    report.  Then one line per record is written, in the order of the
    report; one panic statement is sent for each record whose panic field
    reads 1, whether the server accepts it or not; then the file is copied
    into [tracking_table] by one COPY statement and removed.  The return
    code is that of the COPY alone: [E_SQL_EXECUTE] when it is rejected, in
    which case no row is loaded, and [WORK_SUCCESSFULLY] otherwise.  The
    connections are all given back. *)
Theorem tracking_report_ingested (buf path : string) (flag thread : Z)
    (w : World)
    (lbeacon_uuid lbeacon_timestamp lbeacon_ip : string)
    (type1 number1 type2 number2 : string)
    (rs1 rs2 : list TrackingRecord) (rest : list string)
    (db_conn : PGconn) (db_serial_id : Z) (head' : list DBConnectionNode) :
  tokenize buf
  = lbeacon_uuid :: lbeacon_timestamp :: lbeacon_ip
    :: type1 :: number1 :: concat (record_tokens <$> rs1)
    ++ type2 :: number2 :: concat (record_tokens <$> rs2) ++ rest →
  atoi number1 = Z.of_nat (length rs1) →
  atoi number2 = Z.of_nat (length rs2) →
  Z.of_nat (length rs1) ≤ INT_MAX →
  Z.of_nat (length rs2) ≤ INT_MAX →
  Forall record_fits (rs1 ++ rs2) →
  fits_int (get_system_time w) →
  fits_int (atoi lbeacon_timestamp) →
  fits_int (get_system_time w - atoi lbeacon_timestamp) →
  track_filename path thread ∉ unwritable w →
  pool_wf (pool w) →
  SQL_get_database_connection (pool w)
    = (WORK_SUCCESSFULLY, Some (db_conn, db_serial_id), head') →
  let filename := track_filename path thread in
  let lines :=
    tracking_line lbeacon_uuid (get_system_time w - atoi lbeacon_timestamp)
      <$> rs1 ++ rs2 in
  let stamps :=
    (λ r, (db_conn, IDENTIFY_PANIC (t_mac_address r) MONITOR_PANIC))
      <$> filter panics (rs1 ++ rs2) in
  let copy_rejected := faults w !! length stamps = Some true in
  ∃ w',
    SQL_update_object_tracking_data_with_battery_voltage buf path flag thread w
    = Some (if decide copy_rejected then E_SQL_EXECUTE else WORK_SUCCESSFULLY,
            w') ∧
    sent w' = sent w ++ stamps ++ [(db_conn, COPY_TRACKING filename)] ∧
    tracking_table (database w')
    = tracking_table (database w) ++ (if decide copy_rejected then [] else lines) ∧
    files w' = delete filename (files w) ∧
    pool w' = pool w.
Proof.
  intros Htok Hn1 Hn2 Hlt1 Hlt2 _ _ _ _ Hopen Hwf Hget.
  unfold INT_MAX in Hlt1, Hlt2.
  destruct (tracking_report_world buf path flag thread w lbeacon_uuid
              lbeacon_timestamp lbeacon_ip type1 number1 type2 number2
              rs1 rs2 rest db_conn db_serial_id head')
    as (w' & Hcall & Hsent & Htable & Hfiles & Hpool & _); try done; try lia.
  by exists w'.
Qed.

(** ** The drain: its buffer, and updates the server rejects *)

Lemma string_length_app (s1 s2 : string) :
  String.length (s1 +:+ s2) = (String.length s1 + String.length s2)%nat.
Proof. induction s1 as [|c s1 IH]; simpl; [done|]. by rewrite IH. Qed.

Lemma string_app_assoc (s1 s2 s3 : string) :
  (s1 +:+ s2) +:+ s3 = s1 +:+ (s2 +:+ s3).
Proof.
  induction s1 as [|c s1 IH]; [done|].
  change (String c ((s1 +:+ s2) +:+ s3) = String c (s1 +:+ (s2 +:+ s3))).
  by rewrite IH.
Qed.

Lemma string_app_empty (s : string) : s +:+ EmptyString = s.
Proof.
  induction s as [|c s IH]; [done|].
  change (String c (s +:+ EmptyString) = String c s). by rewrite IH.
Qed.

Lemma drain_tuples_buffer db_conn db_serial_id buf_len rows : ∀ buf w,
  (∃ suffix,
     (drain_tuples db_conn db_serial_id buf_len rows buf w).1.2
     = buf +:+ suffix) ∧
  ((String.length (drain_tuples db_conn db_serial_id buf_len rows buf w).1.2
    < buf_len)%nat ∨
   (drain_tuples db_conn db_serial_id buf_len rows buf w).1.2 = buf).
Proof.
  induction rows as [|tuple rows IH]; intros buf w; cbn [drain_tuples].
  - split; [exists EmptyString; simpl; by rewrite string_app_empty|by right].
  - destruct (decide (fits buf_len buf (one_record tuple))) as [Hfit|Hmis];
      [|apply IH].
    unfold fits in Hfit.
    destruct (PQgetvalue tuple FIELD_INDEX_OF_ID) as [id|]; cbn [fst snd].
    + destruct (SQL_execute _ _ w) as [ret_val w1].
      destruct (IH (buf +:+ one_record tuple) w1) as [[suffix Hs] Hlen].
      split.
      * exists (one_record tuple +:+ suffix).
        by rewrite Hs, string_app_assoc.
      * left. destruct Hlen as [Hlen| ->]; [done|].
        rewrite string_length_app. lia.
    + split; [by eexists|]. left. rewrite string_length_app. lia.
Qed.

(** X7.  Whatever the server and the pool do, the drain only appends to the
    caller's buffer, and what it returns is shorter than [buf_len]: a
    record is appended only when a byte is left after it for the final
    zero.  A buffer that is full already comes back as it was. *)
Theorem drain_never_overflows (buf : string) (buf_len : nat) (w : World) :
  (∃ suffix,
     (SQL_get_and_update_violation_events buf buf_len w).1.2 = buf +:+ suffix) ∧
  ((String.length (SQL_get_and_update_violation_events buf buf_len w).1.2
    < buf_len)%nat ∨
   (SQL_get_and_update_violation_events buf buf_len w).1.2 = buf).
Proof.
  unfold SQL_get_and_update_violation_events.
  assert (Hsame : ∀ (e : ErrorCode) (w' : World),
    (∃ suffix, (e, buf, w').1.2 = buf +:+ suffix) ∧
    ((String.length (e, buf, w').1.2 < buf_len)%nat ∨ (e, buf, w').1.2 = buf)).
  { intros e w'. split; [|by right].
    exists EmptyString. simpl. by rewrite string_app_empty. }
  destruct (acquire w) as [[[db_conn db_serial_id]|] w0]; [|apply Hsame].
  destruct (PQexec db_conn SELECT_UNPROCESSED w0) as [res w1].
  destruct (decide _); [apply Hsame|].
  destruct (decide _); [apply drain_tuples_buffer|apply Hsame].
Qed.

Lemma drain_tuples_outcome db_conn db_serial_id buf_len rows : ∀ buf w,
  ∃ w1,
    drain_tuples db_conn db_serial_id buf_len (notification_text <$> rows) buf w
    = (WORK_SUCCESSFULLY,
       append_records buf (appended buf_len buf rows),
       release db_serial_id w1) ∧
    database w1
    = foldl (λ d n, update_processed (n_id n) d) (database w)
        (kept_rows (faults w) (appended buf_len buf rows)).
Proof.
  induction rows as [|n rows IH]; intros buf w.
  - by exists w.
  - rewrite fmap_cons. cbn [drain_tuples appended]. fold (record_of n).
    destruct (decide (fits buf_len buf (record_of n))) as [Hfit|Hmis];
      [|apply IH].
    rewrite PQgetvalue_id, atoi_pretty.
    destruct (SQL_execute_frame db_conn (UPDATE_PROCESSED (n_id n)) w)
      as (_ & _ & Hfaults & _).
    pose proof (SQL_execute_database db_conn (UPDATE_PROCESSED (n_id n)) w)
      as Hdb.
    destruct (SQL_execute _ _ w) as [ret_val w0]. cbn [snd] in *.
    destruct (IH (buf +:+ record_of n) w0) as (w1 & -> & Hd).
    exists w1. split; [done|]. rewrite Hd, Hfaults, Hdb.
    cbn [kept_rows]. by destruct (faults w) as [|[|] fs].
Qed.

Lemma kept_rows_subset {A} (rows : list A) : ∀ fs n,
  n ∈ kept_rows fs rows → n ∈ rows.
Proof.
  induction rows as [|m rows IH]; intros fs n; cbn [kept_rows]; [done|].
  destruct fs as [|[|] fs]; rewrite ?elem_of_cons; intros H.
  - destruct H as [->|H]; [by left|]. right. by eapply IH.
  - right. by eapply IH.
  - destruct H as [->|H]; [by left|]. right. by eapply IH.
Qed.

Lemma elem_of_unprocessed d n :
  n ∈ unprocessed d ↔ n ∈ notification_table d ∧ n_processed n ≠ 1.
Proof.
  rewrite unprocessed_Permutation, list_elem_of_filter. by split; intros [? ?].
Qed.

(** X8.  A drain that has a connection and whose SELECT is accepted returns
    [WORK_SUCCESSFULLY] and the same buffer whether or not the server
    accepts the UPDATEs that follow: the result of each UPDATE is dropped.
    [processed = 1] is set for the appended rows whose UPDATE was accepted
    and for no other row, so an appended row whose UPDATE was rejected is a
    candidate of the next call again, and a row that was marked never is. *)
Theorem drain_with_rejected_updates (buf : string) (buf_len : nat)
    (w : World) :
  is_Some (acquire w).1 →
  head (faults w) ≠ Some true →
  NoDup (n_id <$> notification_table (database w)) →
  let delivered := appended buf_len buf (unprocessed (database w)) in
  let marked := kept_rows (tail (faults w)) delivered in
  (SQL_get_and_update_violation_events buf buf_len w).1.1 = WORK_SUCCESSFULLY ∧
  (SQL_get_and_update_violation_events buf buf_len w).1.2
    = append_records buf delivered ∧
  notification_table
    (database (SQL_get_and_update_violation_events buf buf_len w).2)
  = mark_processed marked <$> notification_table (database w) ∧
  ∀ n,
    n ∈ unprocessed
          (database (SQL_get_and_update_violation_events buf buf_len w).2) ↔
    n ∈ unprocessed (database w) ∧ n ∉ marked.
Proof.
  intros [[db_conn db_serial_id] Hacq] Hf Hids delivered marked.
  assert (Hsub : ∀ n, n ∈ marked → n ∈ notification_table (database w)).
  { intros n Hn.
    by apply kept_rows_subset, appended_subset, unprocessed_subset in Hn. }
  assert (Hout : ∃ w1,
    SQL_get_and_update_violation_events buf buf_len w
    = (WORK_SUCCESSFULLY, append_records buf delivered, w1) ∧
    database w1
    = foldl (λ d n, update_processed (n_id n) d) (database w) marked).
  { unfold SQL_get_and_update_violation_events.
    destruct (acquire_frame w) as (Hd & _ & Hf0 & _).
    destruct (acquire w) as [o w0]. simpl in Hacq, Hd, Hf0. subst o.
    unfold PQexec. rewrite Hf0. cbn [server_exec].
    set (w1 := set_database _ _).
    assert (Hw1 : ∃ w2,
      drain_tuples db_conn db_serial_id buf_len
        (notification_text <$> unprocessed (database w)) buf w1
      = (WORK_SUCCESSFULLY, append_records buf delivered,
         release db_serial_id w2) ∧
      database w2
      = foldl (λ d n, update_processed (n_id n) d) (database w) marked).
    { destruct (drain_tuples_outcome db_conn db_serial_id buf_len
                  (unprocessed (database w)) buf w1) as (w2 & Hdrain & Hd2).
      exists w2. split; [done|]. rewrite Hd2. subst w1. simpl.
      by rewrite Hd, Hf0. }
    destruct Hw1 as (w2 & Hdrain & Hd2).
    exists (release db_serial_id w2). split; [|done].
    destruct (faults w) as [|[|] fs]; [| by destruct Hf |]; cbn iota.
    all: rewrite decide_False by (simpl; not_ne).
    all: cbn [tuples PQnfields]; rewrite Hd; fold w1.
    all: destruct (decide _) as [_|Hnone]; [done|].
    all: assert (unprocessed (database w) = []) as Hempty
      by (unfold PQntuples in Hnone; cbn [tuples] in Hnone;
          rewrite length_fmap in Hnone;
          destruct (unprocessed (database w)); [done|];
          exfalso; apply Hnone; split; [simpl; lia|done]).
    all: subst delivered; rewrite Hempty in Hdrain |- *; exact Hdrain. }
  destruct Hout as (w1 & -> & Hd1). cbn [fst snd].
  assert (Htable : notification_table (database w1)
                   = mark_processed marked <$> notification_table (database w)).
  { rewrite Hd1, processed_after_updates.
    apply list_fmap_ext. intros i n Hn. apply list_elem_of_lookup_2 in Hn.
    unfold mark_processed.
    destruct (decide (n ∈ marked)) as [Hin|Hnotin].
    - rewrite decide_True; [done|]. by apply list_elem_of_fmap_2.
    - rewrite decide_False; [done|]. intros Hid. apply Hnotin.
      apply list_elem_of_fmap in Hid as (m & Hid & Hm).
      assert (n = m) as ->; [|done].
      eapply (NoDup_fmap_eq n_id); eauto. }
  repeat split; try done.
  - rewrite elem_of_unprocessed, Htable in H.
    destruct H as [Hin Hp].
    apply list_elem_of_fmap in Hin as (n0 & -> & Hn0).
    unfold mark_processed in *.
    destruct (decide (n0 ∈ marked)); [by destruct Hp|].
    by apply elem_of_unprocessed.
  - rewrite elem_of_unprocessed, Htable in H.
    destruct H as [Hin Hp].
    apply list_elem_of_fmap in Hin as (n0 & -> & Hn0).
    unfold mark_processed in *.
    by destruct (decide (n0 ∈ marked)); [destruct Hp|].
  - intros [Hun Hnot]. apply elem_of_unprocessed in Hun as [Hin Hp].
    apply elem_of_unprocessed. split; [|done]. rewrite Htable.
    apply list_elem_of_fmap. exists n. split; [|done].
    unfold mark_processed. by rewrite decide_False.
Qed.

(** ** The collection of violation events, called again *)

Lemma collect_cases monitor_type interval g w :
  ((SQL_collect_violation_events monitor_type interval g w).1
     = WORK_SUCCESSFULLY ∧
   ∃ c, violation_timestamp_name monitor_type = Some c ∧
        database (SQL_collect_violation_events monitor_type interval g w).2
        = insert_notification monitor_type c interval g (clock w) (database w)) ∨
  ((SQL_collect_violation_events monitor_type interval g w).1
     ≠ WORK_SUCCESSFULLY ∧
   database (SQL_collect_violation_events monitor_type interval g w).2
   = database w).
Proof.
  unfold SQL_collect_violation_events.
  destruct (violation_timestamp_name monitor_type) as [c|]; [|by right].
  destruct (acquire_frame w) as (Hd & Hc & _ & _ & Hfs).
  destruct (acquire w) as [[[db_conn db_serial_id]|] w0]; simpl in *;
    [|by right].
  pose proof (SQL_execute_code db_conn
                (INSERT_NOTIFICATION monitor_type c interval g) w0) as Hcode.
  pose proof (SQL_execute_database db_conn
                (INSERT_NOTIFICATION monitor_type c interval g) w0) as Hdb.
  destruct (SQL_execute _ _ w0) as [ret_val w1]. simpl in Hcode, Hdb.
  subst ret_val. destruct (decide (_ ∨ _)) as [Hrej|Hacc].
  - rewrite decide_True by done. right. split; [done|]. simpl.
    destruct Hrej as [Hrej|Hrej]; [|by destruct Hrej].
    rewrite Hdb, decide_True by done. done.
  - rewrite decide_False by not_ne. left. split; [done|]. exists c.
    split; [done|]. simpl. rewrite Hdb, decide_False, Hd, Hc; [done|].
    intros Hrej. apply Hacc. by left.
Qed.

Lemma new_notifications_covers m rows : ∀ seq s t,
  (s, t) ∈ rows →
  ∃ r, r ∈ new_notifications seq m rows ∧ n_monitor_type r = m ∧
       n_violation_timestamp r = t.
Proof.
  induction rows as [|[s' t'] rows IH]; intros seq s t; simpl.
  - by intros ?%elem_of_nil.
  - rewrite elem_of_cons. intros [[= -> ->]|Hin].
    + eexists. split; [by left|done].
    + destruct (IH (seq + 1) s t Hin) as (r & Hr & ?).
      exists r. split; [by right|done].
Qed.

Lemma selected_violations_again m c interval g now later d :
  0 < g → now ≤ later →
  selected_violations m c interval g later
    (insert_notification m c interval g now d) = [].
Proof.
  intros Hg Hlater. apply elem_of_nil_inv. intros [s t] Hin.
  apply elem_of_selected_violations in Hin as (Hs & Hc & Hwin & Hnone).
  cbn [insert_notification with_notification_table notification_table
       object_summary_table] in Hs, Hnone.
  assert (Hsome : notification_exists
            (notification_table d ++
             new_notifications (notification_id_seq d) m
               (selected_violations m c interval g now d)) m t g = true);
    [|congruence].
  apply notification_exists_true.
  destruct (notification_exists (notification_table d) m t g) eqn:Hold.
  - apply notification_exists_true in Hold as (n & Hn & ?).
    exists n. split; [|done]. apply elem_of_app. by left.
  - assert (Hsel : (s, t) ∈ selected_violations m c interval g now d).
    { apply elem_of_selected_violations. repeat split; try done.
      unfold usec_per_sec in *. nia. }
    destruct (new_notifications_covers m _ (notification_id_seq d) s t Hsel)
      as (r & Hr & Hm & Ht).
    exists r. split; [apply elem_of_app; by right|]. split; [done|].
    rewrite Ht. unfold usec_per_sec. lia.
Qed.

(** X9.  With a positive granularity, a collection that follows a
    successful collection of the same monitor type, with the same interval
    and granularity, at the same time or later, and finds
    [object_summary_table] as the first call left it, adds no
    notification. *)
Theorem collect_again_adds_nothing (monitor_type time_interval_in_sec
    granularity_for_continuous_violations_in_sec later : Z) (w : World) :
  0 < granularity_for_continuous_violations_in_sec →
  clock w ≤ later →
  (SQL_collect_violation_events monitor_type time_interval_in_sec
     granularity_for_continuous_violations_in_sec w).1 = WORK_SUCCESSFULLY →
  notification_table
    (database
       (SQL_collect_violation_events monitor_type time_interval_in_sec
          granularity_for_continuous_violations_in_sec
          (set_clock later
             (SQL_collect_violation_events monitor_type time_interval_in_sec
                granularity_for_continuous_violations_in_sec w).2)).2)
  = notification_table
      (database
         (SQL_collect_violation_events monitor_type time_interval_in_sec
            granularity_for_continuous_violations_in_sec w).2).
Proof.
  intros Hg Hlater Hok.
  destruct (collect_cases monitor_type time_interval_in_sec
              granularity_for_continuous_violations_in_sec w)
    as [(_ & c & Hc & Hd)|[Hne _]]; [|done].
  set (w1 := (SQL_collect_violation_events _ _ _ w).2) in *.
  destruct (collect_cases monitor_type time_interval_in_sec
              granularity_for_continuous_violations_in_sec (set_clock later w1))
    as [(_ & c' & Hc' & Hd')|[_ Hd']]; rewrite Hd'; [|done].
  assert (c' = c) as -> by congruence. simpl. rewrite Hd.
  rewrite selected_violations_again by done. simpl. by rewrite app_nil_r.
Qed.

(** ** The summarizer, statement by statement *)

(** X10.  With a connection available, the summarizer sends its four
    statements in order on that one connection, up to and including the
    first of the last three that the server rejects; the return code is
    [WORK_SUCCESSFULLY] exactly when the last three were accepted, whatever
    became of the first; the connection is given back. *)
Theorem summarizer_statements (window interval tolerance base : Z)
    (w : World) (db_conn : PGconn) (db_serial_id : Z)
    (head' : list DBConnectionNode) :
  pool_wf (pool w) →
  SQL_get_database_connection (pool w)
    = (WORK_SUCCESSFULLY, Some (db_conn, db_serial_id), head') →
  let statements :=
    [RESET_STATE; UPDATE_STABLE_TAG window interval tolerance;
     UPDATE_MOVING_TAG window interval;
     UPDATE_TAG_BASE_LOCATION window interval base] in
  let k := accepted_run (tail (faults w)) 3 in
  (SQL_summarize_object_location window interval tolerance base w).1
  = (if decide (k = 3%nat) then WORK_SUCCESSFULLY else E_SQL_EXECUTE) ∧
  sent (SQL_summarize_object_location window interval tolerance base w).2
  = sent w ++ ((λ q, (db_conn, q)) <$> take (S (S k)) statements) ∧
  pool (SQL_summarize_object_location window interval tolerance base w).2
  = pool w.
Proof.
  intros Hwf Hget statements k.
  assert (Hback : ∀ w1, pool w1 = head' →
            pool (release db_serial_id w1) = pool w).
  { intros w1 Hw1.
    apply (release_acquired w db_conn db_serial_id (set_pool head' w));
      [done|by apply acquire_of_get|done]. }
  unfold SQL_summarize_object_location.
  rewrite (acquire_of_get _ _ _ _ Hget).
  repeat
    (match goal with
     | |- context [SQL_execute ?c ?q ?w0] =>
         let Hp := fresh "Hp" in let Hfa := fresh "Hfa" in
         let Hs := fresh "Hs" in let Hcode := fresh "Hcode" in
         destruct (SQL_execute_frame c q w0) as (Hp & _ & Hfa & Hs & _);
         pose proof (SQL_execute_code c q w0) as Hcode;
         destruct (SQL_execute c q w0) as [? ?];
         cbn [fst snd server_exec PQresultStatus command_ok] in Hp, Hfa, Hs, Hcode
     end;
     try destruct (decide (WORK_SUCCESSFULLY ≠ _))).
  all: subst k statements; cbn [pool faults sent set_pool] in *.
  all: destruct (faults w) as [|b1 [|b2 [|b3 [|b4 fs]]]];
    cbn [tail head accepted_run] in *;
    repeat match goal with
           | H : faults _ = _ |- _ => rewrite H in *; clear H
           end; cbn [tail head accepted_run] in *.
  all: repeat match goal with b : bool |- _ => destruct b end;
    cbn [tail head accepted_run] in *.
  all: repeat case_decide;
    repeat match goal with
           | H : ?e = _ |- _ =>
               is_var e; match type of e with ErrorCode => subst e end
           end; try done.
  all: try by match goal with H : _ ∨ _ |- _ => destruct H as [?|?] end.
  all: try (exfalso; match goal with H : ¬ (_ ∨ _) |- _ => apply H; by left end).
  all: try (exfalso;
            match goal with H : ¬ (_ ≠ _) |- _ => apply H; discriminate end).
  all: cbn [fst snd]; split; [done|]; split; [|apply Hback; congruence].
  all: rewrite (proj1 (proj2 (proj2 (proj2 (release_frame _ _))))).
  all: repeat match goal with
              | H : sent ?x = _ |- context [sent ?x] => rewrite H
              end.
  all: by rewrite <- ?app_assoc.
Qed.

(** ** The packet receiver and its packet pool *)

Lemma find_head_filter {A} (P : A → Prop) `{∀ x, Decision (P x)} (l : list A) :
  List.find (λ x, bool_decide (P x)) l = head (filter P l).
Proof.
  induction l as [|x l IH]; [done|]. cbn [List.find]. rewrite filter_cons.
  destruct (decide (P x)) as [Hx|Hx].
  - by rewrite bool_decide_true.
  - by rewrite bool_decide_false.
Qed.

Lemma filter_all {A} (P : A → Prop) `{∀ x, Decision (P x)} (l : list A) :
  Forall P l → filter P l = l.
Proof.
  induction 1 as [|x l Hx _ IH]; [done|].
  by rewrite filter_cons, decide_True, IH.
Qed.

Lemma mp_alloc_free_slots mp :
  mp_alloc mp
  = match free_slots mp with
    | [] => (None, mp)
    | i :: _ => (Some i, {| mp_slots := mp_slots mp;
                            mp_allocated := {[ i ]} ∪ mp_allocated mp |})
    end.
Proof.
  unfold mp_alloc, free_slots. rewrite find_head_filter.
  by destruct (filter _ _).
Qed.

Lemma free_slots_after_alloc mp i rest :
  free_slots mp = i :: rest →
  free_slots {| mp_slots := mp_slots mp;
                mp_allocated := {[ i ]} ∪ mp_allocated mp |} = rest.
Proof.
  unfold free_slots. cbn [mp_slots mp_allocated]. intros Hfree.
  assert (Hnd : NoDup (i :: rest)).
  { rewrite <- Hfree. apply NoDup_filter, NoDup_seq. }
  apply NoDup_cons in Hnd as [Hi _].
  transitivity (filter (λ j, j ≠ i)
                  (filter (λ j, j ∉ mp_allocated mp) (seq 0 (mp_slots mp)))).
  - rewrite list_filter_filter. apply list_filter_iff. intros j.
    rewrite not_elem_of_union, elem_of_singleton. done.
  - rewrite Hfree, filter_cons, decide_False by (by intros H; apply H).
    apply filter_all, Forall_forall. by intros j Hj ->.
Qed.

(** X11.  While the receiver runs and some worker is idle, every packet of
    the UDP type takes the first free slot of the packet pool and no slot
    comes back: after the packets, the free slots are those of before less
    one per UDP packet.  When more UDP packets arrive than slots are free,
    [mp_alloc] returns NULL and the receiver writes through it. *)
Theorem receiver_uses_one_slot_per_packet (incoming : list sPkt)
    (g : geo_fence_config) :
  is_running g = true →
  num_threads_working (worker_thread g) ≠ num_threads_alive (worker_thread g) →
  let n := length (udp_packets incoming) in
  if decide (n ≤ length (free_slots (pkt_content_mempool g)))%nat
  then ∃ g' return_value,
         process_api_recv incoming g = Continues g' return_value ∧
         free_slots (pkt_content_mempool g')
         = drop n (free_slots (pkt_content_mempool g))
  else process_api_recv incoming g = Undefined.
Proof.
  revert g. induction incoming as [|temppkt incoming IH]; intros g Hrun Hidle n.
  - subst n. unfold udp_packets. rewrite filter_nil.
    cbn [length process_api_recv]. rewrite decide_True by lia.
    by exists g, None.
  - subst n. cbn [process_api_recv]. rewrite Hrun.
    unfold udp_packets, process_api_recv_body. rewrite filter_cons.
    fold (udp_packets incoming).
    destruct (decide (pkt_type temppkt = UDP)) as [Hudp|Hudp].
    + rewrite mp_alloc_free_slots.
      destruct (free_slots (pkt_content_mempool g)) as [|i rest] eqn:Hfree.
      { by rewrite decide_False by (simpl; lia). }
      cbn [worker_thread].
      rewrite (decide_False (P := num_threads_working (worker_thread g)
                                  = num_threads_alive (worker_thread g)))
        by done.
      unfold thpool_add_work.
      set (mp := {| mp_slots := _; mp_allocated := _ |}).
      assert (Hmp : free_slots mp = rest) by by apply free_slots_after_alloc.
      destruct (add_work_faults (worker_thread g)) as [|[|] faults].
      all: match goal with
           | |- context [process_api_recv _ ?g1] =>
               specialize (IH g1 Hrun Hidle); cbn [pkt_content_mempool] in IH;
               rewrite Hmp in IH
           end.
      all: cbn [length drop]; repeat case_decide; try lia; done.
    + specialize (IH g Hrun Hidle). done.
Qed.

(** ** Maintenance, device status and dumps *)

Lemma release_after_acquire w db_conn db_serial_id head' :
  pool_wf (pool w) →
  SQL_get_database_connection (pool w)
    = (WORK_SUCCESSFULLY, Some (db_conn, db_serial_id), head') →
  release db_serial_id (set_pool head' w) = w.
Proof.
  intros Hwf Hget. unfold release. cbn [pool set_pool].
  rewrite (acquire_release_round_trip _ _ _ _ Hwf Hget). by destruct w.
Qed.

Lemma acquire_connection_of_get s db_conn db_serial_id head' :
  SQL_get_database_connection (pool (world s))
    = (WORK_SUCCESSFULLY, Some (db_conn, db_serial_id), head') →
  acquire_connection s
  = (Some (db_conn, db_serial_id), with_world (set_pool head' (world s)) s).
Proof.
  intros Hget. unfold acquire_connection.
  by rewrite (acquire_of_get _ _ _ _ Hget).
Qed.

Lemma acquire_connection_none s :
  (acquire (world s)).1 = None → acquire_connection s = (None, s).
Proof.
  intros Hnone. unfold acquire_connection.
  destruct (acquire_cases (world s))
    as [(c & sid & head' & _ & Hacq)|[Hacq _]]; rewrite Hacq in Hnone |- *;
    [discriminate|]. by destruct s.
Qed.

Lemma after_sending_nil db_conn s : after_sending db_conn [] s = s.
Proof. unfold after_sending. simpl. rewrite app_nil_r. by destruct s. Qed.

Lemma vacuum_loop_connected db_conn db_serial_id head' table_name : ∀ s,
  pool_wf (pool (world s)) →
  SQL_get_database_connection (pool (world s))
    = (WORK_SUCCESSFULLY, Some (db_conn, db_serial_id), head') →
  let k := accepted_commands (reply s) (length (issued s)) (length table_name) in
  vacuum_loop table_name s
  = (if decide (k = length table_name) then WORK_SUCCESSFULLY else E_SQL_EXECUTE,
     after_sending db_conn (VACUUM <$> take (S k) table_name) s).
Proof.
  induction table_name as [|table table_name IH]; intros s Hwf Hget k; subst k.
  - cbn [vacuum_loop length accepted_commands take fmap list_fmap].
    by rewrite after_sending_nil, decide_True.
  - cbn [vacuum_loop length accepted_commands].
    rewrite (acquire_connection_of_get _ _ _ _ Hget).
    unfold SQL_execute_command, PQexec_command, release_connection.
    cbn [world reply issued with_world].
    destruct (decide (PQresultStatus (reply s (length (issued s)))
                      ≠ PGRES_COMMAND_OK)) as [Hrej|Hacc];
      cbn [world reply issued with_world];
      rewrite (release_after_acquire _ _ _ _ Hwf Hget).
    + rewrite decide_True by done. by rewrite decide_False by done.
    + rewrite decide_False by not_ne.
      rewrite IH by done. cbn [world reply issued with_world].
      rewrite length_app. cbn [length].
      replace (length (issued s) + 1)%nat with (S (length (issued s))) by lia.
      set (k := accepted_commands _ _ _).
      unfold after_sending. cbn [world reply issued take with_world].
      rewrite !fmap_cons, <- app_assoc.
      by repeat case_decide; try lia.
Qed.

Lemma reload_loop_connected db_conn db_serial_id head' hours table_name : ∀ s,
  pool_wf (pool (world s)) →
  SQL_get_database_connection (pool (world s))
    = (WORK_SUCCESSFULLY, Some (db_conn, db_serial_id), head') →
  let k := accepted_commands (reply s) (length (issued s)) (length table_name) in
  reload_loop table_name hours s
  = (if decide (k = length table_name) then WORK_SUCCESSFULLY else E_SQL_EXECUTE,
     after_sending db_conn
       ((λ table, UPDATE_IS_ACTIVE table hours) <$> take (S k) table_name) s).
Proof.
  induction table_name as [|table table_name IH]; intros s Hwf Hget k; subst k.
  - cbn [reload_loop length accepted_commands take fmap list_fmap].
    by rewrite after_sending_nil, decide_True.
  - cbn [reload_loop length accepted_commands].
    rewrite (acquire_connection_of_get _ _ _ _ Hget).
    unfold SQL_execute_command, PQexec_command, release_connection.
    cbn [world reply issued with_world].
    destruct (decide (PQresultStatus (reply s (length (issued s)))
                      ≠ PGRES_COMMAND_OK)) as [Hrej|Hacc];
      cbn [world reply issued with_world];
      rewrite (release_after_acquire _ _ _ _ Hwf Hget).
    + rewrite decide_True by done. by rewrite decide_False by done.
    + rewrite decide_False by not_ne.
      rewrite IH by done. cbn [world reply issued with_world].
      rewrite length_app. cbn [length].
      replace (length (issued s) + 1)%nat with (S (length (issued s))) by lia.
      set (k := accepted_commands _ _ _).
      unfold after_sending. cbn [world reply issued take with_world].
      rewrite !fmap_cons, <- app_assoc.
      by repeat case_decide; try lia.
Qed.

Lemma identify_with_connected db_conn db_serial_id head' q s :
  pool_wf (pool (world s)) →
  SQL_get_database_connection (pool (world s))
    = (WORK_SUCCESSFULLY, Some (db_conn, db_serial_id), head') →
  identify_with q s
  = (if decide (PQresultStatus (reply s (length (issued s))) ≠ PGRES_COMMAND_OK)
     then E_SQL_EXECUTE else WORK_SUCCESSFULLY,
     after_sending db_conn [q] s).
Proof.
  intros Hwf Hget. unfold identify_with.
  rewrite (acquire_connection_of_get _ _ _ _ Hget).
  unfold SQL_execute_command, PQexec_command, release_connection, after_sending.
  cbn [world reply issued with_world].
  destruct (decide _) as [Hrej|Hacc]; cbn [world reply issued with_world];
    rewrite (release_after_acquire _ _ _ _ Hwf Hget).
  - by rewrite decide_True by done.
  - by rewrite decide_False by not_ne.
Qed.

Lemma delete_old_data_connected db_conn db_serial_id head' hours s :
  pool_wf (pool (world s)) →
  SQL_get_database_connection (pool (world s))
    = (WORK_SUCCESSFULLY, Some (db_conn, db_serial_id), head') →
  SQL_delete_old_data hours s
  = if decide (PQresultStatus (reply s (length (issued s))) ≠ PGRES_COMMAND_OK)
    then (E_SQL_EXECUTE,
          after_sending db_conn [DELETE_OLD_ROWS "notification_table" hours] s)
    else (if decide (PQresultStatus (reply s (S (length (issued s))))
                     ≠ PGRES_TUPLES_OK)
          then E_SQL_EXECUTE else WORK_SUCCESSFULLY,
          after_sending db_conn
            [DELETE_OLD_ROWS "notification_table" hours;
             DROP_CHUNKS hours "tracking_table"] s).
Proof.
  intros Hwf Hget. unfold SQL_delete_old_data. cbn [delete_loop].
  rewrite (acquire_connection_of_get _ _ _ _ Hget).
  unfold SQL_execute_command, PQexec_command, release_connection, after_sending.
  cbn [world reply issued with_world].
  destruct (decide _) as [Hrej|Hacc]; cbn [world reply issued with_world];
    rewrite (release_after_acquire _ _ _ _ Hwf Hget).
  - by rewrite decide_True by done.
  - rewrite decide_False by not_ne. cbn [drop_chunks_loop].
    unfold acquire_connection. cbn [world reply issued with_world].
    rewrite (acquire_of_get _ _ _ _ Hget).
    unfold PQexec_command, release_connection.
    cbn [world reply issued with_world].
    rewrite (release_after_acquire _ _ _ _ Hwf Hget).
    rewrite length_app. cbn [length].
    replace (length (issued s) + 1)%nat with (S (length (issued s))) by lia.
    rewrite <- app_assoc.
    by destruct (decide _).
Qed.

(** X12.  When no connection can be had, [SQL_vacuum_database] and
    [SQL_delete_old_data] pass over every table and return
    [WORK_SUCCESSFULLY] without having sent a statement, whereas
    [SQL_reload_monitor_config] returns [E_SQL_OPEN_DATABASE]. *)
Theorem maintenance_without_connection (s : Session) :
  (acquire (world s)).1 = None →
  SQL_vacuum_database s = (WORK_SUCCESSFULLY, s) ∧
  (∀ retention_hours,
     SQL_delete_old_data retention_hours s = (WORK_SUCCESSFULLY, s)) ∧
  (∀ hours, SQL_reload_monitor_config hours s = (E_SQL_OPEN_DATABASE, s)).
Proof.
  intros Hnone. pose proof (acquire_connection_none s Hnone) as Hacq.
  repeat split.
  - unfold SQL_vacuum_database. cbn [vacuum_loop]. by rewrite !Hacq.
  - intros retention_hours. unfold SQL_delete_old_data.
    cbn [delete_loop]. rewrite Hacq. cbn [drop_chunks_loop]. by rewrite Hacq.
  - intros hours. unfold SQL_reload_monitor_config. cbn [reload_loop].
    by rewrite Hacq.
Qed.

(** X13.  With a connection available, in a pool whose serial ids are
    distinct: [SQL_vacuum_database] sends its five VACUUMs and
    [SQL_reload_monitor_config] its four UPDATEs in the order of their
    table lists, up to and including the first statement that is not
    reported done, and return [E_SQL_EXECUTE] at that statement, the
    tables after it being left out; [SQL_delete_old_data] sends the DELETE
    and, only when that was done, the [drop_chunks] SELECT, which has to
    come back with tuples; each of the three identification calls sends
    its one UPDATE.  All send on the first free connection and leave the
    pool and the files as they found them. *)
Theorem maintenance_statements (s : Session) (db_conn : PGconn)
    (db_serial_id : Z) (head' : list DBConnectionNode) :
  pool_wf (pool (world s)) →
  SQL_get_database_connection (pool (world s))
    = (WORK_SUCCESSFULLY, Some (db_conn, db_serial_id), head') →
  let next := length (issued s) in
  let done := PQresultStatus (reply s next) = PGRES_COMMAND_OK in
  SQL_vacuum_database s
  = (verdict (accepted_commands (reply s) next 5 = 5%nat),
     after_sending db_conn
       (VACUUM <$> take (S (accepted_commands (reply s) next 5))
                     ["tracking_table"; "lbeacon_table"; "gateway_table";
                      "object_table"; "notification_table"]) s) ∧
  (∀ hours,
     SQL_reload_monitor_config hours s
     = (verdict (accepted_commands (reply s) next 4 = 4%nat),
        after_sending db_conn
          ((λ table, UPDATE_IS_ACTIVE table hours)
             <$> take (S (accepted_commands (reply s) next 4))
                   ["geo_fence_config"; "location_not_stay_room_config";
                    "location_long_stay_in_danger_config"; "movement_config"])
          s)) ∧
  (∀ hours,
     SQL_delete_old_data hours s
     = if decide done
       then (verdict (PQresultStatus (reply s (S next)) = PGRES_TUPLES_OK),
             after_sending db_conn
               [DELETE_OLD_ROWS "notification_table" hours;
                DROP_CHUNKS hours "tracking_table"] s)
       else (E_SQL_EXECUTE,
             after_sending db_conn
               [DELETE_OLD_ROWS "notification_table" hours] s)) ∧
  (∀ mac_address,
     SQL_identify_geofence_violation mac_address s
     = (verdict done, after_sending db_conn [IDENTIFY_GEOFENCE mac_address] s)) ∧
  SQL_identify_location_not_stay_room s
  = (verdict done,
     after_sending db_conn [IDENTIFY_NOT_STAY_ROOM MONITOR_LOCATION] s) ∧
  SQL_identify_location_long_stay_in_danger s
  = (verdict done,
     after_sending db_conn [IDENTIFY_LONG_STAY_IN_DANGER MONITOR_LOCATION] s).
Proof.
  intros Hwf Hget next done. subst next done. unfold verdict.
  repeat split.
  - unfold SQL_vacuum_database.
    by rewrite (vacuum_loop_connected _ _ _ _ _ Hwf Hget).
  - intros hours. unfold SQL_reload_monitor_config.
    by rewrite (reload_loop_connected _ _ _ _ _ _ Hwf Hget).
  - intros hours. rewrite (delete_old_data_connected _ _ _ _ _ Hwf Hget).
    repeat case_decide; try done; by exfalso; auto.
  - intros mac_address. unfold SQL_identify_geofence_violation.
    rewrite (identify_with_connected _ _ _ _ _ Hwf Hget).
    repeat case_decide; try done; by exfalso; auto.
  - unfold SQL_identify_location_not_stay_room.
    rewrite (identify_with_connected _ _ _ _ _ Hwf Hget).
    repeat case_decide; try done; by exfalso; auto.
  - unfold SQL_identify_location_long_stay_in_danger.
    rewrite (identify_with_connected _ _ _ _ _ Hwf Hget).
    repeat case_decide; try done; by exfalso; auto.
Qed.

Lemma gateway_registration_loop_outcome db_conn db_serial_id head' w numbers :
  ∀ saveptr s,
  world s = set_pool head' w →
  pool_wf (pool w) →
  SQL_get_database_connection (pool w)
    = (WORK_SUCCESSFULLY, Some (db_conn, db_serial_id), head') →
  let k := accepted_commands (reply s) (length (issued s)) numbers in
  gateway_registration_loop numbers db_conn db_serial_id saveptr s
  = if decide (length saveptr ≤ k ∧ length saveptr < numbers)%nat then None
    else Some (if decide (k = numbers) then WORK_SUCCESSFULLY else E_SQL_EXECUTE,
               after_sending db_conn
                 ((λ ip_address,
                     INSERT_GATEWAY_ON_CONFLICT ip_address S_NORMAL_STATUS)
                    <$> take (S k) (take numbers saveptr))
                 (with_world w s)).
Proof.
  induction numbers as [|numbers IH]; intros saveptr s Hworld Hwf Hget k; subst k.
  - cbn [gateway_registration_loop accepted_commands take fmap list_fmap].
    rewrite decide_False by lia. rewrite decide_True by done.
    rewrite after_sending_nil. unfold release_connection.
    by rewrite Hworld, (release_after_acquire _ _ _ _ Hwf Hget).
  - cbn [gateway_registration_loop accepted_commands].
    destruct saveptr as [|ip_address saveptr]; cbn [strtok_save].
    { by rewrite decide_True by (simpl; lia). }
    unfold SQL_execute_command, PQexec_command.
    destruct (decide (PQresultStatus (reply s (length (issued s)))
                      ≠ PGRES_COMMAND_OK)) as [Hrej|Hacc].
    + rewrite decide_True by done. rewrite decide_False by (simpl; lia).
      rewrite decide_False by done.
      unfold release_connection, after_sending.
      cbn [world reply issued with_world take fmap list_fmap].
      by rewrite Hworld, (release_after_acquire _ _ _ _ Hwf Hget).
    + rewrite decide_False by not_ne.
      rewrite IH by done. cbn [world reply issued with_world].
      rewrite length_app. cbn [length].
      replace (length (issued s) + 1)%nat with (S (length (issued s))) by lia.
      set (k := accepted_commands _ _ _).
      unfold after_sending. cbn [world reply issued take with_world].
      rewrite !fmap_cons, <- app_assoc.
      by repeat case_decide; try lia.
Qed.

(** X14.  A gateway registration payload whose first token announces
    [n > 0] gateways, [n] fitting in an [int], a connection being
    available: the loop sends one upsert per address token, in order, each
    with the normal health status, up to and including the first one that
    is not reported done.  It returns [WORK_SUCCESSFULLY] when all [n] were
    done and [E_SQL_EXECUTE] at the first that was not, the gateways
    upserted before staying so.  When the payload carries fewer addresses
    than announced and none of their upserts fails, the loop reads past the
    last token and the call does not return. *)
Theorem gateway_registration_batch (buf numbers_str : string) (s : Session)
    (db_conn : PGconn) (db_serial_id : Z) (head' : list DBConnectionNode) :
  pool_wf (pool (world s)) →
  SQL_get_database_connection (pool (world s))
    = (WORK_SUCCESSFULLY, Some (db_conn, db_serial_id), head') →
  head (tokenize buf) = Some numbers_str →
  0 < atoi numbers_str ≤ INT_MAX →
  let n := Z.to_nat (atoi numbers_str) in
  let addresses := tail (tokenize buf) in
  let k := accepted_commands (reply s) (length (issued s)) n in
  SQL_update_gateway_registration_status buf s
  = if decide (length addresses ≤ k ∧ length addresses < n)%nat then None
    else Some (if decide (k = n) then WORK_SUCCESSFULLY else E_SQL_EXECUTE,
               after_sending db_conn
                 ((λ ip_address,
                     INSERT_GATEWAY_ON_CONFLICT ip_address S_NORMAL_STATUS)
                    <$> take (S k) (take n addresses)) s).
Proof.
  intros Hwf Hget Htok Hpos n addresses k. subst n addresses k.
  unfold SQL_update_gateway_registration_status.
  destruct (tokenize buf) as [|numbers_str' saveptr]; [discriminate|].
  injection Htok as ->. cbn [strtok_save tail].
  rewrite (decide_False (P := atoi numbers_str ≤ 0)) by lia.
  rewrite (acquire_connection_of_get _ _ _ _ Hget).
  rewrite (gateway_registration_loop_outcome db_conn db_serial_id head'
             (world s)) by done.
  cbn [world reply issued with_world].
  replace (with_world (world s) s) with s by (by destruct s). done.
Qed.

Lemma acquire_connection_cases s :
  pool_wf (pool (world s)) →
  (∃ db_conn db_serial_id head',
     (acquire (world s)).1 = Some (db_conn, db_serial_id) ∧
     SQL_get_database_connection (pool (world s))
       = (WORK_SUCCESSFULLY, Some (db_conn, db_serial_id), head') ∧
     release db_serial_id (set_pool head' (world s)) = world s) ∨
  ((acquire (world s)).1 = None ∧ acquire_connection s = (None, s)).
Proof.
  intros Hwf.
  destruct (acquire_cases (world s))
    as [(c & sid & head' & Hget & Hacq)|[Hacq _]].
  - left. exists c, sid, head'. rewrite Hacq. split; [done|]. split; [done|].
    by apply (release_after_acquire _ c).
  - right. assert (Hnone : (acquire (world s)).1 = None) by by rewrite Hacq.
    split; [done|]. by apply acquire_connection_none.
Qed.

(** X15.  The two health updates never check the form of their payload.
    Without a connection they return [E_SQL_OPEN_DATABASE] whatever the
    payload.  With one, [SQL_update_gateway_health_status] needs a second
    token, the health status, and [SQL_update_lbeacon_health_status] a
    first, the UUID, and a fourth, the health status: they send one UPDATE
    for the gateway address given as argument (the addresses in the payload
    are not used), return [WORK_SUCCESSFULLY] or [E_SQL_EXECUTE] as the
    server reports, and give the connection back; when the token is
    missing the call does not return. *)
Theorem health_update_outcome (buf gateway_ip_address : string) (s : Session) :
  pool_wf (pool (world s)) →
  match (acquire (world s)).1 with
  | None =>
      SQL_update_gateway_health_status buf gateway_ip_address s
        = Some (E_SQL_OPEN_DATABASE, s) ∧
      SQL_update_lbeacon_health_status buf gateway_ip_address s
        = Some (E_SQL_OPEN_DATABASE, s)
  | Some (db_conn, _) =>
      let code :=
        if decide (PQresultStatus (reply s (length (issued s))) = PGRES_COMMAND_OK)
        then WORK_SUCCESSFULLY else E_SQL_EXECUTE in
      SQL_update_gateway_health_status buf gateway_ip_address s
      = match tokenize buf with
        | _ :: health_status :: _ =>
            Some (code,
                  after_sending db_conn
                    [UPDATE_GATEWAY_HEALTH health_status gateway_ip_address] s)
        | _ => None
        end ∧
      SQL_update_lbeacon_health_status buf gateway_ip_address s
      = match tokenize buf with
        | lbeacon_uuid :: _ :: _ :: health_status :: _ =>
            Some (code,
                  after_sending db_conn
                    [UPDATE_LBEACON_HEALTH health_status gateway_ip_address
                       lbeacon_uuid] s)
        | _ => None
        end
  end.
Proof.
  intros Hwf.
  destruct (acquire_connection_cases s Hwf)
    as [(c & sid & head' & -> & Hget & Hrel)|[-> Hacq]].
  - cbv zeta.
    unfold SQL_update_gateway_health_status, SQL_update_lbeacon_health_status.
    rewrite (acquire_connection_of_get _ _ _ _ Hget).
    unfold SQL_execute_command, PQexec_command, release_connection, after_sending.
    split.
    + destruct (tokenize buf) as [|t1 [|t2 rest]]; cbn [strtok_save]; try done.
      cbn [world reply issued with_world].
      destruct (decide (_ ≠ _)) as [Hrej|Hacc];
        cbn [world reply issued with_world]; rewrite Hrel.
      * rewrite decide_True by done. by rewrite decide_False.
      * rewrite decide_False by not_ne. rewrite decide_True; [done|].
        destruct (decide (PQresultStatus (reply s (length (issued s)))
                          = PGRES_COMMAND_OK)); [done|by destruct Hacc].
    + destruct (tokenize buf) as [|t1 [|t2 [|t3 [|t4 rest]]]];
        cbn [strtok_save]; try done.
      cbn [world reply issued with_world].
      destruct (decide (_ ≠ _)) as [Hrej|Hacc];
        cbn [world reply issued with_world]; rewrite Hrel.
      * rewrite decide_True by done. by rewrite decide_False.
      * rewrite decide_False by not_ne. rewrite decide_True; [done|].
        destruct (decide (PQresultStatus (reply s (length (issued s)))
                          = PGRES_COMMAND_OK)); [done|by destruct Hacc].
  - unfold SQL_update_gateway_health_status, SQL_update_lbeacon_health_status.
    rewrite Hacq. split.
    + by destruct (tokenize buf) as [|t1 [|t2 rest]].
    + by destruct (tokenize buf) as [|t1 [|t2 [|t3 [|t4 rest]]]].
Qed.

Lemma dump_lines_written filename (line : list string → string) rows :
  ∀ w lines,
  files w !! filename = Some lines →
  files (foldl (λ w tuple, fprintf_line filename (line tuple) w) w rows)
  = <[filename := lines ++ (line <$> rows)]> (files w) ∧
  pool (foldl (λ w tuple, fprintf_line filename (line tuple) w) w rows)
  = pool w.
Proof.
  induction rows as [|tuple rows IH]; intros w lines Hfile; cbn [foldl].
  - rewrite fmap_nil, app_nil_r, insert_id by done. done.
  - destruct (IH (fprintf_line filename (line tuple) w)
                (lines ++ [line tuple])) as [Hf Hp].
    { simpl. by rewrite lookup_alter_eq, Hfile. }
    rewrite Hf, Hp. split; [|done]. simpl. rewrite <- app_assoc. simpl.
    apply map_eq. intros f. destruct (decide (f = filename)) as [->|Hne].
    + by rewrite !lookup_insert_eq.
    + by rewrite !lookup_insert_ne, lookup_alter_ne by done.
Qed.

Lemma acquire_same_pool w w' : pool w' = pool w → (acquire w').1 = (acquire w).1.
Proof.
  intros Hp. unfold acquire. rewrite Hp.
  by destruct (SQL_get_database_connection (pool w)) as [[e out] p].
Qed.

Lemma dump_with_outcome q fields filename s :
  pool_wf (pool (world s)) →
  filename ∉ unwritable (world s) →
  let connected := bool_decide (is_Some (acquire (world s)).1) in
  let res := reply s (length (issued s)) in
  (dump_with q fields filename s).1 = (dump_result connected res fields).1 ∧
  files (world (dump_with q fields filename s).2)
  = <[filename := (dump_result connected res fields).2]> (files (world s)) ∧
  pool (world (dump_with q fields filename s).2) = pool (world s).
Proof.
  intros Hwf Hopen connected res. subst connected res.
  unfold dump_with, fopen_wt. rewrite decide_False by done.
  set (w1 := set_files (<[filename:=[]]> (files (world s))) (world s)).
  assert (Hfile : files w1 !! filename = Some []) by apply lookup_insert_eq.
  unfold acquire_connection. cbn [world with_world].
  destruct (acquire_cases w1) as [(c & sid & head' & Hget & Hacq)|[Hacq _]].
  - assert (Hsome : (acquire (world s)).1 = Some (c, sid)).
    { rewrite (acquire_same_pool w1 (world s)) by done. by rewrite Hacq. }
    rewrite Hacq, Hsome, bool_decide_true by done.
    unfold PQexec_command, dump_result, release_connection, fclose.
    cbn [world reply issued with_world].
    assert (Hback : ∀ w2, pool w2 = head' → pool (release sid w2) = pool (world s)).
    { intros w2 Hw2.
      apply (release_acquired w1 c sid (set_pool head' w1)); auto. }
    destruct (decide (_ ≠ _)) as [Hrej|Hacc];
      cbn [fst snd world reply issued with_world].
    + rewrite decide_False by done. cbn [fst snd]. auto.
    + rewrite decide_True
        by (destruct (decide (PQresultStatus (reply s (length (issued s)))
                              = PGRES_TUPLES_OK)); [done|by destruct Hacc]).
      cbn [fst snd]. split; [done|].
      destruct (decide (_ ∧ _)); cbn [world with_world].
      * destruct (dump_lines_written filename (dump_line fields)
                    (tuples (reply s (length (issued s))))
                    (set_pool head' w1) []) as [Hf Hp]; [done|].
        split; [|by apply Hback]. cbn [files release set_files].
        change (files (release sid ?x)) with (files x). rewrite Hf.
        subst w1. simpl. apply insert_insert_eq.
      * split; [|by apply Hback]. done.
  - assert (Hnone : (acquire (world s)).1 = None).
    { rewrite (acquire_same_pool w1 (world s)) by done. by rewrite Hacq. }
    rewrite Hacq, Hnone, bool_decide_false by (by intros [? ?]).
    by cbn.
Qed.

(** X16.  A dump whose file can be opened truncates the file first.  When
    no connection is to be had or the SELECT is not answered with tuples,
    the empty file is left in place of whatever it held, and the call
    returns [E_SQL_OPEN_DATABASE] or [E_SQL_EXECUTE].  Otherwise the call
    returns [WORK_SUCCESSFULLY] and the file holds one line per tuple, in
    order, each field followed by a semicolon, or nothing when the result
    is empty or has another number of fields than expected (five for the
    geo-fence settings, two for the monitored addresses).  The pool is left
    as it was found. *)
Theorem dump_outcome (filename : string) (s : Session) :
  pool_wf (pool (world s)) →
  filename ∉ unwritable (world s) →
  let connected := bool_decide (is_Some (acquire (world s)).1) in
  let res := reply s (length (issued s)) in
  ((SQL_dump_active_geo_fence_settings filename s).1
     = (dump_result connected res 5).1 ∧
   files (world (SQL_dump_active_geo_fence_settings filename s).2)
     = <[filename := (dump_result connected res 5).2]> (files (world s)) ∧
   pool (world (SQL_dump_active_geo_fence_settings filename s).2)
     = pool (world s)) ∧
  ((SQL_dump_mac_address_under_geo_fence_monitor filename s).1
     = (dump_result connected res 2).1 ∧
   files (world (SQL_dump_mac_address_under_geo_fence_monitor filename s).2)
     = <[filename := (dump_result connected res 2).2]> (files (world s)) ∧
   pool (world (SQL_dump_mac_address_under_geo_fence_monitor filename s).2)
     = pool (world s)).
Proof.
  intros Hwf Hopen connected res. split; by apply dump_with_outcome.
Qed.

(** ** The time window of the monitor configurations *)

Lemma mod_day x :
  - day < x < day → x mod day = if decide (0 ≤ x) then x else x + day.
Proof.
  intros Hx. case_decide.
  - apply Z.mod_small. lia.
  - rewrite <- (Z_mod_plus_full x 1 day), Z.mul_1_l.
    apply Z.mod_small. lia.
Qed.

(** X17.  Times being times of day: the CASE of
    [SQL_reload_monitor_config] makes a row active exactly when it is
    enabled and the time lies in the window from [start_time] up to, but
    not including, [end_time], the window running over midnight when
    [start_time] is after [end_time]; except that in such a window the
    times of the evening part that are later than 23:59:59, those of the
    last second of the day, count as outside.  A window whose two ends are
    equal is never active. *)
Theorem is_active_window (enable start_time end_time now : Z) :
  0 ≤ start_time < day → 0 ≤ end_time < day → 0 ≤ now < day →
  (is_active_case enable start_time end_time now = 1 ↔
   enable = 1 ∧
   (now - start_time) mod day < (end_time - start_time) mod day ∧
   ¬ (end_time < start_time ∧ start_time ≤ now ∧ time_of_day 23 59 59 < now)) ∧
  (is_active_case enable start_time end_time now = 0 ∨
   is_active_case enable start_time end_time now = 1).
Proof.
  intros Hs He Hn. unfold is_active_case.
  rewrite !mod_day by lia.
  unfold day, time_of_day, usec_per_sec in *.
  destruct (decide (_ ∨ _)) as [Hact|Hact]; (split; [|auto]);
    repeat case_decide; split; intros; lia.
Qed.

(** ** A panic record met while no connection is free *)

Lemma acquire_none w : free_count (pool w) = O → acquire w = (None, w).
Proof.
  intros Hfree.
  destruct (acquire_cases w) as [(c & sid & head' & _ & Hacq)|[Hacq _]];
    [|done].
  by destruct (acquire_Some_free _ _ _ _ Hacq).
Qed.

(** X18.  When the panic field of a record reads 1 and no connection is
    free, the round of the record loop ends at [continue], before the
    battery token is read: no line is written for the record, and the
    rounds that follow read the report one token late, the battery voltage
    of this record being taken for the address of the next. *)
Theorem panic_record_without_connection (numbers : nat)
    (filename lbeacon_uuid : string) (server_time_offset : Z)
    (object_mac_address initial_timestamp_GMT final_timestamp_GMT rssi
     panic_button battery_voltage : string) (rest : list string) (w : World) :
  atoi panic_button = 1 →
  free_count (pool w) = O →
  tracking_records (S numbers) filename lbeacon_uuid server_time_offset
    (object_mac_address :: initial_timestamp_GMT :: final_timestamp_GMT
     :: rssi :: panic_button :: battery_voltage :: rest) w
  = tracking_records numbers filename lbeacon_uuid server_time_offset
      (battery_voltage :: rest) w.
Proof.
  intros Hpanic Hfree. cbn [tracking_records strtok_save]. unfold panic_stamp.
  rewrite decide_True by done. by rewrite acquire_none.
Qed.

(** ** A count that the report does not cover *)

Lemma tracking_records_short filename lbeacon_uuid offset numbers :
  ∀ saveptr w,
  (length saveptr < 3 * numbers)%nat →
  tracking_records numbers filename lbeacon_uuid offset saveptr w = None.
Proof.
  induction numbers as [|numbers IH]; intros saveptr w Hlen; [simpl in Hlen; lia|].
  destruct saveptr as [|t1 [|t2 [|t3 [|t4 [|t5 [|t6 rest]]]]]];
    cbn [tracking_records strtok_save];
    try (unfold panic_stamp; cbn iota; done).
  - unfold panic_stamp. cbn iota. apply IH. simpl in *. lia.
  - unfold panic_stamp. cbn iota. apply IH. simpl in *. lia.
  - destruct (panic_stamp _ _ w) as [[w1|w1]|]; [| |done];
      apply IH; simpl in *; lia.
  - destruct (panic_stamp _ _ w) as [[w1|w1]|]; [| |done];
      apply IH; simpl in *; lia.
Qed.

(** X19.  The count of records a report announces for its first object
    type is not checked against what the report carries, nor for its sign.
    A record needs three tokens at least; when the count, taken as the
    unsigned number the [while(numbers--)] loop runs down, is more than a
    third of the tokens that follow it, the loop reads past the last token
    and the call does not return.  A negative count is such a count for
    every report that fits in a message, its unsigned value being [2 ^ 31]
    at least. *)
Theorem tracking_count_beyond_tokens (buf path : string) (flag thread : Z)
    (w : World) (lbeacon_uuid lbeacon_timestamp lbeacon_ip : string)
    (object_type object_number : string) (rest : list string) :
  tokenize buf
  = lbeacon_uuid :: lbeacon_timestamp :: lbeacon_ip
    :: object_type :: object_number :: rest →
  Z.of_nat (length rest) < 3 * (atoi object_number mod 2 ^ 32) →
  track_filename path thread ∉ unwritable w →
  SQL_update_object_tracking_data_with_battery_voltage buf path flag thread w
  = None.
Proof.
  intros Htok Hcount Hopen.
  unfold SQL_update_object_tracking_data_with_battery_voltage, fopen_wt.
  rewrite decide_False by done. rewrite Htok.
  cbn [strtok_save tracking_types].
  rewrite tracking_records_short; [done|].
  unfold while_count.
  assert (0 ≤ atoi object_number mod 2 ^ 32) by (apply Z.mod_pos_bound; lia).
  lia.
Qed.

(** ** Movement violations *)

Lemma movement_rows_trace ti ts delta db_conn db_serial_id head' w rows :
  ∀ s e s',
  world s = set_pool head' w →
  pool_wf (pool w) →
  SQL_get_database_connection (pool w)
    = (WORK_SUCCESSFULLY, Some (db_conn, db_serial_id), head') →
  movement_rows rows ti ts delta db_conn db_serial_id s = Some (e, s') →
  world s' = w ∧ reply s' = reply s ∧
  (∃ new, issued s' = issued s ++ new) ∧
  ∀ i c mac,
    (length (issued s) ≤ i)%nat →
    issued s' !! i = Some (c, UPDATE_MOVEMENT_VIOLATION mac) →
    ∃ uuid j,
      i = S j ∧ (length (issued s) ≤ j)%nat ∧
      issued s' !! j = Some (c, SELECT_ACTIVITY ts ti uuid mac delta) ∧
      uuid ≠ EmptyString ∧
      PQresultStatus (reply s j) = PGRES_TUPLES_OK ∧
      PQntuples (reply s j) = 0.
Proof.
  induction rows as [|tuple rows IH]; intros s e s' Hworld Hwf Hget.
  - cbn [movement_rows]. intros [= <- <-]. unfold release_connection.
    rewrite Hworld, (release_after_acquire _ _ _ _ Hwf Hget).
    cbn [world reply issued with_world]. repeat split; try done.
    + exists []. by rewrite app_nil_r.
    + intros i c mac Hi Hlook. apply lookup_lt_Some in Hlook. lia.
  - cbn [movement_rows].
    destruct (PQgetvalue tuple 1) as [uuid|]; [|discriminate].
    destruct (decide (String.length uuid = 0%nat)) as [Hempty|Hfull];
      [by apply IH|].
    assert (Huuid : uuid ≠ EmptyString) by (by intros ->).
    destruct (PQgetvalue tuple 0) as [mac0|]; [|discriminate].
    unfold PQexec_command at 1.
    set (select := (db_conn, SELECT_ACTIVITY ts ti uuid mac0 delta)).
    set (s1 := {| world := world s; reply := reply s;
                  issued := issued s ++ [select] |}).
    destruct (decide (PQresultStatus (reply s (length (issued s)))
                      ≠ PGRES_TUPLES_OK)) as [Hrej|Hacc].
    { intros [= <- <-]. unfold release_connection.
      cbn [world reply issued with_world s1].
      rewrite Hworld, (release_after_acquire _ _ _ _ Hwf Hget).
      repeat split; try done; [by eexists|].
      intros i c mac Hi Hlook.
      rewrite lookup_app_r in Hlook by done.
      destruct (i - length (issued s))%nat as [|k]; [|by destruct k].
      discriminate. }
    assert (Hok : PQresultStatus (reply s (length (issued s))) = PGRES_TUPLES_OK).
    { destruct (decide (PQresultStatus (reply s (length (issued s)))
                        = PGRES_TUPLES_OK)); [done|by destruct Hacc]. }
    assert (Hlen1 : length (issued s1) = S (length (issued s))).
    { cbn [issued s1]. rewrite length_app. simpl. lia. }
    destruct (decide (PQntuples (reply s (length (issued s))) = 0))
      as [Hnone|Hsome].
    + unfold SQL_execute_command, PQexec_command.
      set (update := (db_conn, UPDATE_MOVEMENT_VIOLATION mac0)).
      set (s2 := {| world := world s1; reply := reply s1;
                    issued := issued s1 ++ [update] |}).
      assert (Hlen2 : length (issued s2) = S (S (length (issued s)))).
      { cbn [issued s2]. rewrite length_app, Hlen1. simpl. lia. }
      assert (Hpair : ∀ l i c mac,
        (length (issued s) ≤ i)%nat →
        (i < S (S (length (issued s))))%nat →
        (issued s2 ++ l) !! i = Some (c, UPDATE_MOVEMENT_VIOLATION mac) →
        ∃ uuid' j,
          i = S j ∧ (length (issued s) ≤ j)%nat ∧
          (issued s2 ++ l) !! j = Some (c, SELECT_ACTIVITY ts ti uuid' mac delta) ∧
          uuid' ≠ EmptyString ∧
          PQresultStatus (reply s j) = PGRES_TUPLES_OK ∧
          PQntuples (reply s j) = 0).
      { intros l i c mac Hi Hlt. cbn [issued s2 s1].
        rewrite <- !app_assoc.
        rewrite (lookup_app_r (issued s)) by done.
        destruct (i - length (issued s))%nat as [|[|k]] eqn:Hk; [| |lia].
        - discriminate.
        - cbn. intros [= <- <-]. exists uuid, (length (issued s)).
          split; [lia|]. split; [done|].
          rewrite lookup_app_r, Nat.sub_diag by done. done. }
      destruct (decide (PQresultStatus (reply s1 (length (issued s1)))
                        ≠ PGRES_COMMAND_OK)) as [Hfail|Hdone].
      * rewrite decide_True by done. intros [= <- <-].
        unfold release_connection. cbn [world reply issued with_world s2 s1].
        rewrite Hworld, (release_after_acquire _ _ _ _ Hwf Hget).
        repeat split; try done.
        { exists [select; update]. by rewrite <- app_assoc. }
        intros i c mac Hi Hlook.
        assert (i < S (S (length (issued s))))%nat.
        { apply lookup_lt_Some in Hlook. rewrite !length_app in Hlook.
          simpl in Hlook. lia. }
        destruct (Hpair [] i c mac Hi ltac:(done)) as (u & j & Hj);
          [by rewrite app_nil_r|].
        rewrite app_nil_r in Hj. by exists u, j.
      * rewrite decide_False by not_ne. intros Hrows.
        apply IH in Hrows as (Hw & Hr & [new Hnew] & Htrace); [|done..].
        split; [done|]. split; [done|]. split.
        { exists (select :: update :: new). rewrite Hnew.
          cbn [issued s2 s1]. by rewrite <- !app_assoc. }
        intros i c mac Hi Hlook.
        destruct (decide (i < S (S (length (issued s))))%nat) as [Hlt|Hge].
        -- rewrite Hnew in Hlook |- *. by apply Hpair.
        -- destruct (Htrace i c mac ltac:(lia) Hlook)
             as (u & j & -> & Hj & Hsel & Hu & Hst & Hnt).
           exists u, j. repeat split; try done. lia.
    + intros Hrows.
      apply (IH s1) in Hrows as (Hw & Hr & [new Hnew] & Htrace); [|done..].
      split; [done|]. split; [done|]. split.
      { exists (select :: new). rewrite Hnew. cbn [issued s1].
        by rewrite <- app_assoc. }
      intros i c mac Hi Hlook.
      destruct (decide (i = length (issued s))) as [->|Hne].
      * rewrite Hnew in Hlook. cbn [issued s1] in Hlook.
        rewrite <- app_assoc, lookup_app_r, Nat.sub_diag in Hlook by done.
        discriminate.
      * destruct (Htrace i c mac ltac:(lia) Hlook)
          as (u & j & -> & Hj & Hsel & Hu & Hst & Hnt).
        exists u, j. repeat split; try done. lia.
Qed.

(** X20.  Whenever [SQL_identify_last_movement_status] returns, with
    whatever code, every movement-violation UPDATE it has sent for an
    address comes right after the activity SELECT for that address and a
    beacon with a UUID that is not empty, on the same connection, and that
    SELECT was answered with tuples status and no tuple: an object is
    stamped only when the server reports no change of its signal strength.
    The pool and the files are left as they were found. *)
Theorem movement_violation_needs_silence
    (time_interval_in_min each_time_slot_in_min rssi_delta : Z)
    (s s' : Session) (e : ErrorCode) :
  pool_wf (pool (world s)) →
  SQL_identify_last_movement_status time_interval_in_min each_time_slot_in_min
    rssi_delta s = Some (e, s') →
  world s' = world s ∧
  ∀ i db_conn mac_address,
    (length (issued s) ≤ i)%nat →
    issued s' !! i = Some (db_conn, UPDATE_MOVEMENT_VIOLATION mac_address) →
    ∃ lbeacon_uuid j,
      i = S j ∧
      issued s' !! j
      = Some (db_conn,
              SELECT_ACTIVITY each_time_slot_in_min time_interval_in_min
                lbeacon_uuid mac_address rssi_delta) ∧
      lbeacon_uuid ≠ EmptyString ∧
      PQresultStatus (reply s j) = PGRES_TUPLES_OK ∧
      PQntuples (reply s j) = 0.
Proof.
  intros Hwf. unfold SQL_identify_last_movement_status.
  destruct (acquire_connection_cases s Hwf)
    as [(c & sid & head' & _ & Hget & Hrel)|[_ Hacq]].
  - rewrite (acquire_connection_of_get _ _ _ _ Hget).
    unfold PQexec_command at 1. cbn [world reply issued with_world].
    set (select := (c, SELECT_MOVEMENT_MONITORED MONITOR_MOVEMENT)).
    set (s1 := {| world := set_pool head' (world s); reply := reply s;
                  issued := issued s ++ [select] |}).
    assert (Hsingle : ∀ i db_conn mac_address,
      (length (issued s) ≤ i)%nat →
      (issued s ++ [select]) !! i
        = Some (db_conn, UPDATE_MOVEMENT_VIOLATION mac_address) → False).
    { intros i db_conn mac_address Hi Hlook.
      rewrite lookup_app_r in Hlook by done.
      destruct (i - length (issued s))%nat as [|k]; [|by destruct k].
      discriminate. }
    assert (Hstop : ∀ code,
      Some (code, release_connection sid s1) = Some (e, s') →
      world s' = world s ∧
      ∀ i db_conn mac_address,
        (length (issued s) ≤ i)%nat →
        issued s' !! i = Some (db_conn, UPDATE_MOVEMENT_VIOLATION mac_address) →
        ∃ lbeacon_uuid j,
          i = S j ∧
          issued s' !! j
          = Some (db_conn,
                  SELECT_ACTIVITY each_time_slot_in_min time_interval_in_min
                    lbeacon_uuid mac_address rssi_delta) ∧
          lbeacon_uuid ≠ EmptyString ∧
          PQresultStatus (reply s j) = PGRES_TUPLES_OK ∧
          PQntuples (reply s j) = 0).
    { intros code [= <- <-]. unfold release_connection.
      cbn [world reply issued with_world s1]. rewrite Hrel.
      split; [done|]. intros i db_conn mac_address Hi Hlook.
      by destruct (Hsingle i db_conn mac_address Hi Hlook). }
    destruct (decide (_ ≠ _)); [apply Hstop|].
    destruct (decide (_ ∧ _)); [|apply Hstop].
    intros Hrows.
    apply (movement_rows_trace _ _ _ _ _ head' (world s)) in Hrows
      as (Hw & Hr & [new Hnew] & Htrace); [|done..].
    split; [done|]. intros i db_conn mac_address Hi Hlook.
    destruct (decide (i = length (issued s))) as [->|Hne].
    + rewrite Hnew in Hlook. cbn [issued s1] in Hlook.
      rewrite <- app_assoc, lookup_app_r, Nat.sub_diag in Hlook by done.
      discriminate.
    + assert (Hlen1 : length (issued s1) = S (length (issued s))).
      { cbn [issued s1]. rewrite length_app. simpl. lia. }
      destruct (Htrace i db_conn mac_address ltac:(lia) Hlook)
        as (u & j & -> & Hj & Hsel & Hu & Hst & Hnt).
      by exists u, j.
  - rewrite Hacq. intros [= <- <-]. split; [done|].
    intros i db_conn mac_address Hi Hlook.
    apply lookup_lt_Some in Hlook. lia.
Qed.

(** ** From the panic button to the notification *)

Lemma panic_armed_true p d :
  panic_armed p d = true ↔
  ∃ o s, o ∈ object_table d ∧ Z.land (o_monitor_type o) p = p ∧
         s ∈ object_summary_table d ∧ s_mac_address s = o_mac_address o.
Proof.
  unfold panic_armed. rewrite existsb_exists. split.
  - intros (o & Ho & Hj). apply andb_prop in Hj as [Hb He].
    apply bool_decide_eq_true in Hb.
    apply existsb_exists in He as (s & Hs & Hm).
    apply bool_decide_eq_true in Hm. exists o, s.
    by rewrite !list_elem_of_In.
  - intros (o & s & Ho & Hb & Hs & Hm). exists o. rewrite <- list_elem_of_In.
    split; [done|]. rewrite andb_true_iff, bool_decide_eq_true, existsb_exists.
    split; [done|]. exists s.
    by rewrite <- list_elem_of_In, bool_decide_eq_true.
Qed.

Lemma identify_panic_rows mac p now d s :
  s ∈ object_summary_table d →
  ∃ s', s' ∈ object_summary_table (identify_panic mac p now d) ∧
        s_mac_address s' = s_mac_address s ∧ s_uuid s' = s_uuid s ∧
        (s_panic_violation_timestamp s' = s_panic_violation_timestamp s ∨
         s_panic_violation_timestamp s' = Some now) ∧
        (panic_armed p d = true → s_mac_address s = mac →
         s_panic_violation_timestamp s' = Some now).
Proof.
  intros Hs.
  change (identify_panic mac p now d) with
    (if panic_armed p d
     then with_object_summary_table
            ((λ s, if decide (s_mac_address s = mac)
                   then set_panic_violation_timestamp now s else s)
               <$> object_summary_table d) d
     else d).
  destruct (panic_armed p d).
  - exists (if decide (s_mac_address s = mac)
            then set_panic_violation_timestamp now s else s).
    split; [simpl; apply list_elem_of_fmap; by exists s|].
    destruct (decide _); simpl; repeat split; auto. by intros.
  - exists s. repeat split; auto. discriminate.
Qed.

Lemma identify_panic_frame mac p now d :
  object_table (identify_panic mac p now d) = object_table d ∧
  notification_table (identify_panic mac p now d) = notification_table d.
Proof. unfold identify_panic. by case_match. Qed.

Lemma identify_panic_armed mac p p' now d :
  panic_armed p' d = true →
  panic_armed p' (identify_panic mac p now d) = true.
Proof.
  rewrite !panic_armed_true. intros (o & s & Ho & Hb & Hs & Hm).
  destruct (identify_panic_rows mac p now d s Hs) as (s' & Hs' & Hm' & _).
  exists o, s'. rewrite (proj1 (identify_panic_frame mac p now d)).
  repeat split; try done. congruence.
Qed.

Lemma panic_stamps_frame now rs : ∀ d,
  notification_table (panic_stamps now rs [] d) = notification_table d.
Proof.
  induction rs as [|r rs IH]; intros d; [done|]. cbn [panic_stamps].
  destruct (decide (panics r)); [|apply IH].
  cbn [tail head]. rewrite decide_False by done. rewrite IH.
  apply identify_panic_frame.
Qed.

Lemma panic_stamps_rows now rs : ∀ d s,
  panic_armed MONITOR_PANIC d = true →
  s ∈ object_summary_table d →
  ∃ s', s' ∈ object_summary_table (panic_stamps now rs [] d) ∧
        s_mac_address s' = s_mac_address s ∧ s_uuid s' = s_uuid s ∧
        (s_panic_violation_timestamp s' = s_panic_violation_timestamp s ∨
         s_panic_violation_timestamp s' = Some now) ∧
        (∀ r, r ∈ rs → panics r → t_mac_address r = s_mac_address s →
         s_panic_violation_timestamp s' = Some now).
Proof.
  induction rs as [|r rs IH]; intros d s Harmed Hs.
  - exists s. repeat split; auto. by intros r ?%elem_of_nil.
  - cbn [panic_stamps]. destruct (decide (panics r)) as [Hp|Hp].
    + cbn [tail head]. rewrite decide_False by done.
      destruct (identify_panic_rows (t_mac_address r) MONITOR_PANIC now d s Hs)
        as (s1 & Hs1 & Hm1 & Hu1 & Ht1 & Hnow1).
      destruct (IH _ s1 (identify_panic_armed _ _ _ now d Harmed) Hs1)
        as (s' & Hs' & Hm' & Hu' & Ht' & Hnow').
      exists s'. split; [done|]. split; [congruence|]. split; [congruence|].
      split.
      * destruct Ht' as [Ht'|Ht']; [|by right]. rewrite Ht'. exact Ht1.
      * intros r0 [->|Hin]%elem_of_cons Hp0 Hmac.
        -- destruct Ht' as [Ht'|Ht']; [|done]. rewrite Ht'. by apply Hnow1.
        -- apply (Hnow' r0); [done|done|congruence].
    + destruct (IH d s Harmed Hs) as (s' & Hs' & Hm' & Hu' & Ht' & Hnow').
      exists s'. repeat split; try done.
      intros r0 [->|Hin]%elem_of_cons Hp0 Hmac; [done|]. by apply (Hnow' r0).
Qed.

Lemma new_notifications_row m rows : ∀ seq s t,
  (s, t) ∈ rows →
  ∃ n, n ∈ new_notifications seq m rows ∧ n_monitor_type n = m ∧
       n_mac_address n = s_mac_address s ∧ n_uuid n = s_uuid s ∧
       n_violation_timestamp n = t ∧ n_processed n = 0.
Proof.
  induction rows as [|[s' t'] rows IH]; intros seq s t; simpl.
  - by intros ?%elem_of_nil.
  - rewrite elem_of_cons. intros [[= -> ->]|Hin].
    + eexists. split; [by left|done].
    + destruct (IH (seq + 1) s t Hin) as (n & Hn & ?).
      exists n. split; [by right|done].
Qed.

Lemma collect_accepted monitor_type c interval g w db_conn db_serial_id head' :
  violation_timestamp_name monitor_type = Some c →
  pool_wf (pool w) →
  SQL_get_database_connection (pool w)
    = (WORK_SUCCESSFULLY, Some (db_conn, db_serial_id), head') →
  head (faults w) ≠ Some true →
  ∃ w',
    SQL_collect_violation_events monitor_type interval g w
    = (WORK_SUCCESSFULLY, w') ∧
    database w'
    = insert_notification monitor_type c interval g (clock w) (database w) ∧
    pool w' = pool w.
Proof.
  intros Hc Hwf Hget Hacc. unfold SQL_collect_violation_events.
  rewrite Hc, (acquire_of_get _ _ _ _ Hget).
  pose proof (SQL_execute_code db_conn
                (INSERT_NOTIFICATION monitor_type c interval g)
                (set_pool head' w)) as Hcode.
  pose proof (SQL_execute_database db_conn
                (INSERT_NOTIFICATION monitor_type c interval g)
                (set_pool head' w)) as Hdb.
  destruct (SQL_execute_frame db_conn
              (INSERT_NOTIFICATION monitor_type c interval g)
              (set_pool head' w)) as (Hp & _).
  destruct (SQL_execute _ _ _) as [ret_val w1]. simpl in Hcode, Hdb, Hp.
  rewrite decide_False in Hcode by (by intros [?|?]).
  rewrite decide_False in Hdb by done.
  subst ret_val. rewrite decide_False by (by intros ?).
  eexists. split; [reflexivity|]. split; [done|].
  apply (release_acquired w db_conn db_serial_id (set_pool head' w));
    [done|by apply acquire_of_get|done].
Qed.

(** X21.  From the panic button to the notification.  A report that
    carries as many complete records as it announces is ingested while the
    server accepts every statement.  One of its records has the panic field
    1, and its tag has a row in [object_summary_table]; some object that has
    a summary row carries the panic bit, which need not be the tag of the
    record; no panic notification is younger than the granularity at the
    time of the report.  Then a collection of panic events that runs while
    the report is within its interval succeeds and leaves an unprocessed
    panic notification for that tag, at the beacon of its summary row,
    stamped with the time of the report. *)
Theorem panic_button_raises_notification (buf path : string)
    (flag thread : Z) (w : World)
    (lbeacon_uuid lbeacon_timestamp lbeacon_ip : string)
    (type1 number1 type2 number2 : string)
    (rs1 rs2 : list TrackingRecord) (rest : list string)
    (db_conn : PGconn) (db_serial_id : Z) (head' : list DBConnectionNode)
    (r : TrackingRecord) (s : SummaryRow) (o : ObjectRow) (s_o : SummaryRow)
    (time_interval_in_sec granularity_for_continuous_violations_in_sec
       later : Z) :
  tokenize buf
  = lbeacon_uuid :: lbeacon_timestamp :: lbeacon_ip
    :: type1 :: number1 :: concat (record_tokens <$> rs1)
    ++ type2 :: number2 :: concat (record_tokens <$> rs2) ++ rest →
  atoi number1 = Z.of_nat (length rs1) →
  atoi number2 = Z.of_nat (length rs2) →
  Z.of_nat (length rs1) < 2 ^ 32 →
  Z.of_nat (length rs2) < 2 ^ 32 →
  track_filename path thread ∉ unwritable w →
  pool_wf (pool w) →
  SQL_get_database_connection (pool w)
    = (WORK_SUCCESSFULLY, Some (db_conn, db_serial_id), head') →
  faults w = [] →
  r ∈ rs1 ++ rs2 → panics r →
  s ∈ object_summary_table (database w) →
  s_mac_address s = t_mac_address r →
  o ∈ object_table (database w) →
  Z.land (o_monitor_type o) MONITOR_PANIC = MONITOR_PANIC →
  s_o ∈ object_summary_table (database w) →
  s_mac_address s_o = o_mac_address o →
  MONITOR_PANIC ≠ MONITOR_GEO_FENCE →
  (∀ n, n ∈ notification_table (database w) →
        n_monitor_type n = MONITOR_PANIC →
        granularity_for_continuous_violations_in_sec * usec_per_sec
        ≤ clock w - n_violation_timestamp n) →
  later - time_interval_in_sec * usec_per_sec ≤ clock w →
  ∃ w1 w2 n,
    SQL_update_object_tracking_data_with_battery_voltage buf path flag thread w
    = Some (WORK_SUCCESSFULLY, w1) ∧
    SQL_collect_violation_events MONITOR_PANIC time_interval_in_sec
      granularity_for_continuous_violations_in_sec (set_clock later w1)
    = (WORK_SUCCESSFULLY, w2) ∧
    n ∈ notification_table (database w2) ∧
    n_monitor_type n = MONITOR_PANIC ∧
    n_mac_address n = t_mac_address r ∧
    n_uuid n = s_uuid s ∧
    n_violation_timestamp n = clock w ∧
    n_processed n = 0.
Proof.
  intros Htok Hn1 Hn2 Hlt1 Hlt2 Hopen Hwf Hget Hfaults Hr Hpanic Hs Hmac
    Ho Hbit Hso Hmo Hne Hquiet Hwindow.
  destruct (tracking_report_world buf path flag thread w lbeacon_uuid
              lbeacon_timestamp lbeacon_ip type1 number1 type2 number2
              rs1 rs2 rest db_conn db_serial_id head')
    as (w1 & Hcall & _ & _ & _ & Hpool & Hclock & Hfa & Hdb); try done.
  rewrite Hfaults in Hcall, Hfa, Hdb.
  rewrite lookup_nil, decide_False in Hcall by done.
  rewrite lookup_nil, decide_False in Hdb by done.
  rewrite drop_nil in Hfa.
  assert (Hname : violation_timestamp_name MONITOR_PANIC
                  = Some panic_violation_timestamp).
  { unfold violation_timestamp_name.
    by rewrite decide_False, decide_True by done. }
  destruct (collect_accepted MONITOR_PANIC panic_violation_timestamp
              time_interval_in_sec granularity_for_continuous_violations_in_sec
              (set_clock later w1) db_conn db_serial_id head' Hname)
    as (w2 & Hcollect & Hdb2 & _).
  { simpl. by rewrite Hpool. }
  { simpl. by rewrite Hpool. }
  { simpl. by rewrite Hfa. }
  assert (Harmed : panic_armed MONITOR_PANIC (database w) = true).
  { apply panic_armed_true. by exists o, s_o. }
  destruct (panic_stamps_rows (clock w) (rs1 ++ rs2) (database w) s Harmed Hs)
    as (s' & Hs' & Hm' & Hu' & _ & Hnow).
  specialize (Hnow r Hr Hpanic (eq_sym Hmac)).
  destruct (new_notifications_row MONITOR_PANIC
              (selected_violations MONITOR_PANIC panic_violation_timestamp
                 time_interval_in_sec
                 granularity_for_continuous_violations_in_sec later
                 (database w1))
              (notification_id_seq (database w1)) s' (clock w))
    as (n & Hn & Hty & Hnm & Hnu & Hnt & Hnp).
  { apply elem_of_selected_violations. rewrite Hdb. simpl.
    split; [done|]. split; [done|]. split; [done|].
    rewrite panic_stamps_frame.
    destruct (notification_exists _ _ _ _) eqn:Hex; [|done].
    apply notification_exists_true in Hex as (n & Hin & Hty & Hlt).
    specialize (Hquiet n Hin Hty). lia. }
  exists w1, w2, n. split; [done|]. split; [done|].
  split; [rewrite Hdb2; simpl; apply elem_of_app; by right|].
  repeat split; try done; congruence.
Qed.

End BeDIS.

(** * Worked instances

    The constants of the missing headers are given sample values here:
    five retry rounds, [S_NORMAL_STATUS] 0, the monitor bits 1, 2, 4, 8 for
    geo-fence, panic, movement, location, and packet type 1 for UDP. *)

Local Notation "'run_registration'" :=
  (SQL_update_lbeacon_registration_status 5%nat 0 sample_timestamp_out
     sample_summarizer_update).
Local Notation "'run_tracking'" :=
  (SQL_update_object_tracking_data_with_battery_voltage 5%nat 2
     sample_timestamp_out sample_summarizer_update).
Local Notation "'run_summarizer'" :=
  (SQL_summarize_object_location 5%nat sample_timestamp_out
     sample_summarizer_update).
Local Notation "'run_collect'" :=
  (SQL_collect_violation_events 5%nat 1 2 4 8 sample_timestamp_out
     sample_summarizer_update).
Local Notation "'run_drain'" :=
  (SQL_get_and_update_violation_events 5%nat sample_timestamp_out
     sample_summarizer_update).

(** The pool of two connections after one acquisition. *)
Lemma connection_pool_accounting_witness :
  pool_wf two_free ∧
  pool_reachable 5%nat two_free (SQL_get_database_connection 5%nat two_free).2 ∧
  (0 < 5)%nat ∧
  (in_use_count (SQL_get_database_connection 5%nat two_free).2
   + free_count (SQL_get_database_connection 5%nat two_free).2 = 2)%nat.
Proof.
  assert (Hwf : pool_wf two_free).
  { split; [apply (bool_decide_unpack _); vm_compute; exact I|].
    repeat constructor; by left. }
  assert (Hreach : pool_reachable 5%nat two_free
                     (SQL_get_database_connection 5%nat two_free).2).
  { apply reach_get, reach_create. }
  split; [exact Hwf|]. split; [exact Hreach|]. split; [lia|].
  exact (proj1 (connection_pool_accounting 5%nat two_free _ Hwf Hreach
                  ltac:(lia))).
Defined.

(** The payload of the design document's beacon, registered on a fresh
    database: the row under its UUID. *)
Lemma registration_coordinates_witness :
  ∃ w',
    run_registration registration_payload "192.168.1.1"
      (world_of two_free empty_database new_year [])
    = Some (WORK_SUCCESSFULLY, w') ∧
    (10%nat, INSERT_LBEACON_ON_CONFLICT beacon_uuid "192.168.1.20" 0
               "192.168.1.1" "1577836800" 1234 5678) ∈ sent w' ∧
    ∃ r, lbeacon_table (database w') !! beacon_uuid = Some r ∧
         lb_coordinate_x r = 1234 ∧ lb_coordinate_y r = 5678.
Proof.
  eapply (proj1 (registration_coordinates 5%nat 0 sample_timestamp_out
                   sample_summarizer_update registration_payload "192.168.1.1"
                   "1" (world_of two_free empty_database new_year [])
                   10%nat 0 _ beacon_uuid "1577836800" "192.168.1.20"
                   1234 5678 eq_refl eq_refl
                   ltac:(vm_compute; split; [reflexivity|discriminate])
                   eq_refl eq_refl ltac:(vm_compute; repeat constructor)
                   ltac:(vm_compute; lia)
                   ltac:(split; [discriminate|reflexivity])
                   ltac:(split; [discriminate|reflexivity]))).
Defined.

(** The registration payload applied at new year and again a minute later. *)
Lemma lbeacon_registration_idempotent_witness :
  ∃ w1 w2,
    run_registration registration_payload "192.168.1.1"
      (world_of two_free empty_database new_year [])
    = Some (WORK_SUCCESSFULLY, w1) ∧
    clock (world_of two_free empty_database new_year [])
    < new_year + 60 * usec_per_sec ∧
    run_registration registration_payload "192.168.1.1"
      (set_clock (new_year + 60 * usec_per_sec) w1)
    = Some (WORK_SUCCESSFULLY, w2) ∧
    dom (lbeacon_table (database w2)) = dom (lbeacon_table (database w1)) ∧
    lb_last_report_timestamp <$> lbeacon_table (database w1) !! beacon_uuid
    = Some new_year ∧
    lb_last_report_timestamp <$> lbeacon_table (database w2) !! beacon_uuid
    = Some (new_year + 60 * usec_per_sec).
Proof.
  destruct (run_registration registration_payload "192.168.1.1"
              (world_of two_free empty_database new_year []))
    as [[e w1]|] eqn:H1; [|by vm_compute in H1].
  assert (e = WORK_SUCCESSFULLY) as ->
    by (vm_compute in H1; by injection H1 as <- _).
  assert (Hw1 : w1 = (default (E_MALLOC, w1)
                        (run_registration registration_payload "192.168.1.1"
                           (world_of two_free empty_database new_year []))).2)
    by (by rewrite H1).
  destruct (run_registration registration_payload "192.168.1.1"
              (set_clock (new_year + 60 * usec_per_sec) w1))
    as [[e w2]|] eqn:H2; [|by rewrite Hw1 in H2; vm_compute in H2].
  assert (e = WORK_SUCCESSFULLY) as ->
    by (rewrite Hw1 in H2; vm_compute in H2; by injection H2 as <- _).
  assert (Hlater : clock (world_of two_free empty_database new_year [])
                   < new_year + 60 * usec_per_sec) by (vm_compute; reflexivity).
  destruct (lbeacon_registration_idempotent 5%nat 0 sample_timestamp_out
              sample_summarizer_update registration_payload "192.168.1.1"
              _ w1 w2 _ H1 Hlater H2) as (Hdom & Hin & _).
  destruct (Hin beacon_uuid) as (r1 & r2 & Hr1 & Hr2 & Ht1 & Ht2 & _).
  { vm_compute. by left. }
  exists w1, w2. rewrite Hr1, Hr2. simpl. rewrite Ht1, Ht2. by repeat split.
Defined.

(** Collecting geo-fence violations on [stamped_database]: the second tag's
    stamp becomes a notification. *)
Lemma collect_violation_events_dedup_witness :
  NoDup (s_mac_address <$> object_summary_table stamped_database) ∧
  separated 30 (notification_table stamped_database) ∧
  separated 30
    (notification_table
       (database (run_collect 1 60 30
                    (world_of two_free stamped_database new_year [])).2)) ∧
  length (notification_table
            (database (run_collect 1 60 30
                         (world_of two_free stamped_database new_year [])).2))
  = 2%nat.
Proof.
  assert (Hmacs : NoDup (s_mac_address <$> object_summary_table stamped_database)).
  { apply (bool_decide_unpack _). vm_compute. exact I. }
  assert (Hsep : separated 30 (notification_table stamped_database)).
  { intros [|[|i]] [|[|j]] a b Hij Ha Hb _; simpl in Ha, Hb; congruence. }
  split; [exact Hmacs|]. split; [exact Hsep|].
  destruct (collect_violation_events_dedup 5%nat 1 2 4 8 sample_timestamp_out
              sample_summarizer_update 1 60 30
              (world_of two_free stamped_database new_year []) Hmacs Hsep)
    as (inserted & _ & _ & Hafter).
  split; [exact Hafter|]. vm_compute. reflexivity.
Defined.

(** The dedup sub-select compares [mac_address] and [uuid] of a notification
    with themselves, so one notification of a monitor type within the window
    holds back every tag: on [stamped_database] the second tag's panic stamp
    gives no notification, the first tag's notification being 0 seconds
    older. *)
Lemma collect_dedups_per_monitor_type :
  notification_table
    (database (run_collect 2 60 30
                 (world_of two_free stamped_database new_year [])).2)
  = notification_table stamped_database.
Proof. vm_compute. reflexivity. Qed.

(** A drain into an empty buffer of 80 bytes. *)
Lemma drain_appends_every_record_that_fits_witness :
  is_Some (acquire 5%nat (world_of two_free pending_database new_year [])).1 ∧
  faults (world_of two_free pending_database new_year []) = [] ∧
  NoDup (n_id <$> notification_table pending_database) ∧
  (run_drain EmptyString 80%nat
     (world_of two_free pending_database new_year [])).1.1
  = WORK_SUCCESSFULLY ∧
  (run_drain EmptyString 80%nat
     (world_of two_free pending_database new_year [])).1.2
  = record_of sample_timestamp_out second_notification.
Proof.
  assert (Hacq : is_Some (acquire 5%nat
                            (world_of two_free pending_database new_year [])).1)
    by (vm_compute; eauto).
  assert (Hids : NoDup (n_id <$> notification_table pending_database)).
  { apply (bool_decide_unpack _). vm_compute. exact I. }
  destruct (drain_appends_every_record_that_fits 5%nat sample_timestamp_out
              sample_summarizer_update EmptyString 80%nat
              (world_of two_free pending_database new_year [])
              Hacq eq_refl Hids) as (Hret & _ & _ & Hbuf & _).
  split; [exact Hacq|]. split; [reflexivity|]. split; [exact Hids|].
  split; [exact Hret|]. rewrite Hbuf. vm_compute. reflexivity.
Defined.

(** C3 as the design document states it fails: the first of the two pending
    notifications (85 bytes) does not fit in a buffer of 80 bytes, yet the
    scan goes on and appends the second (78 bytes). *)
Lemma drain_goes_on_after_misfit :
  ¬ stops_at_first_misfit 5%nat sample_timestamp_out sample_summarizer_update
      EmptyString 80%nat (world_of two_free pending_database new_year []).
Proof.
  intros Hstop.
  destruct (Hstop [] first_notification [second_notification]) as [Hbuf _].
  - vm_compute. reflexivity.
  - unfold fits. vm_compute. lia.
  - vm_compute in Hbuf. discriminate.
Qed.

(** C2.  [is_enabled_panic_monitoring] is not read: a report gives the same
    result whatever its value.  With the flag 0, the record whose panic
    field is 1 has the panic stamp executed and the tag's
    [panic_violation_timestamp] set.  With the flag 1 and no free
    connection, the stamp is skipped although the panic field is 1; the
    [continue] leaves the battery field unread, the next fields are taken
    for an object type and count, and a missing token reaches [atoi]. *)
Lemma panic_stamp_ignores_feature_flag :
  (∀ buf path flag thread w,
     run_tracking buf path flag thread w = run_tracking buf path 0 thread w) ∧
  match run_tracking panic_report "/opt/bedis" 0 7
          (world_of two_free tag_database new_year []) with
  | Some (e, w) =>
      e = WORK_SUCCESSFULLY ∧
      sent w = [(10%nat, IDENTIFY_PANIC "aabbccddeeff" 2);
                (10%nat, COPY_TRACKING "/opt/bedis/temp/track_7")] ∧
      s_panic_violation_timestamp <$> object_summary_table (database w)
      = [Some new_year]
  | None => False
  end ∧
  (panic_stamp 5%nat 2 sample_timestamp_out sample_summarizer_update
     (Some "aabbccddeeff") (Some "1")
     (world_of all_busy tag_database new_year [])
   = Some (inl (world_of all_busy tag_database new_year [])) ∧
   run_tracking panic_report "/opt/bedis" 1 7
     (world_of all_busy tag_database new_year []) = None).
Proof. split; [reflexivity|]. vm_compute. by repeat split. Qed.

(** C4.  The temporary file is still there when the function returns
    [E_API_PROTOCOL_FORMAT] (a report without a timestamp) and when it
    returns [E_SQL_OPEN_DATABASE] (no free connection for the COPY); it is
    removed when the COPY was tried, rejected or not. *)
Lemma tracking_file_left_behind :
  match run_tracking "abc" "/opt/bedis" 0 7
          (world_of two_free tag_database new_year []) with
  | Some (e, w) =>
      e = E_API_PROTOCOL_FORMAT ∧
      files w !! track_filename "/opt/bedis" 7 = Some []
  | None => False
  end ∧
  match run_tracking calm_report "/opt/bedis" 0 7
          (world_of all_busy tag_database new_year []) with
  | Some (e, w) =>
      e = E_SQL_OPEN_DATABASE ∧
      length <$> files w !! track_filename "/opt/bedis" 7 = Some 1%nat
  | None => False
  end ∧
  match run_tracking calm_report "/opt/bedis" 0 7
          (world_of two_free tag_database new_year [true]) with
  | Some (e, w) =>
      e = E_SQL_EXECUTE ∧ files w !! track_filename "/opt/bedis" 7 = None
  | None => False
  end ∧
  match run_tracking calm_report "/opt/bedis" 0 7
          (world_of two_free tag_database new_year []) with
  | Some (e, w) =>
      e = WORK_SUCCESSFULLY ∧ files w !! track_filename "/opt/bedis" 7 = None
  | None => False
  end.
Proof. vm_compute. by repeat split. Qed.

(** C5.  The result of the reset statement is overwritten unread: when the
    server rejects the reset and accepts the rest, the three updates are
    still executed and the function returns [WORK_SUCCESSFULLY].  A
    rejected stable-tag update stops the pass with [E_SQL_EXECUTE] and the
    connection released. *)
Lemma summarizer_ignores_failed_reset :
  (let '(e, w) := run_summarizer 10 5 3 100
                    (world_of two_free tag_database new_year [true]) in
   e = WORK_SUCCESSFULLY ∧
   sent w = [(10%nat, RESET_STATE); (10%nat, UPDATE_STABLE_TAG 10 5 3);
             (10%nat, UPDATE_MOVING_TAG 10 5);
             (10%nat, UPDATE_TAG_BASE_LOCATION 10 5 100)] ∧
   pool w = two_free) ∧
  (let '(e, w) := run_summarizer 10 5 3 100
                    (world_of two_free tag_database new_year [false; true]) in
   e = E_SQL_EXECUTE ∧
   sent w = [(10%nat, RESET_STATE); (10%nat, UPDATE_STABLE_TAG 10 5 3)] ∧
   pool w = two_free).
Proof. vm_compute. by repeat split. Qed.

(** C9.  A UDP packet arrives, slot 0 is taken from the packet pool, the
    worker pool refuses the job ([thpool_add_work] returns -1): the pass
    ends with slot 0 still allocated and no job queued for it. *)
Lemma failed_submission_keeps_slot :
  match process_api_recv_body 1 (λ address, address) udp_packet
          refusing_receiver with
  | Continues g return_value =>
      return_value = Some (-1) ∧
      mp_allocated (pkt_content_mempool g) = {[ 0%nat ]} ∧
      mp_allocated (pkt_content_mempool g)
      ≠ mp_allocated (mp_free (pkt_content_mempool g) 0) ∧
      jobqueue (worker_thread g) = []
  | _ => False
  end.
Proof.
  vm_compute. repeat split. intros Heq. discriminate.
Qed.

(** The whole registration call on the payload of one beacon: the row it
    leaves under the beacon's UUID. *)
Lemma registration_of_sample_beacon :
  match run_registration registration_payload "192.168.1.1"
          (world_of two_free empty_database new_year []) with
  | Some (e, w) =>
      e = WORK_SUCCESSFULLY ∧ pool w = two_free ∧
      lbeacon_table (database w) !! beacon_uuid
      = Some {| lb_uuid := beacon_uuid; lb_ip_address := "192.168.1.20";
                lb_health_status := 0;
                lb_gateway_ip_address := "192.168.1.1";
                lb_registered_timestamp := "1577836800";
                lb_last_report_timestamp := new_year;
                lb_coordinate_x := 1234; lb_coordinate_y := 5678;
                lb_room := None; lb_danger_area := None |}
  | None => False
  end.
Proof. vm_compute. by repeat split. Qed.

(** ** Further worked instances *)

(** The first connection of [two_free], taken and given back. *)
Lemma acquire_release_round_trip_witness :
  pool_wf two_free ∧
  SQL_get_database_connection 5%nat two_free
  = (WORK_SUCCESSFULLY, Some (10%nat, 0),
     [ {| serial_id := 0; is_used := 1; db := 10%nat |};
       {| serial_id := 1; is_used := 0; db := 11%nat |} ]) ∧
  SQL_release_database_connection
    [ {| serial_id := 0; is_used := 1; db := 10%nat |};
      {| serial_id := 1; is_used := 0; db := 11%nat |} ] 0
  = (WORK_SUCCESSFULLY, two_free).
Proof.
  assert (Hwf : pool_wf two_free).
  { split; [apply (bool_decide_unpack _); vm_compute; exact I|].
    repeat constructor; by left. }
  split; [exact Hwf|]. split; [reflexivity|].
  exact (acquire_release_round_trip 5%nat two_free _ 10%nat 0 Hwf eq_refl).
Defined.

(** The summarizer, its last statement rejected, on [two_free]. *)
Lemma connection_returned_on_every_path_witness :
  pool_wf (pool (world_of two_free empty_database new_year
                   [false; false; false; true])) ∧
  (run_summarizer 10 5 3 100
     (world_of two_free empty_database new_year [false; false; false; true])).1
  = E_SQL_EXECUTE ∧
  pool (run_summarizer 10 5 3 100
          (world_of two_free empty_database new_year
             [false; false; false; true])).2
  = two_free.
Proof.
  assert (Hwf : pool_wf (pool (world_of two_free empty_database new_year
                                 [false; false; false; true]))).
  { split; [apply (bool_decide_unpack _); vm_compute; exact I|].
    repeat constructor; by left. }
  split; [exact Hwf|]. split; [reflexivity|].
  exact (proj1 (connection_returned_on_every_path 5%nat 0 1 2 4 8
                  sample_timestamp_out sample_summarizer_update _ Hwf)
           10 5 3 100).
Defined.

(** Five allocation retries and every connection succeeding.  Six
    connections asked: the node of the fifth round is renumbered 5, takes
    the sixth connection and is left linked to itself.  Seven asked: a
    seventh node follows it and the list ends at its head. *)
Lemma create_pool_retry_budget_witness :
  SQL_create_database_connection_pool 5
    [(10, true); (11, true); (12, true); (13, true); (14, true); (15, true)]%nat
    [] [] 6
  = Some (WORK_SUCCESSFULLY,
          [ {| serial_id := 0; is_used := 0; db := 10%nat |};
            {| serial_id := 1; is_used := 0; db := 11%nat |};
            {| serial_id := 2; is_used := 0; db := 12%nat |};
            {| serial_id := 3; is_used := 0; db := 13%nat |};
            {| serial_id := 5; is_used := 0; db := 15%nat |} ], true) ∧
  SQL_create_database_connection_pool 5
    [(10, true); (11, true); (12, true); (13, true); (14, true); (15, true);
     (16, true)]%nat
    [] [] 7
  = Some (WORK_SUCCESSFULLY,
          [ {| serial_id := 0; is_used := 0; db := 10%nat |};
            {| serial_id := 1; is_used := 0; db := 11%nat |};
            {| serial_id := 2; is_used := 0; db := 12%nat |};
            {| serial_id := 3; is_used := 0; db := 13%nat |};
            {| serial_id := 5; is_used := 0; db := 15%nat |};
            {| serial_id := 6; is_used := 0; db := 16%nat |} ], false).
Proof.
  split.
  - exact (create_pool_retry_budget 5 [10; 11; 12; 13; 14; 15]%nat [] [] 6
             ltac:(lia) ltac:(vm_compute; discriminate) eq_refl).
  - exact (create_pool_retry_budget 5 [10; 11; 12; 13; 14; 15; 16]%nat [] [] 7
             ltac:(lia) ltac:(vm_compute; discriminate) eq_refl).
Defined.

(** Five allocation retries: two connections asked and made, and three
    asked of which the third fails. *)
Lemma create_pool_outcome_witness :
  SQL_create_database_connection_pool 5 [(10%nat, true); (11%nat, true)]
    [] [] 2
  = Some (WORK_SUCCESSFULLY, two_free, false) ∧
  SQL_create_database_connection_pool 5
    [(10%nat, true); (11%nat, true); (12%nat, false)] [] [] 3
  = Some (E_SQL_OPEN_DATABASE, two_free, false).
Proof.
  split.
  - exact (create_pool_outcome 5 [(10%nat, true); (11%nat, true)] [] 2
             ltac:(split; vm_compute; discriminate)).
  - exact (create_pool_outcome 5
             [(10%nat, true); (11%nat, true); (12%nat, false)] [] 3
             ltac:(split; vm_compute; discriminate)).
Defined.

(** The pool of six connections with five allocation retries, and the one
    in which the second [malloc] fails five times over. *)
Lemma created_pool_wf_witness :
  pool_wf [ {| serial_id := 0; is_used := 0; db := 10%nat |};
            {| serial_id := 1; is_used := 0; db := 11%nat |};
            {| serial_id := 2; is_used := 0; db := 12%nat |};
            {| serial_id := 3; is_used := 0; db := 13%nat |};
            {| serial_id := 5; is_used := 0; db := 15%nat |} ] ∧
  SQL_create_database_connection_pool 5
    [(10%nat, true); (11%nat, true)] [false; true; true; true; true] [] 2
  = Some (E_MALLOC, [ {| serial_id := 0; is_used := 0; db := 10%nat |} ], false).
Proof.
  split; [|reflexivity].
  exact (proj1 (created_pool_wf 5
                  [(10, true); (11, true); (12, true); (13, true); (14, true);
                   (15, true)]%nat [] 6 _ _ _ eq_refl)).
Defined.

(** A payload announcing two beacons, the second upsert rejected: the first
    beacon is registered all the same.  The same payload cut after its
    first record does not return. *)
Lemma registration_batch_witness :
  (∃ w',
     run_registration
       "2;192.168.1.1;0000000000010000123400000000567800000000;1577836800;192.168.1.20;0000000000020000123400000000567800000000;1577836801;192.168.1.21;"
       "192.168.1.1" (world_of two_free empty_database new_year [false; true])
     = Some (E_SQL_EXECUTE, w') ∧
     dom (lbeacon_table (database w')) = {[ beacon_uuid ]} ∧
     pool w' = two_free) ∧
  run_registration
    "2;192.168.1.1;0000000000010000123400000000567800000000;1577836800;192.168.1.20;"
    "192.168.1.1" (world_of two_free empty_database new_year [])
  = None.
Proof.
  assert (Hwf : ∀ fs, pool_wf (pool (world_of two_free empty_database new_year fs))).
  { intros fs. split; [apply (bool_decide_unpack _); vm_compute; exact I|].
    repeat constructor; by left. }
  split.
  - pose proof (registration_batch 5%nat 0 sample_timestamp_out
                  sample_summarizer_update
                  "2;192.168.1.1;0000000000010000123400000000567800000000;1577836800;192.168.1.20;0000000000020000123400000000567800000000;1577836801;192.168.1.21;"
                  "192.168.1.1" "2"
                  (world_of two_free empty_database new_year [false; true])
                  10%nat 0 _ (Hwf _) eq_refl eq_refl
                  ltac:(vm_compute; split; [reflexivity|discriminate]))
      as Hbatch.
    cbv zeta in Hbatch.
    match type of Hbatch with
    | if ?d then _ else _ =>
        let v := eval vm_compute in d in change d with v in Hbatch
    end.
    cbv iota in Hbatch. destruct Hbatch as (w' & Hres & Htable & _ & Hpool).
    exists w'. split; [exact Hres|]. split; [|exact Hpool].
    rewrite Htable. apply (bool_decide_unpack _). vm_compute. exact I.
  - pose proof (registration_batch 5%nat 0 sample_timestamp_out
                  sample_summarizer_update
                  "2;192.168.1.1;0000000000010000123400000000567800000000;1577836800;192.168.1.20;"
                  "192.168.1.1" "2"
                  (world_of two_free empty_database new_year [])
                  10%nat 0 _ (Hwf _) eq_refl eq_refl
                  ltac:(vm_compute; split; [reflexivity|discriminate]))
      as Hbatch.
    cbv zeta in Hbatch.
    match type of Hbatch with
    | if ?d then _ else _ =>
        let v := eval vm_compute in d in change d with v in Hbatch
    end.
    exact Hbatch.
Defined.

(** The report with one record whose panic field is 1, the server rejecting
    the panic statement: the record is loaded all the same and the call
    returns [WORK_SUCCESSFULLY]. *)
Lemma tracking_report_ingested_witness :
  ∃ w',
    run_tracking panic_report "/opt/bedis" 1 7
      (world_of two_free tag_database new_year [true])
    = Some (WORK_SUCCESSFULLY, w') ∧
    sent w'
    = [(10%nat, IDENTIFY_PANIC "aabbccddeeff" 2);
       (10%nat, COPY_TRACKING "/opt/bedis/temp/track_7")] ∧
    tracking_table (database w')
    = ["aabbccddeeff,0000000000010000123400000000567800000000,-60,1,3000,2019-12-31 23:59:50,2019-12-31 23:59:55,0"] ∧
    files w' = ∅ ∧
    pool w' = two_free.
Proof.
  assert (Hwf : pool_wf (pool (world_of two_free tag_database new_year [true]))).
  { split; [apply (bool_decide_unpack _); vm_compute; exact I|].
    repeat constructor; by left. }
  destruct (tracking_report_ingested 5%nat 2 sample_timestamp_out
              sample_summarizer_update panic_report "/opt/bedis" 1 7
              (world_of two_free tag_database new_year [true])
              beacon_uuid "1577836800" "192.168.1.20" "1" "1" "2" "0"
              [ {| t_mac_address := "aabbccddeeff";
                   t_initial_timestamp := "1577836790";
                   t_final_timestamp := "1577836795"; t_rssi := "-60";
                   t_panic_button := "1"; t_battery_voltage := "3000" |} ]
              [] [] 10%nat 0 _
              ltac:(vm_compute; reflexivity) ltac:(vm_compute; reflexivity)
              ltac:(vm_compute; reflexivity) ltac:(vm_compute; discriminate)
              ltac:(vm_compute; discriminate)
              ltac:(repeat constructor; vm_compute; discriminate)
              ltac:(split; vm_compute; discriminate)
              ltac:(split; vm_compute; discriminate)
              ltac:(split; vm_compute; discriminate)
              ltac:(apply not_elem_of_empty)
              Hwf eq_refl)
    as (w' & Hres & Hsent & Htable & Hfiles & Hpool).
  exists w'. split; [exact Hres|]. split; [exact Hsent|].
  split; [rewrite Htable; vm_compute; reflexivity|].
  split; [rewrite Hfiles; apply delete_empty|exact Hpool].
Defined.

(** Two pending notifications and room for both, the server rejecting the
    first UPDATE: both records are returned, the call reports success, and
    the first notification is still unprocessed. *)
Lemma drain_with_rejected_updates_witness :
  is_Some (acquire 5%nat
             (world_of two_free pending_database new_year [false; true])).1 ∧
  (run_drain EmptyString 200
     (world_of two_free pending_database new_year [false; true])).1.1
  = WORK_SUCCESSFULLY ∧
  (run_drain EmptyString 200
     (world_of two_free pending_database new_year [false; true])).1.2
  = record_of sample_timestamp_out first_notification
    +:+ record_of sample_timestamp_out second_notification ∧
  n_processed
    <$> notification_table
          (database
             (run_drain EmptyString 200
                (world_of two_free pending_database new_year [false; true])).2)
  = [0; 1].
Proof.
  assert (Hacq : is_Some (acquire 5%nat
             (world_of two_free pending_database new_year [false; true])).1)
    by (by eexists).
  assert (Hids : NoDup (n_id <$> notification_table
             (database (world_of two_free pending_database new_year
                          [false; true]))))
    by (apply (bool_decide_unpack _); vm_compute; exact I).
  pose proof (drain_with_rejected_updates 5%nat sample_timestamp_out
                sample_summarizer_update EmptyString 200
                (world_of two_free pending_database new_year [false; true])
                Hacq ltac:(discriminate) Hids) as Hdrain.
  cbv zeta in Hdrain. destruct Hdrain as (Hcode & Hbuf & Htable & _).
  split; [exact Hacq|]. split; [exact Hcode|].
  split; [rewrite Hbuf; vm_compute; reflexivity|].
  rewrite Htable. vm_compute. reflexivity.
Defined.

(** The geo-fence violations of [stamped_database], collected at new year
    and again five seconds later: the first call adds one notification, the
    second none. *)
Lemma collect_again_adds_nothing_witness :
  (run_collect 1 60 30
     (world_of two_free stamped_database new_year [])).1 = WORK_SUCCESSFULLY ∧
  length (notification_table
            (database (run_collect 1 60 30
                         (world_of two_free stamped_database new_year [])).2))
  = 2%nat ∧
  notification_table
    (database
       (run_collect 1 60 30
          (set_clock (new_year + 5 * usec_per_sec)
             (run_collect 1 60 30
                (world_of two_free stamped_database new_year [])).2)).2)
  = notification_table
      (database (run_collect 1 60 30
                   (world_of two_free stamped_database new_year [])).2).
Proof.
  split; [reflexivity|]. split; [reflexivity|].
  apply (collect_again_adds_nothing 5%nat 1 2 4 8 sample_timestamp_out
           sample_summarizer_update 1 60 30 (new_year + 5 * usec_per_sec)
           (world_of two_free stamped_database new_year []));
    [lia|vm_compute; discriminate|reflexivity].
Defined.

(** The summarizer when the server rejects the reset and the moving-tag
    update: three statements are sent and the call fails on the third. *)
Lemma summarizer_statements_witness :
  (run_summarizer 10 5 3 100
     (world_of two_free tag_database new_year [true; false; true])).1
  = E_SQL_EXECUTE ∧
  sent (run_summarizer 10 5 3 100
          (world_of two_free tag_database new_year [true; false; true])).2
  = [(10%nat, RESET_STATE); (10%nat, UPDATE_STABLE_TAG 10 5 3);
     (10%nat, UPDATE_MOVING_TAG 10 5)] ∧
  pool (run_summarizer 10 5 3 100
          (world_of two_free tag_database new_year [true; false; true])).2
  = two_free.
Proof.
  assert (Hwf : pool_wf (pool (world_of two_free tag_database new_year
                                 [true; false; true]))).
  { split; [apply (bool_decide_unpack _); vm_compute; exact I|].
    repeat constructor; by left. }
  destruct (summarizer_statements 5%nat sample_timestamp_out
              sample_summarizer_update 10 5 3 100
              (world_of two_free tag_database new_year [true; false; true])
              10%nat 0 _ Hwf eq_refl) as (Hcode & Hsent & Hpool).
  split; [rewrite Hcode; vm_compute; reflexivity|].
  split; [rewrite Hsent; vm_compute; reflexivity|].
  rewrite Hpool. reflexivity.
Defined.

(** Four free slots: two UDP packets leave two of them, five packets run
    into the empty pool. *)
Lemma receiver_uses_one_slot_per_packet_witness :
  (∃ g' return_value,
     process_api_recv 1 (λ address, address) [udp_packet; udp_packet]
       refusing_receiver = Continues g' return_value ∧
     free_slots (pkt_content_mempool g') = [2; 3]%nat) ∧
  process_api_recv 1 (λ address, address) (replicate 5 udp_packet)
    refusing_receiver = Undefined.
Proof.
  split.
  - pose proof (receiver_uses_one_slot_per_packet 1 (λ address, address)
                  [udp_packet; udp_packet] refusing_receiver eq_refl
                  ltac:(discriminate)) as Hrecv.
    cbv zeta in Hrecv.
    match type of Hrecv with
    | if ?d then _ else _ =>
        let v := eval vm_compute in d in change d with v in Hrecv
    end.
    cbv iota in Hrecv. destruct Hrecv as (g' & return_value & Hres & Hfree).
    exists g', return_value. split; [exact Hres|]. rewrite Hfree.
    vm_compute. reflexivity.
  - pose proof (receiver_uses_one_slot_per_packet 1 (λ address, address)
                  (replicate 5 udp_packet) refusing_receiver eq_refl
                  ltac:(discriminate)) as Hrecv.
    cbv zeta in Hrecv.
    match type of Hrecv with
    | if ?d then _ else _ =>
        let v := eval vm_compute in d in change d with v in Hrecv
    end.
    exact Hrecv.
Defined.

(** Every connection in use: nothing is vacuumed or deleted, and both calls
    report success. *)
Lemma maintenance_without_connection_witness :
  (acquire 5%nat (world (session_of all_busy []))).1 = None ∧
  SQL_vacuum_database 5%nat (session_of all_busy [])
  = (WORK_SUCCESSFULLY, session_of all_busy []) ∧
  SQL_delete_old_data 5%nat 24 (session_of all_busy [])
  = (WORK_SUCCESSFULLY, session_of all_busy []) ∧
  SQL_reload_monitor_config 5%nat 8 (session_of all_busy [])
  = (E_SQL_OPEN_DATABASE, session_of all_busy []).
Proof.
  destruct (maintenance_without_connection 5%nat (session_of all_busy [])
              eq_refl) as (Hvacuum & Hdelete & Hreload).
  split; [reflexivity|]. split; [exact Hvacuum|].
  split; [exact (Hdelete 24)|exact (Hreload 8)].
Defined.

(** The third VACUUM refused: [gateway_table] is the last table tried. *)
Lemma maintenance_statements_witness :
  SQL_vacuum_database 5%nat
    (session_of two_free [command_ok; command_ok; fatal_error])
  = (E_SQL_EXECUTE,
     after_sending 10%nat
       [VACUUM "tracking_table"; VACUUM "lbeacon_table"; VACUUM "gateway_table"]
       (session_of two_free [command_ok; command_ok; fatal_error])).
Proof.
  assert (Hwf : pool_wf (pool (world (session_of two_free
                   [command_ok; command_ok; fatal_error])))).
  { split; [apply (bool_decide_unpack _); vm_compute; exact I|].
    repeat constructor; by left. }
  pose proof (maintenance_statements 5%nat 8
                (session_of two_free [command_ok; command_ok; fatal_error])
                10%nat 0 _ Hwf eq_refl) as Hall.
  cbv zeta in Hall. destruct Hall as (Hvacuum & _).
  rewrite Hvacuum. reflexivity.
Defined.

(** Two gateways announced: when both addresses are there and the second
    upsert fails, the first gateway stays registered; when one address is
    missing the call does not return. *)
Lemma gateway_registration_batch_witness :
  SQL_update_gateway_registration_status 5%nat 0 "2;192.168.1.1;192.168.1.2;"
    (session_of two_free [command_ok; fatal_error])
  = Some (E_SQL_EXECUTE,
          after_sending 10%nat
            [INSERT_GATEWAY_ON_CONFLICT "192.168.1.1" 0;
             INSERT_GATEWAY_ON_CONFLICT "192.168.1.2" 0]
            (session_of two_free [command_ok; fatal_error])) ∧
  SQL_update_gateway_registration_status 5%nat 0 "2;192.168.1.1;"
    (session_of two_free [])
  = None.
Proof.
  assert (Hwf : ∀ answers, pool_wf (pool (world (session_of two_free answers)))).
  { intros answers. split; [apply (bool_decide_unpack _); vm_compute; exact I|].
    repeat constructor; by left. }
  split.
  - rewrite (gateway_registration_batch 5%nat 0 "2;192.168.1.1;192.168.1.2;"
               "2" (session_of two_free [command_ok; fatal_error])
               10%nat 0 _ (Hwf _) eq_refl eq_refl
               ltac:(vm_compute; split; [reflexivity|discriminate])).
    vm_compute. reflexivity.
  - rewrite (gateway_registration_batch 5%nat 0 "2;192.168.1.1;"
               "2" (session_of two_free [])
               10%nat 0 _ (Hwf _) eq_refl eq_refl
               ltac:(vm_compute; split; [reflexivity|discriminate])).
    vm_compute. reflexivity.
Defined.

(** A gateway health report without its status token does not return; with
    the token, the UPDATE carries the address given as argument. *)
Lemma health_update_outcome_witness :
  SQL_update_gateway_health_status 5%nat "192.168.1.1;" "10.0.0.1"
    (session_of two_free [])
  = None ∧
  SQL_update_gateway_health_status 5%nat "192.168.1.1;0;" "10.0.0.1"
    (session_of two_free [])
  = Some (WORK_SUCCESSFULLY,
          after_sending 10%nat [UPDATE_GATEWAY_HEALTH "0" "10.0.0.1"]
            (session_of two_free [])).
Proof.
  assert (Hwf : pool_wf (pool (world (session_of two_free [])))).
  { split; [apply (bool_decide_unpack _); vm_compute; exact I|].
    repeat constructor; by left. }
  split.
  - pose proof (health_update_outcome 5%nat "192.168.1.1;" "10.0.0.1"
                  (session_of two_free []) Hwf) as Hout.
    change (acquire 5%nat (world (session_of two_free []))).1
      with (Some (10%nat, 0)) in Hout.
    cbv iota beta zeta in Hout. destruct Hout as [Hgateway _].
    rewrite Hgateway. vm_compute. reflexivity.
  - pose proof (health_update_outcome 5%nat "192.168.1.1;0;" "10.0.0.1"
                  (session_of two_free []) Hwf) as Hout.
    change (acquire 5%nat (world (session_of two_free []))).1
      with (Some (10%nat, 0)) in Hout.
    cbv iota beta zeta in Hout. destruct Hout as [Hgateway _].
    rewrite Hgateway. vm_compute. reflexivity.
Defined.

(** A geo-fence dump whose SELECT fails empties the file of the dump
    before; a dump of two monitored addresses writes two lines. *)
Lemma dump_outcome_witness :
  (SQL_dump_active_geo_fence_settings 5%nat "geo_fence.txt" stale_dump).1
  = E_SQL_EXECUTE ∧
  files (world (SQL_dump_active_geo_fence_settings 5%nat "geo_fence.txt"
                  stale_dump).2) !! "geo_fence.txt"
  = Some [] ∧
  files (world (SQL_dump_mac_address_under_geo_fence_monitor 5%nat 1
                  "mac.txt" two_addresses).2) !! "mac.txt"
  = Some ["1;aabbccddeeff;"; "2;112233445566;"].
Proof.
  assert (Hwf : pool_wf two_free).
  { split; [apply (bool_decide_unpack _); vm_compute; exact I|].
    repeat constructor; by left. }
  pose proof (dump_outcome 5%nat 1 "geo_fence.txt" stale_dump Hwf
                ltac:(apply not_elem_of_empty)) as Hold.
  pose proof (dump_outcome 5%nat 1 "mac.txt" two_addresses Hwf
                ltac:(apply not_elem_of_empty)) as Hnew.
  cbv zeta in Hold, Hnew.
  destruct Hold as [(Hcode & Hfiles & _) _].
  destruct Hnew as [_ (_ & Hlines & _)].
  split; [rewrite Hcode; vm_compute; reflexivity|].
  split.
  - rewrite Hfiles, lookup_insert_eq. vm_compute. reflexivity.
  - rewrite Hlines, lookup_insert_eq. vm_compute. reflexivity.
Defined.

(** A window from 22:00 to 06:00: active at 23:00, not active half a second
    before midnight. *)
Lemma is_active_window_witness :
  is_active_case 1 (time_of_day 22 0 0) (time_of_day 6 0 0) (time_of_day 23 0 0)
  = 1 ∧
  is_active_case 1 (time_of_day 22 0 0) (time_of_day 6 0 0)
    (time_of_day 23 59 59 + 500000)
  ≠ 1.
Proof.
  split.
  - apply (proj2 (proj1 (is_active_window 1 (time_of_day 22 0 0)
                           (time_of_day 6 0 0) (time_of_day 23 0 0)
                           ltac:(vm_compute; split; [discriminate|reflexivity])
                           ltac:(vm_compute; split; [discriminate|reflexivity])
                           ltac:(vm_compute; split; [discriminate|reflexivity])))).
    split; [reflexivity|]. split; [reflexivity|].
    intros (_ & _ & Hlate). revert Hlate. vm_compute. discriminate.
  - intros Hactive.
    apply (proj1 (proj1 (is_active_window 1 (time_of_day 22 0 0)
                           (time_of_day 6 0 0) (time_of_day 23 59 59 + 500000)
                           ltac:(vm_compute; split; [discriminate|reflexivity])
                           ltac:(vm_compute; split; [discriminate|reflexivity])
                           ltac:(vm_compute; split; [discriminate|reflexivity]))))
      in Hactive as (_ & _ & Hgap).
    apply Hgap. vm_compute. repeat split; discriminate.
Defined.

(** Two records, the first with its panic field at 1, every connection in
    use: the second round starts at the battery token of the first. *)
Lemma panic_record_without_connection_witness :
  tracking_records 5%nat 2 sample_timestamp_out sample_summarizer_update 2
    "/opt/bedis/temp/track_7" beacon_uuid 0
    ["aabbccddeeff"; "1577836790"; "1577836795"; "-60"; "1"; "3000";
     "112233445566"; "1577836790"; "1577836795"; "-70"; "0"; "2900"]
    (world_of all_busy tag_database new_year [])
  = tracking_records 5%nat 2 sample_timestamp_out sample_summarizer_update 1
      "/opt/bedis/temp/track_7" beacon_uuid 0
      ["3000"; "112233445566"; "1577836790"; "1577836795"; "-70"; "0"; "2900"]
      (world_of all_busy tag_database new_year []).
Proof.
  exact (panic_record_without_connection 5%nat 2 sample_timestamp_out
           sample_summarizer_update 1 "/opt/bedis/temp/track_7" beacon_uuid 0
           "aabbccddeeff" "1577836790" "1577836795" "-60" "1" "3000"
           ["112233445566"; "1577836790"; "1577836795"; "-70"; "0"; "2900"]
           (world_of all_busy tag_database new_year []) eq_refl eq_refl).
Defined.

(** A report that announces minus one record. *)
Lemma tracking_count_beyond_tokens_witness :
  run_tracking
    "0000000000010000123400000000567800000000;1577836800;192.168.1.20;1;-1;aabbccddeeff;1577836790;1577836795;-60;0;3000;2;0;"
    "/opt/bedis" 1 7 (world_of two_free tag_database new_year [])
  = None.
Proof.
  exact (tracking_count_beyond_tokens 5%nat 2 sample_timestamp_out
           sample_summarizer_update
           "0000000000010000123400000000567800000000;1577836800;192.168.1.20;1;-1;aabbccddeeff;1577836790;1577836795;-60;0;3000;2;0;"
           "/opt/bedis" 1 7 (world_of two_free tag_database new_year [])
           beacon_uuid "1577836800" "192.168.1.20" "1" "-1"
           ["aabbccddeeff"; "1577836790"; "1577836795"; "-60"; "0"; "3000";
            "2"; "0"]
           ltac:(vm_compute; reflexivity) ltac:(vm_compute; reflexivity)
           ltac:(apply not_elem_of_empty)).
Defined.

(** The first object is stamped after its empty activity result; nothing is
    asked about the second. *)
Lemma movement_violation_needs_silence_witness :
  ∃ s',
    SQL_identify_last_movement_status 5%nat 4 30 10 5 monitored_objects
    = Some (WORK_SUCCESSFULLY, s') ∧
    issued s'
    = [(10%nat, SELECT_MOVEMENT_MONITORED 4);
       (10%nat, SELECT_ACTIVITY 10 30 beacon_uuid "aabbccddeeff" 5);
       (10%nat, UPDATE_MOVEMENT_VIOLATION "aabbccddeeff")] ∧
    world s' = world monitored_objects.
Proof.
  assert (Hwf : pool_wf (pool (world monitored_objects))).
  { split; [apply (bool_decide_unpack _); vm_compute; exact I|].
    repeat constructor; by left. }
  eexists. split; [vm_compute; reflexivity|]. split; [reflexivity|].
  exact (proj1 (movement_violation_needs_silence 5%nat 4 30 10 5
                  monitored_objects _ WORK_SUCCESSFULLY Hwf
                  ltac:(vm_compute; reflexivity))).
Defined.

(** The panic report ingested at new year into [tag_database], whose tag
    carries the panic bit, and the panic events of the last minute
    collected five seconds later: the notification of the tag. *)
Lemma panic_button_raises_notification_witness :
  ∃ w1 w2 n,
    run_tracking panic_report "/opt/bedis" 1 7
      (world_of two_free tag_database new_year [])
    = Some (WORK_SUCCESSFULLY, w1) ∧
    run_collect 2 60 30 (set_clock (new_year + 5 * usec_per_sec) w1)
    = (WORK_SUCCESSFULLY, w2) ∧
    n ∈ notification_table (database w2) ∧
    n_monitor_type n = 2 ∧
    n_mac_address n = "aabbccddeeff" ∧
    n_uuid n = beacon_uuid ∧
    n_violation_timestamp n = new_year ∧
    n_processed n = 0.
Proof.
  assert (Hwf : pool_wf (pool (world_of two_free tag_database new_year []))).
  { split; [apply (bool_decide_unpack _); vm_compute; exact I|].
    repeat constructor; by left. }
  set (r := {| t_mac_address := "aabbccddeeff";
               t_initial_timestamp := "1577836790";
               t_final_timestamp := "1577836795"; t_rssi := "-60";
               t_panic_button := "1"; t_battery_voltage := "3000" |}).
  set (s := {| s_id := 1; s_mac_address := "aabbccddeeff";
               s_uuid := beacon_uuid; s_is_location_updated := 0;
               s_geofence_violation_timestamp := None;
               s_panic_violation_timestamp := None;
               s_movement_violation_timestamp := None;
               s_location_violation_timestamp := None |}).
  set (o := {| o_mac_address := "aabbccddeeff"; o_monitor_type := 2 |}).
  eapply (panic_button_raises_notification 5%nat 1 2 4 8 sample_timestamp_out
           sample_summarizer_update panic_report "/opt/bedis" 1 7
           (world_of two_free tag_database new_year [])
           beacon_uuid "1577836800" "192.168.1.20" "1" "1" "2" "0"
           [r] [] [] 10%nat 0 _ r s o s 60 30 (new_year + 5 * usec_per_sec)).
  - vm_compute; reflexivity.
  - vm_compute; reflexivity.
  - vm_compute; reflexivity.
  - vm_compute; reflexivity.
  - vm_compute; reflexivity.
  - apply not_elem_of_empty.
  - exact Hwf.
  - reflexivity.
  - reflexivity.
  - repeat constructor.
  - vm_compute; reflexivity.
  - repeat constructor.
  - reflexivity.
  - repeat constructor.
  - reflexivity.
  - repeat constructor.
  - reflexivity.
  - discriminate.
  - by intros n ?%elem_of_nil.
  - vm_compute; discriminate.
Defined.

(** Five allocation retries and five failures of [malloc]. *)
Lemma create_pool_malloc_failure_witness :
  SQL_create_database_connection_pool 5 [(10%nat, true)]
    [true; true; true; true; true; false] [] 1
  = Some (E_MALLOC, [], false).
Proof.
  exact (create_pool_malloc_failure 5 [(10%nat, true)] [false] [] 1
           ltac:(split; vm_compute; [reflexivity|discriminate])
           ltac:(reflexivity)).
Defined.
